(** * The sstable writer of pebble (sstable/writer.go), embedded in Rocq

    The development follows the source file: machine integers and byte
    slices, internal keys, the size estimator, the block flush heuristics,
    block compression and checksumming, the writer state machine (point keys,
    range deletions, range keys, index construction, Close) and the sync
    queue of the write-ahead-log record writer.

    Go values are modelled as follows.  An [int] is a [Z] wrapped to 64 bits
    two's complement, a [uint64]/[uint32] a [Z] wrapped modulo [2^64]/[2^32];
    [len] of a slice is exact.  A [float64] is a primitive float.  A [[]byte]
    is a [list byte]; where the source tests a slice against [nil] the slice
    is an [option (list byte)] and [None] is [nil].  A method on [*Writer] is
    a function from the writer state to the new state and the returned
    values; a Go [error] is an [option error]; a run-time panic is a separate
    outcome.  Packages of the repository that writer.go calls and that are
    not part of the sources at hand (internal/base, block.go, compression.go,
    the property collectors, the filter writer, the value-block writer, the
    fragmenter, the writable) enter as the fields of type classes. *)

From Stdlib Require Import ZArith List Bool Lia Floats Uint63 Sorted.
From coqutil Require Import Byte Word.LittleEndianList Datatypes.RecordSetters.
Import ListNotations.
Import RecordSetters.TriangleBracketNotations.
Local Open Scope Z_scope.

(** ** Machine integers, floats and slices *)

Definition wrap_int (z : Z) : Z := (z + 2 ^ 63) mod 2 ^ 64 - 2 ^ 63.
Definition wrap_uint64 (z : Z) : Z := z mod 2 ^ 64.
Definition wrap_uint32 (z : Z) : Z := z mod 2 ^ 32.

(** [float64(v)] for a [uint64] [v]: the nearest double, ties to even.  The
    primitive conversion takes 63 bits; a larger value is halved with a
    sticky bit first, which rounds the same way. *)
Definition float64_of_uint64 (v : Z) : float :=
  if v <? 2 ^ 63 then PrimFloat.of_uint63 (Uint63.of_Z v)
  else
    PrimFloat.mul
      (PrimFloat.of_uint63 (Uint63.of_Z (Z.lor (Z.shiftr v 1) (Z.land v 1))))
      (PrimFloat.of_uint63 2%uint63).

(** [uint64(f)] for a [float64] [f]: the fraction is discarded.  Go leaves
    the result open when the value does not fit; the model wraps it. *)
Definition uint64_of_float64 (f : float) : Z :=
  match Prim2SF f with
  | S754_finite false m e =>
      wrap_uint64 (if 0 <=? e then Z.pos m * 2 ^ e else Z.shiftr (Z.pos m) (- e))
  | _ => 0
  end.

Definition bytes := list byte.

(** [len(s)] of a Go slice. *)
Definition len {A : Type} (s : list A) : Z := Z.of_nat (length s).

(** A slice that the source compares with [nil]. *)
Definition slice := option bytes.

Definition slice_bytes (s : slice) : bytes :=
  match s with Some b => b | None => [] end.

Definition slice_is_nil (s : slice) : bool :=
  match s with Some _ => false | None => true end.

(** ** Outcomes: a value or a run-time panic *)

Inductive outcome (A : Type) : Type :=
| Return (a : A)
| Panic.

Arguments Return {A} a.
Arguments Panic {A}.

Definition bind {A B : Type} (m : outcome A) (k : A -> outcome B) : outcome B :=
  match m with
  | Return a => k a
  | Panic => Panic
  end.

Notation "x <- m ;; k" := (bind m (fun x => k))
  (at level 61, m at next level, right associativity).
Notation "' p <- m ;; k" := (bind m (fun x => let 'p := x in k))
  (at level 61, p pattern, m at next level, right associativity).

(** ** Internal keys (internal/base) *)

Record InternalKey := {
  UserKey : slice;
  Trailer : Z
}.

(** [InternalKey{}], the zero key. *)
Definition zeroInternalKey : InternalKey := {| UserKey := None; Trailer := 0 |}.

(** Modelled from the spec: internal/base is absent from src.  The trailer
    packs a sequence number (56 bits) and a kind (8 bits); the sequence
    number takes the high bits, the kind the low byte. *)
Definition MakeTrailer (seqNum kind : Z) : Z :=
  wrap_uint64 (Z.lor (Z.shiftl seqNum 8) kind).

Definition MakeInternalKey (userKey : slice) (seqNum kind : Z) : InternalKey :=
  {| UserKey := userKey; Trailer := MakeTrailer seqNum kind |}.

Definition TrailerKind (trailer : Z) : Z := Z.land trailer 255.

Definition Kind (k : InternalKey) : Z := TrailerKind (Trailer k).

Definition SeqNum (k : InternalKey) : Z := Z.shiftr (Trailer k) 8.

(** [k.Size()]: the user key and the eight bytes of the trailer. *)
Definition Size (k : InternalKey) : Z := len (slice_bytes (UserKey k)) + 8.

(** Modelled from the spec: [k.Clone()] deep-clones the key; the copy has the
    same bytes and the same trailer. *)
Definition Clone (k : InternalKey) : InternalKey := k.

(** Constants and small functions that writer.go takes from files of the
    repository which are not among the sources: the key kinds and the
    range-delete sentinel (internal/base), the table formats (format.go), the
    size of an empty block (block.go), the cache's per-value header
    (internal/cache), the block type of an uncompressed block
    (compression.go), the comparison and the sentinels of internal keys
    (internal/base) and the end key of a range key (internal/rangekey). *)
Class Declarations := {
  InternalKeyKindDelete : Z;
  InternalKeyKindSet : Z;
  InternalKeyKindMerge : Z;
  InternalKeyKindSingleDelete : Z;
  InternalKeyKindRangeDelete : Z;
  InternalKeyKindSetWithDelete : Z;
  InternalKeyKindRangeKeyDelete : Z;
  InternalKeyKindRangeKeyUnset : Z;
  InternalKeyKindRangeKeySet : Z;
  InternalKeyKindDeleteSized : Z;
  InternalKeyRangeDeleteSentinel : Z;
  TableFormatPebblev1 : Z;
  TableFormatPebblev2 : Z;
  TableFormatPebblev3 : Z;
  TableFormatPebblev4 : Z;
  supportsTwoLevelIndex : Z -> bool;
  emptyBlockSize : Z;
  ValueMetadataSize : Z;
  noCompressionBlockType : byte;
  maxPropertyCollectors : Z;
  InternalCompare : (bytes -> bytes -> Z) -> InternalKey -> InternalKey -> Z;
  MakeRangeDeleteSentinelKey : bytes -> InternalKey;
  MakeExclusiveSentinelKey : Z -> bytes -> InternalKey;
  DecodeEndKey : Z -> bytes -> option bytes
}.

(** [encodedBHPEstimatedSize] estimates the size of the encoded
    BlockHandleWithProperties: [binary.MaxVarintLen64 * 2]. *)
Definition encodedBHPEstimatedSize : Z := 10 * 2.

(** Modelled from the spec: [blockTrailerLen] of the block layout is absent
    from src; block trailers are 5 bytes, the type and a 32-bit checksum. *)
Definition blockTrailerLen : Z := 5.

(** The comparer the writer is configured with ([compare], [split]) and the
    two methods of an internal key that use its [Separator] and [Successor]:
    [ikSeparator prev key] is [prev.Separator(w.compare, w.separator, _, key)]
    and [ikSuccessor prev] is [prev.Successor(w.compare, w.successor, _)]. *)
Class Comparer := {
  compare : bytes -> bytes -> Z;
  split : bytes -> Z;
  ikSeparator : InternalKey -> InternalKey -> InternalKey;
  ikSuccessor : InternalKey -> InternalKey
}.


(** ** The size estimator ([sizeEstimate]) *)

Record sizeEstimate := {
  (* emptySize is the size when there is no inflight data, and numEntries is
     0. *)
  emptySize : Z;
  (* inflightSize is the estimated size of some inflight data which hasn't
     been written yet. *)
  inflightSize : Z;
  (* totalSize is the total size of the data which has already been
     written. *)
  totalSize : Z;
  numWrittenEntries : Z;
  numInflightEntries : Z;
  (* maxEstimatedSize stores the maximum result returned from
     sizeEstimate.size. *)
  maxEstimatedSize : Z;
  compressedSize : Z;
  uncompressedSize : Z
}.

Definition sizeEstimate_zero : sizeEstimate :=
  {| emptySize := 0; inflightSize := 0; totalSize := 0; numWrittenEntries := 0;
     numInflightEntries := 0; maxEstimatedSize := 0; compressedSize := 0;
     uncompressedSize := 0 |}.

Definition sizeEstimate_init (s : sizeEstimate) (emptySize' : Z) : sizeEstimate :=
  s<|emptySize := emptySize'|>.

(** [size] returns the estimate and records it in [maxEstimatedSize]. *)
Definition sizeEstimate_size (s : sizeEstimate) : Z * sizeEstimate :=
  let ratio :=
    if 0 <? uncompressedSize s
    then PrimFloat.div (float64_of_uint64 (compressedSize s))
                       (float64_of_uint64 (uncompressedSize s))
    else float64_of_uint64 1 in
  let estimatedInflightSize :=
    uint64_of_float64 (PrimFloat.mul (float64_of_uint64 (inflightSize s)) ratio) in
  let total := wrap_uint64 (totalSize s + estimatedInflightSize) in
  let '(total, s) :=
    if maxEstimatedSize s <? total then (total, s<|maxEstimatedSize := total|>)
    else (maxEstimatedSize s, s) in
  if total =? 0 then (emptySize s, s) else (total, s).

Definition numTotalEntries (s : sizeEstimate) : Z :=
  wrap_uint64 (numWrittenEntries s + numInflightEntries s).

Definition addInflight (s : sizeEstimate) (size : Z) : sizeEstimate :=
  s<|numInflightEntries := wrap_uint64 (numInflightEntries s + 1)|>
   <|inflightSize := wrap_uint64 (inflightSize s + size)|>.

Definition writtenWithDelta (s : sizeEstimate) (finalEntrySize inflightSize' : Z)
  : sizeEstimate :=
  let s :=
    if 0 <? inflightSize' then
      (* This entry was previously inflight, so we should decrement inflight
         entries and update the "compression" stats for future estimation. *)
      s<|numInflightEntries := wrap_uint64 (numInflightEntries s - 1)|>
       <|inflightSize := wrap_uint64 (inflightSize s - inflightSize')|>
       <|uncompressedSize := wrap_uint64 (uncompressedSize s + inflightSize')|>
       <|compressedSize := wrap_uint64 (compressedSize s + finalEntrySize)|>
    else s in
  s<|numWrittenEntries := wrap_uint64 (numWrittenEntries s + 1)|>
   <|totalSize := wrap_uint64 (totalSize s + finalEntrySize)|>.

Definition writtenWithTotal (s : sizeEstimate) (newTotalSize inflightSize' : Z)
  : sizeEstimate :=
  let finalEntrySize := wrap_int (newTotalSize - totalSize s) in
  writtenWithDelta s finalEntrySize inflightSize'.

Definition sizeEstimate_clear (s : sizeEstimate) : sizeEstimate :=
  sizeEstimate_zero<|emptySize := emptySize s|>.

(** ** Block flush heuristics *)

(** [flushDecisionOptions] holds parameters to inform the sstable block
    flushing heuristics. *)
Record flushDecisionOptions := {
  blockSize : Z;
  blockSizeThreshold : Z;
  (* sizeClassAwareThreshold takes precedence over blockSizeThreshold when
     the Writer is aware of the allocator's size classes. *)
  sizeClassAwareThreshold : Z
}.

(** Modelled from the spec: [uvarintLen] of block.go is absent from src; it
    is the length of the varint of a 32-bit unsigned value: one byte for each
    group of seven bits, at least one. *)
Fixpoint uvarintLen_loop (fuel : nat) (v i : Z) : Z :=
  match fuel with
  | O => i + 1
  | S fuel' =>
      if 128 <=? v then uvarintLen_loop fuel' (Z.shiftr v 7) (i + 1)
      else i + 1
  end.

Definition uvarintLen (v : Z) : Z := uvarintLen_loop 5 v 0.

Definition shouldFlushWithoutHints
    (keyLen valueLen restartInterval estimatedBlockSize numEntries : Z)
    (flushOptions : flushDecisionOptions) : option bool :=
  if blockSize flushOptions <=? estimatedBlockSize then Some true
  else if estimatedBlockSize <=? blockSizeThreshold flushOptions then
    (* The block is smaller than the threshold size at which we'll consider
       flushing it. *)
    Some false
  else if restartInterval =? 0 then None (* integer divide by zero *)
  else
    let newSize := wrap_int (estimatedBlockSize + keyLen + valueLen) in
    let newSize :=
      if Z.rem numEntries restartInterval =? 0 then wrap_int (newSize + 4)
      else newSize in
    let newSize := wrap_int (newSize + 4) in (* varint for shared prefix length *)
    let newSize := wrap_int (newSize + uvarintLen (wrap_uint32 keyLen)) in
    let newSize := wrap_int (newSize + uvarintLen (wrap_uint32 valueLen)) in
    (* Flush if the block plus the new entry is larger than the target size. *)
    Some (blockSize flushOptions <? newSize).

(** [slices.BinarySearch] of the Go library on a slice of [int]: the loop
    halves the interval [i, j) until it is empty; [length x + 1] rounds are
    always enough. *)
Fixpoint BinarySearch_loop (fuel : nat) (x : list Z) (target i j : Z) : Z :=
  match fuel with
  | O => i
  | S fuel' =>
      if i <? j then
        let h := Z.shiftr (i + j) 1 in
        if nth (Z.to_nat h) x 0 <? target
        then BinarySearch_loop fuel' x target (h + 1) j
        else BinarySearch_loop fuel' x target i h
      else i
  end.

Definition BinarySearch (x : list Z) (target : Z) : Z * bool :=
  let n := len x in
  let i := BinarySearch_loop (S (length x)) x target 0 n in
  (i, (i <? n) && (nth (Z.to_nat i) x 0 =? target)).

(** [blockSizeClass] returns the smallest memory allocator size class that
    could hold a block of a given size and returns a boolean indicating
    whether an appropriate size class was found. *)
Definition blockSizeClass (blockSize' : Z) (sizeClassHints : list Z) : Z * bool :=
  let '(sizeClassIdx, _) := BinarySearch sizeClassHints blockSize' in
  if sizeClassIdx =? len sizeClassHints then (-1, false)
  else (nth (Z.to_nat sizeClassIdx) sizeClassHints 0, true).

Definition shouldFlushWithHints {decls : Declarations}
    (keyLen valueLen restartInterval estimatedBlockSize numEntries : Z)
    (flushOptions : flushDecisionOptions) (sizeClassHints : list Z)
  : option bool :=
  if numEntries =? 0 then Some false
  else if len sizeClassHints =? 0 then
    (* If we are not informed about the memory allocator's size classes we
       fall back to a simple set of flush heuristics. *)
    shouldFlushWithoutHints
      keyLen valueLen restartInterval estimatedBlockSize numEntries flushOptions
  else
    let blockSizeWithMetadata := wrap_int (estimatedBlockSize + ValueMetadataSize) in
    let newEstimatedSize :=
      wrap_int (blockSizeWithMetadata + keyLen + valueLen + 18) in
    if (blockSizeWithMetadata <=? sizeClassAwareThreshold flushOptions)
       || (newEstimatedSize <=? blockSize flushOptions)
    then Some false
    else
      let '(sizeClass, ok) := blockSizeClass blockSizeWithMetadata sizeClassHints in
      if negb ok then
        (* If the block size could not be mapped to a size class we fall back
           to using a simpler set of flush heuristics. *)
        shouldFlushWithoutHints
          keyLen valueLen restartInterval estimatedBlockSize numEntries flushOptions
      else if restartInterval =? 0 then None (* integer divide by zero *)
      else
        (* Tighter upper-bound estimate of the metadata stored with the next
           key-value pair. *)
        let newSize := wrap_int (blockSizeWithMetadata + keyLen + valueLen) in
        let newSize :=
          if Z.rem numEntries restartInterval =? 0 then wrap_int (newSize + 4)
          else newSize in
        let newSize := wrap_int (newSize + 4) in
        let newSize := wrap_int (newSize + uvarintLen (wrap_uint32 keyLen)) in
        let newSize := wrap_int (newSize + uvarintLen (wrap_uint32 valueLen)) in
        if blockSizeWithMetadata <? blockSize flushOptions then
          let '(newSizeClass, ok) := blockSizeClass newSize sizeClassHints in
          if ok && (wrap_int (sizeClass - blockSizeWithMetadata)
                    <=? wrap_int (newSizeClass - newSize))
          then
            (* Although the block hasn't reached the target size, waiting to
               insert the next entry would exceed the target and increase
               memory fragmentation. *)
            Some true
          else Some false
        else
          (* Flush if inserting the next entry bumps the block size to the
             memory allocator's next size class. *)
          Some (sizeClass <? newSize).

(** ** Errors *)

(** The errors writer.go creates, one constructor per message, and the
    errors that the collaborators hand back ([errCollaborator]). *)
Inductive error : Type :=
| errWriterClosed            (* pebble: writer is closed *)
| errUseAddWithForceObsolete (* use AddWithForceObsolete *)
| errRangeKeysMisrouted      (* range keys must be added via one of the RangeKey* functions *)
| errKeysStrictlyIncreasing (prev key : InternalKey)
                             (* keys must be added in strictly increasing order *)
| errMergeInStrictObsolete   (* MERGE not supported in a strict-obsolete sstable *)
| errKeysInOrder (prev key : InternalKey)
                             (* keys must be added in order *)
| errOverlappingTombstones   (* overlapping tombstones must be fragmented *)
| errRangeDeleteSentinel     (* cannot add range delete sentinel *)
| errDeleteSizedValue        (* key's value does not parse as uvarint *)
| errStartNotBeforeEnd       (* start key must be strictly less than end key *)
| errSpansInOrder            (* spans must be added in order *)
| errInvalidEndKey           (* invalid end key for span *)
| errRangeKeyStartsInOrder   (* range keys starts must be added in increasing order *)
| errOverlappingRangeKeys    (* overlapping range keys must be fragmented *)
| errFormatTooOld (minimum : Z)
                             (* table format version is less than the minimum required *)
| errNilWritable             (* pebble: nil writable *)
| errTooManyCollectors       (* pebble: too many block property collectors *)
| errCollaborator (code : Z).

(** [firstError]. *)
Definition firstError (err0 err1 : option error) : option error :=
  match err0 with
  | Some e => Some e
  | None => err1
  end.

(** ** The block writer *)

(** What one call of [addWithOptionalValuePrefix] hands to the block. *)
Record blockEntry := {
  entryKey : InternalKey;
  entryObsolete : bool;
  entryValue : bytes;
  entryMaxSharedKeyLen : Z;
  entryValuePrefix : option byte;
  entrySetHasSameKeyPrefix : bool
}.

(** Modelled from the spec: the block writer (block.go) is absent from src.
    A block writer appends entries; a restart point is emitted every
    [restartInterval] entries.  The model keeps the entries in order, their
    number, and the last key and value, which is what writer.go reads. *)
Record blockWriter := {
  restartInterval : Z;
  nEntries : Z;
  entries : list blockEntry;
  curKey : InternalKey;
  curValue : bytes
}.

Definition blockWriter_new (restartInterval' : Z) : blockWriter :=
  {| restartInterval := restartInterval'; nEntries := 0; entries := [];
     curKey := zeroInternalKey; curValue := [] |}.

Definition addWithOptionalValuePrefix (w : blockWriter) (key : InternalKey)
    (isObsolete : bool) (value : bytes) (maxSharedKeyLen : Z)
    (addValuePrefix : bool) (valuePrefix : byte) (setHasSameKeyPrefix : bool)
  : blockWriter :=
  let e := {| entryKey := key; entryObsolete := isObsolete; entryValue := value;
              entryMaxSharedKeyLen := maxSharedKeyLen;
              entryValuePrefix := if addValuePrefix then Some valuePrefix else None;
              entrySetHasSameKeyPrefix := setHasSameKeyPrefix |} in
  w<|nEntries := wrap_int (nEntries w + 1)|>
   <|entries := entries w ++ [e]|>
   <|curKey := {| UserKey := Some (slice_bytes (UserKey key)); Trailer := Trailer key |}|>
   <|curValue := value|>.

Definition blockWriter_add (w : blockWriter) (key : InternalKey) (value : bytes)
  : blockWriter :=
  addWithOptionalValuePrefix w key false value (len (slice_bytes (UserKey key)))
                             false Byte.x00 false.

Definition getCurKey (w : blockWriter) : InternalKey := curKey w.

Definition getCurUserKey (w : blockWriter) : bytes := slice_bytes (UserKey (curKey w)).

(** The byte layout of a block is the business of block.go: the estimated
    size of a block in the making (the byte length of the buffer plus the
    restart-array footprint) and the bytes of the finished block. *)
Class BlockFormat := {
  estimatedSize : blockWriter -> Z;
  finish : blockWriter -> bytes
}.

(** ** Compression and checksums *)

(** Modelled from the spec: the checksum types (CRC32-C, XXH64) are declared
    outside src; any other value is an unknown checksum type. *)
Inductive ChecksumType : Type :=
| ChecksumTypeCRC32c
| ChecksumTypeXXHash64
| ChecksumTypeUnknown (code : Z).

(** The codecs and the checksum algorithms are injected.  [compressBlock]
    returns the block type and the compressed bytes.  [crcValue b] is
    [crc.New(b1).Update(b2).Value()] for [b = b1 ++ b2], and [xxhashSum64 b]
    is [Sum64()] of a digest that was reset and then given [b]: a digest is
    a function of the bytes it has been fed. *)
Class Codec := {
  Compression : Type;
  NoCompression : Compression;
  compressBlock : Compression -> bytes -> byte * bytes;
  crcValue : bytes -> Z;
  xxhashSum64 : bytes -> Z
}.

Record checksummer := {
  checksumType : ChecksumType;
  (* the bytes written to the digest since its last reset; None is nil *)
  xxHasher : option bytes
}.

Definition checksummer_checksum {codec : Codec} (c : checksummer) (block blockType : bytes)
  : outcome (Z * checksummer) :=
  match checksumType c with
  | ChecksumTypeCRC32c =>
      Return (wrap_uint32 (crcValue (block ++ blockType)), c)
  | ChecksumTypeXXHash64 =>
      let digest := @nil byte in (* xxhash.New() or Reset() *)
      let digest := digest ++ block in
      let digest := digest ++ blockType in
      Return (wrap_uint32 (xxhashSum64 digest), c<|xxHasher := Some digest|>)
  | ChecksumTypeUnknown _ => Panic (* unsupported checksum type *)
  end.

Record blockBuf := {
  (* tmp is a scratch buffer; the model keeps the bytes last stored at its
     front *)
  tmp : bytes;
  blockBuf_checksummer : checksummer
}.

Definition blockBuf_clear (b : blockBuf) : blockBuf := b<|tmp := []|>.

Definition compressAndChecksum {decls : Declarations} {codec : Codec}
    (b : bytes) (compression : Compression) (blockBuf' : blockBuf)
  : outcome (bytes * blockBuf) :=
  (* Compress the buffer, discarding the result if the improvement isn't at
     least 12.5%. *)
  let '(blockType, compressed) := compressBlock compression b in
  let '(b, blockType) :=
    if len compressed <? len b - Z.quot (len b) 8 then (compressed, blockType)
    else (b, noCompressionBlockType) in
  let tmp0 := [blockType] in
  (* Calculate the checksum. *)
  '(checksum, cs) <- checksummer_checksum (blockBuf_checksummer blockBuf') b tmp0 ;;
  Return (b, blockBuf'<|tmp := tmp0 ++ le_split 4 checksum ++ skipn 5 (tmp blockBuf')|>
                      <|blockBuf_checksummer := cs|>).

(** ** The data of the writer *)

Record BlockHandle := {
  Offset : Z;
  Length : Z
}.

Definition zeroBlockHandle : BlockHandle := {| Offset := 0; Length := 0 |}.

Record BlockHandleWithProperties := {
  bhp_BlockHandle : BlockHandle;
  Props : bytes
}.

(** WriterMetadata holds info about a finished sstable. *)
Record WriterMetadata := {
  meta_Size : Z;
  SmallestPoint : InternalKey;
  LargestPoint : InternalKey;
  SmallestRangeDel : InternalKey;
  LargestRangeDel : InternalKey;
  SmallestRangeKey : InternalKey;
  LargestRangeKey : InternalKey;
  HasPointKeys : bool;
  HasRangeDelKeys : bool;
  HasRangeKeys : bool;
  SmallestSeqNum : Z;
  LargestSeqNum : Z
}.

Definition SetSmallestPointKey (m : WriterMetadata) (k : InternalKey) :=
  m<|SmallestPoint := k|><|HasPointKeys := true|>.

Definition SetSmallestRangeDelKey (m : WriterMetadata) (k : InternalKey) :=
  m<|SmallestRangeDel := k|><|HasRangeDelKeys := true|>.

Definition SetSmallestRangeKey (m : WriterMetadata) (k : InternalKey) :=
  m<|SmallestRangeKey := k|><|HasRangeKeys := true|>.

Definition SetLargestPointKey (m : WriterMetadata) (k : InternalKey) :=
  m<|LargestPoint := k|><|HasPointKeys := true|>.

Definition SetLargestRangeDelKey (m : WriterMetadata) (k : InternalKey) :=
  m<|LargestRangeDel := k|><|HasRangeDelKeys := true|>.

Definition SetLargestRangeKey (m : WriterMetadata) (k : InternalKey) :=
  m<|LargestRangeKey := k|><|HasRangeKeys := true|>.

Definition updateSeqNum (m : WriterMetadata) (seqNum : Z) : WriterMetadata :=
  let m := if seqNum <? SmallestSeqNum m then m<|SmallestSeqNum := seqNum|> else m in
  if LargestSeqNum m <? seqNum then m<|LargestSeqNum := seqNum|> else m.

(** The numeric fields of [Properties] that writer.go updates; the struct is
    a table from the field to its [uint64]. *)
Inductive Property : Type :=
| NumEntries | NumDeletions | NumSizedDeletions | NumRangeDeletions
| NumMergeOperands | NumRangeKeyDels | NumRangeKeySets | NumRangeKeyUnsets
| RawKeySize | RawValueSize | RawPointTombstoneKeySize
| RawPointTombstoneValueSize | RawRangeKeyKeySize | RawRangeKeyValueSize
| NumDataBlocks | IndexSize | IndexPartitions | TopLevelIndexSize | DataSize
| FilterSize | NumValueBlocks | NumValuesInValueBlocks | ValueBlocksSize.

Definition Property_eqb (p q : Property) : bool :=
  match p, q with
  | NumEntries, NumEntries | NumDeletions, NumDeletions
  | NumSizedDeletions, NumSizedDeletions | NumRangeDeletions, NumRangeDeletions
  | NumMergeOperands, NumMergeOperands | NumRangeKeyDels, NumRangeKeyDels
  | NumRangeKeySets, NumRangeKeySets | NumRangeKeyUnsets, NumRangeKeyUnsets
  | RawKeySize, RawKeySize | RawValueSize, RawValueSize
  | RawPointTombstoneKeySize, RawPointTombstoneKeySize
  | RawPointTombstoneValueSize, RawPointTombstoneValueSize
  | RawRangeKeyKeySize, RawRangeKeyKeySize
  | RawRangeKeyValueSize, RawRangeKeyValueSize
  | NumDataBlocks, NumDataBlocks | IndexSize, IndexSize
  | IndexPartitions, IndexPartitions | TopLevelIndexSize, TopLevelIndexSize
  | DataSize, DataSize | FilterSize, FilterSize
  | NumValueBlocks, NumValueBlocks
  | NumValuesInValueBlocks, NumValuesInValueBlocks
  | ValueBlocksSize, ValueBlocksSize => true
  | _, _ => false
  end.

Record Properties := {
  num : Property -> Z;
  (* the index type: true for twoLevelIndex, false for binarySearchIndex *)
  IndexTypeTwoLevel : bool;
  (* UserProperties, by the position of the collector *)
  UserProperties : list (Z * bytes)
}.

Definition Properties_zero : Properties :=
  {| num := fun _ => 0; IndexTypeTwoLevel := false; UserProperties := [] |}.

(** [p.f = v] and [p.f += d] on a numeric field. *)
Definition prop_set (p : Properties) (f : Property) (v : Z) : Properties :=
  p<|num := fun g => if Property_eqb f g then v else num p g|>.

Definition prop_add (p : Properties) (f : Property) (d : Z) : Properties :=
  prop_set p f (wrap_uint64 (num p f + d)).

(** [props.NumRangeKeys()]. *)
Definition NumRangeKeys (p : Properties) : Z :=
  wrap_uint64 (num p NumRangeKeyDels + num p NumRangeKeySets + num p NumRangeKeyUnsets).

Record pointKeyInfo := {
  trailer : Z;
  (* Only computed when w.valueBlockWriter is not nil. *)
  userKeyLen : Z;
  (* prefixLen uses w.split, if not nil. *)
  prefixLen : Z;
  (* True iff the point was marked obsolete. *)
  isObsolete : bool
}.

Definition pointKeyInfo_zero : pointKeyInfo :=
  {| trailer := 0; userKeyLen := 0; prefixLen := 0; isObsolete := false |}.

Record UserKeyPrefixBound := {
  Lower : bytes;
  Upper : bytes
}.

(** Modelled from the spec: [IsEmpty] of options.go is absent from src; the
    bound [[lo, hi)] is empty when it is the zero value. *)
Definition UserKeyPrefixBound_IsEmpty (b : UserKeyPrefixBound) : bool :=
  (len (Lower b) =? 0) && (len (Upper b) =? 0).

Definition UserKeyPrefixBound_zero : UserKeyPrefixBound := {| Lower := []; Upper := [] |}.

Record indexBlockAndBlockProperties := {
  part_nEntries : Z;
  (* sep is the last key added to this block, for computing a separator
     later. *)
  sep : InternalKey;
  properties : bytes;
  (* block is the encoded block produced by blockWriter.finish. *)
  block : bytes
}.

Record indexBlockBuf := {
  ib_block : blockWriter;
  ib_useMutex : bool;
  ib_estimate : sizeEstimate;
  ib_restartInterval : Z
}.

Record dataBlockEstimates := {
  useMutex : bool;
  estimate : sizeEstimate
}.

(** A dataBlockBuf holds all the state required to compress and write a data
    block to disk. *)
Record dataBlockBuf := {
  dbb_blockBuf : blockBuf;
  dataBlock : blockWriter;
  uncompressed : bytes;
  compressed : bytes;
  dataBlockProps : bytes
}.

(** The coordination state; of the write queue (write_queue.go, absent from
    src) the model keeps the error it has latched. *)
Record coordinationState := {
  parallelismEnabled : bool;
  writeQueue_err : option error;
  coord_sizeEstimate : dataBlockEstimates
}.

(** [keyspan.Key] and [keyspan.Span]. *)
Record Key := {
  Key_Trailer : Z;
  Suffix : slice;
  Value : slice
}.

Record Span := {
  Start : slice;
  End : slice;
  Keys : list Key
}.

(** The names under which Close files blocks in the metaindex. *)
Inductive metaName : Type :=
| metaFilterName
| metaRangeKeyName
| metaPropertiesName
| metaRangeDelName
| metaRangeDelV2Name
| metaValueIndexName.

(** [valueBlockWriter.finish] reports these counts. *)
Record valueBlocksAndIndexStats := {
  numValueBlocks : Z;
  numValuesInValueBlocks : Z;
  valueBlocksAndIndexSize : Z
}.

(** The collaborators of the writer whose code is outside src, each with the
    methods writer.go calls.  A method of a stateful collaborator returns the
    collaborator's next state with its results. *)
Class Collaborators := {
  (* BlockPropertyCollector *)
  Collector : Type;
  bpc_Add : Collector -> InternalKey -> slice -> Collector * option error;
  bpc_FinishDataBlock : Collector -> Collector * (bytes * option error);
  bpc_AddPrevDataBlockToIndexBlock : Collector -> Collector;
  bpc_FinishIndexBlock : Collector -> Collector * (bytes * option error);
  bpc_FinishTable : Collector -> Collector * (bytes * option error);
  (* obsoleteKeyBlockPropertyCollector.AddPoint *)
  obsoleteCollector : Collector;
  obsolete_AddPoint : Collector -> bool -> Collector;
  (* blockPropertiesEncoder: the encoding of the properties added by shortID *)
  encodeBlockProperties : list (Z * bytes) -> bytes;
  (* filterWriter *)
  Filter : Type;
  filter_addKey : Filter -> bytes -> Filter;
  filter_finish : Filter -> Filter * (bytes * option error);
  (* valueBlockWriter: addValue returns the value handle, encoded, and the
     compressed sizes of the value blocks it completed, which it reports to
     the writer's size estimate; finish returns the blocks it writes through
     Writer.Write, the encoded index handle and the counts *)
  ValueBlockWriter : Type;
  newValueBlockWriter : Z -> Z -> ValueBlockWriter;
  vbw_addValue : ValueBlockWriter -> bytes ->
                 ValueBlockWriter * (list Z * (bytes * option error));
  vbw_finish : ValueBlockWriter -> Z ->
               list bytes * (bytes * (valueBlocksAndIndexStats * option error));
  shortAttributeExtractor : bytes -> Z -> bytes -> Z * option error;
  makePrefixForValueHandle : bool -> Z -> byte;
  makePrefixForInPlaceValue : bool -> byte;
  (* objstorage.Writable *)
  Writable : Type;
  writable_Write : Writable -> bytes -> Writable * option error;
  writable_Finish : Writable -> option error;
  (* keyspan.Fragmenter: Add and Finish return the spans they emit *)
  Fragmenter : Type;
  newFragmenter : Fragmenter;
  fragmenter_Start : Fragmenter -> slice;
  fragmenter_Add : Fragmenter -> Span -> Fragmenter * list Span;
  fragmenter_Finish : Fragmenter -> Fragmenter * list Span;
  (* sort.Sort of keyspan.KeysBySuffix under the comparer *)
  sortKeysBySuffix : (bytes -> bytes -> Z) -> list Key -> list Key;
  (* rangekey.Encoder.Encode: the key-value pairs it emits for a span *)
  rangekey_Encode : Span -> list (InternalKey * bytes);
  (* encodings *)
  encodeBlockHandle : BlockHandle -> bytes;
  encodeBlockHandleWithProperties : BlockHandleWithProperties -> bytes;
  rawBlock : Z -> list (metaName * bytes) -> bytes;
  propertiesBlock : Z -> Properties -> bytes;
  encodeFooter : Z -> ChecksumType -> BlockHandle -> BlockHandle -> bytes
}.

(** ** The writer *)

Definition indexBlockRestartInterval : Z := 1.

(** [binary.Uvarint] of the Go library: the decoded value and the number of
    bytes read; the count is zero when the buffer is too small and negative
    on overflow. *)
Fixpoint Uvarint_loop (buf : bytes) (i x s : Z) : Z * Z :=
  match buf with
  | [] => (0, 0)
  | b :: rest =>
      if i =? 10 then (0, - (i + 1))
      else
        let b := byte.unsigned b in
        if b <? 128 then
          if (i =? 9) && (1 <? b) then (0, - (i + 1))
          else (wrap_uint64 (Z.lor x (Z.shiftl b s)), i + 1)
        else
          Uvarint_loop rest (i + 1)
                       (wrap_uint64 (Z.lor x (Z.shiftl (Z.land b 127) s))) (s + 7)
  end.

Definition Uvarint (buf : bytes) : Z * Z := Uvarint_loop buf 0 0 0.

(** [b[:n]] and [b[n:]]: out of range is a panic. *)
Definition slice_to (b : bytes) (n : Z) : outcome bytes :=
  if (0 <=? n) && (n <=? len b) then Return (firstn (Z.to_nat n) b) else Panic.

Definition slice_from (b : bytes) (n : Z) : outcome bytes :=
  if (0 <=? n) && (n <=? len b) then Return (skipn (Z.to_nat n) b) else Panic.

(** The last element of a list, updated. *)
Fixpoint update_last {A : Type} (f : A -> A) (l : list A) : list A :=
  match l with
  | [] => []
  | [x] => [f x]
  | x :: rest => x :: update_last f rest
  end.

Section WriterModel.

Context {decls : Declarations} {comparer : Comparer} {format : BlockFormat}
        {codec : Codec} {collab : Collaborators}.

Definition newIndexBlockBuf (useMutex' : bool) : indexBlockBuf :=
  {| ib_block := blockWriter_new indexBlockRestartInterval;
     ib_useMutex := useMutex';
     ib_estimate := sizeEstimate_init sizeEstimate_zero emptyBlockSize;
     ib_restartInterval := indexBlockRestartInterval |}.

Definition indexBlockBuf_shouldFlush (i : indexBlockBuf) (sep' : InternalKey)
    (valueLen : Z) (flushOptions : flushDecisionOptions) (sizeClassHints : list Z)
  : outcome (bool * indexBlockBuf) :=
  let nEntries' := numTotalEntries (ib_estimate i) in
  let '(size, est) := sizeEstimate_size (ib_estimate i) in
  match shouldFlushWithHints (Size sep') valueLen (ib_restartInterval i)
                             (wrap_int size) (wrap_int nEntries')
                             flushOptions sizeClassHints with
  | Some b => Return (b, i<|ib_estimate := est|>)
  | None => Panic
  end.

Definition indexBlockBuf_add (i : indexBlockBuf) (key : InternalKey) (value : bytes)
    (inflightSize' : Z) : indexBlockBuf :=
  let b := blockWriter_add (ib_block i) key value in
  let size := estimatedSize b in
  i<|ib_block := b|>
   <|ib_estimate := writtenWithTotal (ib_estimate i) (wrap_uint64 size) inflightSize'|>.

Definition indexBlockBuf_finish (i : indexBlockBuf) : bytes := finish (ib_block i).

Definition indexBlockBuf_addInflight (i : indexBlockBuf) (inflightSize' : Z)
  : indexBlockBuf :=
  i<|ib_estimate := addInflight (ib_estimate i) inflightSize'|>.

(** [estimatedSize] of the index block; the extra checks of builds with
    invariants enabled are left out. *)
Definition indexBlockBuf_estimatedSize (i : indexBlockBuf) : Z * indexBlockBuf :=
  let '(size, est) := sizeEstimate_size (ib_estimate i) in
  (size, i<|ib_estimate := est|>).

Definition dataBlockCompressed (d : dataBlockEstimates) (compressedSize' inflightSize' : Z)
  : dataBlockEstimates :=
  d<|estimate := writtenWithDelta (estimate d)
                                  (wrap_int (compressedSize' + blockTrailerLen))
                                  inflightSize'|>.

Definition dataBlockEstimates_size (d : dataBlockEstimates) : Z * dataBlockEstimates :=
  let '(size, est) := sizeEstimate_size (estimate d) in
  (size, d<|estimate := est|>).

Definition addInflightDataBlock (d : dataBlockEstimates) (size : Z) : dataBlockEstimates :=
  d<|estimate := addInflight (estimate d) size|>.

Definition newDataBlockBuf (restartInterval' : Z) (checksumType' : ChecksumType)
  : dataBlockBuf :=
  {| dbb_blockBuf :=
       {| tmp := [];
          blockBuf_checksummer := {| checksumType := checksumType'; xxHasher := None |} |};
     dataBlock := blockWriter_new restartInterval';
     uncompressed := [];
     compressed := [];
     dataBlockProps := [] |}.

Definition dataBlockBuf_finish (d : dataBlockBuf) : dataBlockBuf :=
  d<|uncompressed := finish (dataBlock d)|>.

Definition dataBlockBuf_compressAndChecksum (d : dataBlockBuf) (c : Compression)
  : outcome dataBlockBuf :=
  '(b, bb) <- compressAndChecksum (uncompressed d) c (dbb_blockBuf d) ;;
  Return (d<|compressed := b|><|dbb_blockBuf := bb|>).

Definition dataBlockBuf_shouldFlush (d : dataBlockBuf) (key : InternalKey)
    (valueLen : Z) (flushOptions : flushDecisionOptions) (sizeClassHints : list Z)
  : option bool :=
  shouldFlushWithHints (Size key) valueLen (restartInterval (dataBlock d))
                       (estimatedSize (dataBlock d)) (nEntries (dataBlock d))
                       flushOptions sizeClassHints.

(** Writer is a table writer.  [dataBlockBuf], [indexBlock] and [writable]
    are pointers that Close sets to nil. *)
Record Writer := {
  writable : option Writable;
  meta : WriterMetadata;
  err : option error;
  dataBlockOptions : flushDecisionOptions;
  indexBlockOptions : flushDecisionOptions;
  compression : Compression;
  tableFormat : Z;
  isStrictObsolete : bool;
  writingToLowestLevel : bool;
  writer_restartInterval : Z;
  writer_checksumType : ChecksumType;
  disableKeyOrderChecks : bool;
  twoLevelIndex : bool;
  rangeDelV1Format : bool;
  indexBlock : option indexBlockBuf;
  rangeDelBlock : blockWriter;
  rangeKeyBlock : blockWriter;
  topLevelIndexBlock : blockWriter;
  props : Properties;
  blockPropCollectors : list Collector;
  filter : option Filter;
  indexPartitions : list indexBlockAndBlockProperties;
  fragmenter : Fragmenter;
  rkBuf : bytes;
  dataBlockBuf' : option dataBlockBuf;
  writer_blockBuf : blockBuf;
  coordination : coordinationState;
  lastPointKeyInfo : pointKeyInfo;
  hasShortAttributeExtractor : bool;
  requiredInPlaceValueBound : UserKeyPrefixBound;
  valueBlockWriter : option ValueBlockWriter;
  allocatorSizeClasses : list Z
}.

(** Dereferences; a nil pointer panics. *)
Definition the_dataBlockBuf (w : Writer) : outcome dataBlockBuf :=
  match dataBlockBuf' w with Some d => Return d | None => Panic end.

Definition the_indexBlock (w : Writer) : outcome indexBlockBuf :=
  match indexBlock w with Some i => Return i | None => Panic end.

Definition the_writable (w : Writer) : outcome Writable :=
  match writable w with Some f => Return f | None => Panic end.

Definition set_dataBlock (w : Writer) (d : dataBlockBuf) (b : blockWriter) : Writer :=
  w<|dataBlockBuf' := Some (d<|dataBlock := b|>)|>.

(** The size estimate of the data written so far takes the compressed size
    of a block. *)
Definition note_dataBlockCompressed (w : Writer) (compressedSize' : Z) : Writer :=
  w<|coordination ->  coord_sizeEstimate :=
       dataBlockCompressed (coord_sizeEstimate (coordination w)) compressedSize' 0|>.

(** *** Writing blocks *)

(** [writeCompressedBlock]; the removal of the written range from the block
    cache concerns the cache alone and is left out. *)
Definition writeCompressedBlock (w : Writer) (block' blockTrailerBuf : bytes)
  : outcome (Writer * (BlockHandle * option error)) :=
  let bh := {| Offset := meta_Size (meta w); Length := len block' |} in
  (* Write the bytes to the file. *)
  f <- the_writable w ;;
  let '(f, err') := writable_Write f block' in
  let w := w<|writable := Some f|> in
  match err' with
  | Some e => Return (w, (zeroBlockHandle, Some e))
  | None =>
      let w := w<|meta -> meta_Size := wrap_uint64 (meta_Size (meta w) + len block')|> in
      let '(f, err') :=
        writable_Write f (firstn (Z.to_nat blockTrailerLen) blockTrailerBuf) in
      let w := w<|writable := Some f|> in
      match err' with
      | Some e => Return (w, (zeroBlockHandle, Some e))
      | None =>
          let w := w<|meta -> meta_Size :=
                        wrap_uint64 (meta_Size (meta w) + blockTrailerLen)|> in
          Return (w, (bh, None))
      end
  end.

(** [Write] implements io.Writer, for blocks that already incorporate the
    trailer. *)
Definition Writer_Write (w : Writer) (blockWithTrailer : bytes)
  : outcome (Writer * (Z * option error)) :=
  let w := w<|meta -> meta_Size :=
                wrap_uint64 (meta_Size (meta w) + len blockWithTrailer)|> in
  f <- the_writable w ;;
  let '(f, err') := writable_Write f blockWithTrailer in
  let w := w<|writable := Some f|> in
  match err' with
  | Some e => Return (w, (0, Some e))
  | None => Return (w, (len blockWithTrailer, None))
  end.

(** [writeBlock] with the block buffer it is given, which the caller stores
    back where it took it from. *)
Definition writeBlock (w : Writer) (b : bytes) (compression' : Compression)
    (blockBuf' : blockBuf) : outcome (Writer * (blockBuf * (BlockHandle * option error))) :=
  '(b, blockBuf') <- compressAndChecksum b compression' blockBuf' ;;
  '(w, r) <- writeCompressedBlock w b (tmp blockBuf') ;;
  Return (w, (blockBuf', r)).

(** [writeBlock] with [&w.blockBuf]. *)
Definition writeBlock_writer (w : Writer) (b : bytes) (compression' : Compression)
  : outcome (Writer * (BlockHandle * option error)) :=
  '(w, (bb, r)) <- writeBlock w b compression' (writer_blockBuf w) ;;
  Return (w<|writer_blockBuf := bb|>, r).

(** *** Block properties *)

(** The loop over the collectors shared by [finishDataBlockProps] and
    [finishIndexBlockProps]: each collector finishes into a property that is
    added under its shortID; the first error ends the loop. *)
Fixpoint finishProps_loop (finishOne : Collector -> Collector * (bytes * option error))
    (i : Z) (collectors : list Collector) (added : list (Z * bytes))
  : list Collector * (list (Z * bytes) * option error) :=
  match collectors with
  | [] => ([], (added, None))
  | c :: rest =>
      let '(c, (scratch, err')) := finishOne c in
      match err' with
      | Some e => (c :: rest, (added, Some e))
      | None =>
          let '(rest, r) := finishProps_loop finishOne (i + 1) rest (added ++ [(i, scratch)]) in
          (c :: rest, r)
      end
  end.

Definition finishDataBlockProps (w : Writer) (buf : dataBlockBuf)
  : Writer * (dataBlockBuf * option error) :=
  if len (blockPropCollectors w) =? 0 then (w, (buf, None))
  else
    let '(cs, (added, err')) :=
      finishProps_loop bpc_FinishDataBlock 0 (blockPropCollectors w) [] in
    let w := w<|blockPropCollectors := cs|> in
    match err' with
    | Some e => (w, (buf, Some e))
    | None => (w, (buf<|dataBlockProps := encodeBlockProperties added|>, None))
    end.

Definition maybeAddBlockPropertiesToBlockHandle (w : Writer) (bh : BlockHandle)
  : outcome (Writer * (BlockHandleWithProperties * option error)) :=
  d <- the_dataBlockBuf w ;;
  let '(w, (d, err')) := finishDataBlockProps w d in
  let w := w<|dataBlockBuf' := Some d|> in
  match err' with
  | Some e => Return (w, ({| bhp_BlockHandle := zeroBlockHandle; Props := [] |}, Some e))
  | None => Return (w, ({| bhp_BlockHandle := bh; Props := dataBlockProps d |}, None))
  end.

Definition finishIndexBlockProps (w : Writer) : Writer * (bytes * option error) :=
  let '(cs, (added, err')) :=
    finishProps_loop bpc_FinishIndexBlock 0 (blockPropCollectors w) [] in
  let w := w<|blockPropCollectors := cs|> in
  match err' with
  | Some e => (w, ([], Some e))
  | None => (w, (encodeBlockProperties added, None))
  end.

Definition addPrevDataBlockToIndexBlockProps (w : Writer) : Writer :=
  w<|blockPropCollectors := map bpc_AddPrevDataBlockToIndexBlock (blockPropCollectors w)|>.

(** *** Index entries *)

Definition indexEntrySep (prevKey key : InternalKey) : InternalKey :=
  if slice_is_nil (UserKey key) && (Trailer key =? 0)
  then ikSuccessor prevKey
  else ikSeparator prevKey key.

(** [cloneKeyWithBuf] copies the key into the allocator; the copy is the same
    key. *)
Definition cloneKeyWithBuf (k : InternalKey) : InternalKey := k.

(** finishIndexBlock finishes the current index block and adds it to the top
    level index block.  This is only used when two level indexes are
    enabled. *)
Definition finishIndexBlock (w : Writer) (indexBuf : indexBlockBuf) (props' : bytes)
  : Writer * option error :=
  let part := {| part_nEntries := nEntries (ib_block indexBuf);
                 sep := cloneKeyWithBuf (getCurKey (ib_block indexBuf));
                 properties := props';
                 block := indexBlockBuf_finish indexBuf |} in
  (w<|indexPartitions := indexPartitions w ++ [part]|>, None).

(** addIndexEntry adds an index entry for the specified key and block handle.
    [writeTo] is in every call the index block the writer holds, so the entry
    goes to [w.indexBlock]; [flushIndexBuf] is the index block that the
    writer has replaced, or nil. *)
Definition addIndexEntry (w : Writer) (sep' : InternalKey)
    (bhp : BlockHandleWithProperties) (flushIndexBuf : option indexBlockBuf)
    (inflightSize' : Z) (indexProps : bytes) : outcome (Writer * option error) :=
  if Length (bhp_BlockHandle bhp) =? 0 then
    (* A valid blockHandle must be non-zero.  In particular, it must have a
       non-zero length. *)
    Return (w, None)
  else
    let encoded := encodeBlockHandleWithProperties bhp in
    let '(w, err') :=
      match flushIndexBuf with
      | Some flushed =>
          (* Enable two level indexes if there is more than one index block. *)
          let w := w<|twoLevelIndex := true|> in
          finishIndexBlock w flushed indexProps
      | None => (w, None)
      end in
    match err' with
    | Some e => Return (w, Some e)
    | None =>
        writeTo <- the_indexBlock w ;;
        Return (w<|indexBlock := Some (indexBlockBuf_add writeTo sep' encoded inflightSize')|>,
                None)
    end.

Definition addIndexEntrySep (w : Writer) (sep' : InternalKey)
    (bhp : BlockHandleWithProperties) : outcome (Writer * option error) :=
  '(shouldFlush, w) <-
    (if supportsTwoLevelIndex (tableFormat w) then
       i <- the_indexBlock w ;;
       '(b, i) <- indexBlockBuf_shouldFlush i sep' encodedBHPEstimatedSize
                    (indexBlockOptions w) (allocatorSizeClasses w) ;;
       Return (b, w<|indexBlock := Some i|>)
     else Return (false, w)) ;;
  '(w, (flushableIndexBlock, (props', err'))) <-
    (if shouldFlush : bool then
       flushable <- the_indexBlock w ;;
       let w := w<|indexBlock :=
                     Some (newIndexBlockBuf (parallelismEnabled (coordination w)))|> in
       let w := w<|twoLevelIndex := true|> in
       (* Call BlockPropertyCollector.FinishIndexBlock, since we've decided to
          flush the index block. *)
       let '(w, r) := finishIndexBlockProps w in
       Return (w, (Some flushable, r))
     else Return (w, (None, ([], None)))) ;;
  match err' with
  | Some e => Return (w, Some e)
  | None =>
      '(w, err') <- addIndexEntry w sep' bhp flushableIndexBlock 0 props' ;;
      let w := addPrevDataBlockToIndexBlockProps w in
      Return (w, err')
  end.

(** addIndexEntrySync adds an index entry for the specified key and block
    handle. *)
Definition addIndexEntrySync (w : Writer) (prevKey key : InternalKey)
    (bhp : BlockHandleWithProperties) : outcome (Writer * option error) :=
  addIndexEntrySep w (indexEntrySep prevKey key) bhp.

(** *** The write queue *)

Record writeTask := {
  task_buf : dataBlockBuf;
  task_indexEntrySep : InternalKey;
  task_indexInflightSize : Z;
  task_finishedIndexProps : bytes;
  task_flushableIndexBlock : option indexBlockBuf
}.

(** Modelled from the spec: the write queue (write_queue.go) is absent from
    src.  For each task the consumer writes the compressed block and its
    trailer to the sink, obtaining offset = current file size, builds a
    BlockHandleWithProperties and calls addIndexEntry on the current index
    buffer (first finishing the closed index partition the task may carry);
    the first error is latched and later tasks are not performed.  Without
    parallelism the queue is this synchronous invocation. *)
Definition writeQueue_performWrite (w : Writer) (task : writeTask)
  : outcome (Writer * option error) :=
  '(w, (bh, err')) <- writeCompressedBlock w (compressed (task_buf task))
                                           (tmp (dbb_blockBuf (task_buf task))) ;;
  match err' with
  | Some e => Return (w, Some e)
  | None =>
      let bhp := {| bhp_BlockHandle := bh; Props := dataBlockProps (task_buf task) |} in
      addIndexEntry w (task_indexEntrySep task) bhp (task_flushableIndexBlock task)
                    (task_indexInflightSize task) (task_finishedIndexProps task)
  end.

Definition writeQueue_addSync (w : Writer) (task : writeTask)
  : outcome (Writer * option error) :=
  match writeQueue_err (coordination w) with
  | Some e => Return (w, Some e)
  | None =>
      '(w, err') <- writeQueue_performWrite w task ;;
      Return (w<|coordination -> writeQueue_err := err'|>, err')
  end.

(** Modelled from the spec: with parallelism the task is queued and the
    caller does not see its error before [finish]; the model performs the
    task at once, which is the order the queue keeps. *)
Definition writeQueue_add (w : Writer) (task : writeTask) : outcome Writer :=
  '(w, _) <- writeQueue_addSync w task ;;
  Return w.

Definition writeQueue_finish (w : Writer) : option error :=
  writeQueue_err (coordination w).

(** *** Flushing a data block *)

Definition flush (w : Writer) (key : InternalKey) : outcome (Writer * option error) :=
  (* We're finishing a data block. *)
  d <- the_dataBlockBuf w ;;
  let '(w, (d, err')) := finishDataBlockProps w d in
  let w := w<|dataBlockBuf' := Some d|> in
  match err' with
  | Some e => Return (w, Some e)
  | None =>
      let d := dataBlockBuf_finish d in
      d <- dataBlockBuf_compressAndChecksum d (compression w) ;;
      let w := w<|dataBlockBuf' := Some d|> in
      (* Since dataBlockEstimates.addInflightDataBlock was never called, the
         inflightSize is set to 0. *)
      let w := note_dataBlockCompressed w (len (compressed d)) in
      (* Determine if the index block should be flushed. *)
      let prevKey := getCurKey (dataBlock d) in
      let sep' := indexEntrySep prevKey key in
      '(shouldFlushIndexBlock, w) <-
        (if supportsTwoLevelIndex (tableFormat w) then
           i <- the_indexBlock w ;;
           '(b, i) <- indexBlockBuf_shouldFlush i sep' encodedBHPEstimatedSize
                        (indexBlockOptions w) (allocatorSizeClasses w) ;;
           Return (b, w<|indexBlock := Some i|>)
         else Return (false, w)) ;;
      '(w, (flushableIndexBlock, (indexProps, err'))) <-
        (if shouldFlushIndexBlock : bool then
           flushable <- the_indexBlock w ;;
           let w := w<|indexBlock :=
                         Some (newIndexBlockBuf (parallelismEnabled (coordination w)))|> in
           (* Call BlockPropertyCollector.FinishIndexBlock, since we've
              decided to flush the index block. *)
           let '(w, r) := finishIndexBlockProps w in
           Return (w, (Some flushable, r))
         else Return (w, (None, ([], None)))) ;;
      match err' with
      | Some e => Return (w, Some e)
      | None =>
          let w := addPrevDataBlockToIndexBlockProps w in
          (* Schedule a write. *)
          let task := {| task_buf := d;
                         task_indexEntrySep := sep';
                         task_indexInflightSize := wrap_int (Size sep' + encodedBHPEstimatedSize);
                         task_finishedIndexProps := indexProps;
                         task_flushableIndexBlock := flushableIndexBlock |} in
          (* The writeTask corresponds to an unwritten index entry. *)
          i <- the_indexBlock w ;;
          let w := w<|indexBlock :=
                        Some (indexBlockBuf_addInflight i (task_indexInflightSize task))|> in
          let w := w<|dataBlockBuf' := None|> in
          '(w, err') <-
            (if parallelismEnabled (coordination w) then
               w <- writeQueue_add w task ;; Return (w, None)
             else writeQueue_addSync w task) ;;
          let w := w<|dataBlockBuf' :=
                        Some (newDataBlockBuf (writer_restartInterval w)
                                              (writer_checksumType w))|> in
          Return (w, err')
      end
  end.

Definition maybeFlush (w : Writer) (key : InternalKey) (valueLen : Z)
  : outcome (Writer * option error) :=
  d <- the_dataBlockBuf w ;;
  match dataBlockBuf_shouldFlush d key valueLen (dataBlockOptions w)
                                 (allocatorSizeClasses w) with
  | None => Panic
  | Some false => Return (w, None)
  | Some true =>
      '(w, err') <- flush w key ;;
      match err' with
      | Some e => Return (w<|err := Some e|>, Some e)
      | None => Return (w, None)
      end
  end.

(** *** Point keys *)

Definition makeAddPointDecisionV2 (w : Writer) (key : InternalKey)
  : outcome (Writer * option error) :=
  let prevTrailer := trailer (lastPointKeyInfo w) in
  let w := w<|lastPointKeyInfo -> trailer := Trailer key|> in
  d <- the_dataBlockBuf w ;;
  if nEntries (dataBlock d) =? 0 then Return (w, None)
  else if negb (disableKeyOrderChecks w) then
    let prevPointUserKey := getCurUserKey (dataBlock d) in
    let cmpUser := compare prevPointUserKey (slice_bytes (UserKey key)) in
    if (0 <? cmpUser) || ((cmpUser =? 0) && (prevTrailer <=? Trailer key)) then
      Return (w, Some (errKeysStrictlyIncreasing
                         {| UserKey := Some prevPointUserKey; Trailer := prevTrailer |}
                         key))
    else Return (w, None)
  else Return (w, None).

(** REQUIRES: at least one point has been written to the Writer. *)
Definition getLastPointUserKey (w : Writer) : outcome bytes :=
  d <- the_dataBlockBuf w ;;
  if nEntries (dataBlock d) =? 0 then Panic (* no point keys added to writer *)
  else Return (getCurUserKey (dataBlock d)).

(** REQUIRES: w.tableFormat >= TableFormatPebblev3.  The results are
    [(setHasSamePrefix, writeToValueBlock, isObsolete, err)]. *)
Definition makeAddPointDecisionV3 (w : Writer) (key : InternalKey) (valueLen : Z)
  : outcome (Writer * (bool * bool * bool * option error)) :=
  let prevPointKeyInfo := lastPointKeyInfo w in
  let keyUserKey := slice_bytes (UserKey key) in
  let w := w<|lastPointKeyInfo -> userKeyLen := len keyUserKey|> in
  let w := w<|lastPointKeyInfo -> prefixLen := split keyUserKey|> in
  let w := w<|lastPointKeyInfo -> trailer := Trailer key|> in
  let w := w<|lastPointKeyInfo -> isObsolete := false|> in
  if negb (HasPointKeys (meta w)) then Return (w, (false, false, false, None))
  else
    let keyKind := TrailerKind (Trailer key) in
    prevPointUserKey <- getLastPointUserKey w ;;
    let prevPointKey :=
      {| UserKey := Some prevPointUserKey; Trailer := trailer prevPointKeyInfo |} in
    let prevKeyKind := TrailerKind (trailer prevPointKeyInfo) in
    let considerWriteToValueBlock :=
      (prevKeyKind =? InternalKeyKindSet) && (keyKind =? InternalKeyKindSet) in
    '(w, considerWriteToValueBlock) <-
      (if considerWriteToValueBlock
          && negb (UserKeyPrefixBound_IsEmpty (requiredInPlaceValueBound w)) then
         keyPrefix <- slice_to keyUserKey (prefixLen (lastPointKeyInfo w)) ;;
         let cmpUpper := compare (Upper (requiredInPlaceValueBound w)) keyPrefix in
         if cmpUpper <=? 0 then
           (* Common case for CockroachDB.  Make it empty since all future
              keys in this sstable will also have cmpUpper <= 0. *)
           Return (w<|requiredInPlaceValueBound := UserKeyPrefixBound_zero|>,
                   considerWriteToValueBlock)
         else if 0 <=? compare keyPrefix (Lower (requiredInPlaceValueBound w)) then
           Return (w, false)
         else Return (w, considerWriteToValueBlock)
       else Return (w, considerWriteToValueBlock)) ;;
    (* cmpPrefix is initialized iff considerWriteToValueBlock. *)
    '(cmpPrefix, cmpUser) <-
      (if considerWriteToValueBlock : bool then
         (* Compare the prefixes. *)
         prevPrefix <- slice_to prevPointUserKey (prefixLen prevPointKeyInfo) ;;
         keyPrefix <- slice_to keyUserKey (prefixLen (lastPointKeyInfo w)) ;;
         let cmpPrefix := compare prevPrefix keyPrefix in
         if cmpPrefix =? 0 then
           (* Need to compare suffixes to compute cmpUser. *)
           prevSuffix <- slice_from prevPointUserKey (prefixLen prevPointKeyInfo) ;;
           keySuffix <- slice_from keyUserKey (prefixLen (lastPointKeyInfo w)) ;;
           Return (cmpPrefix, compare prevSuffix keySuffix)
         else Return (cmpPrefix, cmpPrefix)
       else Return (0, compare prevPointUserKey keyUserKey)) ;;
    (* Ensure that no one adds a point key kind without considering the
       obsolete handling for that kind. *)
    if negb ((keyKind =? InternalKeyKindSet) || (keyKind =? InternalKeyKindSetWithDelete)
             || (keyKind =? InternalKeyKindMerge) || (keyKind =? InternalKeyKindDelete)
             || (keyKind =? InternalKeyKindSingleDelete)
             || (keyKind =? InternalKeyKindDeleteSized))
    then Panic (* unexpected key kind *)
    else
      let isObsoleteC1AndC2 :=
        (cmpUser =? 0)
        && (isObsolete prevPointKeyInfo || negb (prevKeyKind =? InternalKeyKindMerge)) in
      let isObsoleteC3 :=
        writingToLowestLevel w
        && ((keyKind =? InternalKeyKindDelete) || (keyKind =? InternalKeyKindSingleDelete)
            || (keyKind =? InternalKeyKindDeleteSized)) in
      let isObsolete' := isObsoleteC1AndC2 || isObsoleteC3 in
      if negb (disableKeyOrderChecks w)
         && ((0 <? cmpUser)
             || ((cmpUser =? 0) && (trailer prevPointKeyInfo <=? Trailer key)))
      then
        Return (w, (false, false, false,
                    Some (errKeysStrictlyIncreasing prevPointKey key)))
      else if negb considerWriteToValueBlock then
        Return (w, (false, false, isObsolete', None))
      else
        (* NB: it is possible that cmpUser == 0, i.e., these two SETs have
           identical user keys (because of an open snapshot). *)
        let setHasSamePrefix := cmpPrefix =? 0 in
        let tinyValueThreshold := 0 in
        let considerWriteToValueBlock :=
          setHasSamePrefix && (tinyValueThreshold <? valueLen)
          && (match valueBlockWriter w with Some _ => true | None => false end) in
        Return (w, (setHasSamePrefix, considerWriteToValueBlock, isObsolete', None)).

(** The loop of [addPoint] over the collectors: the first error ends it. *)
Fixpoint collectors_Add (collectors : list Collector) (key : InternalKey) (v : slice)
  : list Collector * option error :=
  match collectors with
  | [] => ([], None)
  | c :: rest =>
      let '(c, err') := bpc_Add c key v in
      match err' with
      | Some e => (c :: rest, Some e)
      | None =>
          let '(rest, err') := collectors_Add rest key v in
          (c :: rest, err')
      end
  end.

Definition maybeAddToFilter (w : Writer) (key : bytes) : outcome Writer :=
  match filter w with
  | Some f =>
      prefix <- slice_to key (split key) ;;
      Return (w<|filter := Some (filter_addKey f prefix)|>)
  | None => Return w
  end.

Definition addPoint (w : Writer) (key : InternalKey) (value : bytes)
    (forceObsolete : bool) : outcome (Writer * option error) :=
  if isStrictObsolete w && (Kind key =? InternalKeyKindMerge) then
    Return (w, Some errMergeInStrictObsolete)
  else
    let keyUserKey := slice_bytes (UserKey key) in
    '(w, (maxSharedKeyLen, setHasSameKeyPrefix, writeToValueBlock, isObsolete',
          addPrefixToValueStoredWithKey, err')) <-
      (if TableFormatPebblev3 <=? tableFormat w then
         (* maxSharedKeyLen is limited to the prefix of the preceding key. *)
         let maxSharedKeyLen := prefixLen (lastPointKeyInfo w) in
         '(w, (setHasSameKeyPrefix, writeToValueBlock, isObsolete', err')) <-
           makeAddPointDecisionV3 w key (len value) ;;
         Return (w, (maxSharedKeyLen, setHasSameKeyPrefix, writeToValueBlock,
                     isObsolete', TrailerKind (Trailer key) =? InternalKeyKindSet, err'))
       else
         '(w, err') <- makeAddPointDecisionV2 w key ;;
         Return (w, (len keyUserKey, false, false, false, false, err'))) ;;
    match err' with
    | Some e => Return (w, Some e)
    | None =>
        let isObsolete' :=
          (TableFormatPebblev4 <=? tableFormat w) && (isObsolete' || forceObsolete) in
        let w := w<|lastPointKeyInfo -> isObsolete := isObsolete'|> in
        '(w, (valueStoredWithKey, valueStoredWithKeyLen, prefix, err')) <-
          (if writeToValueBlock : bool then
             match valueBlockWriter w with
             | None => Panic
             | Some vbw =>
                 let '(vbw, (flushed, (vh, err'))) := vbw_addValue vbw value in
                 let w := w<|valueBlockWriter := Some vbw|> in
                 let w := fold_left note_dataBlockCompressed flushed w in
                 match err' with
                 | Some e => Return (w, ([], 0, Byte.x00, Some e))
                 | None =>
                     let w := w<|writer_blockBuf -> tmp :=
                                   vh ++ skipn (length vh) (tmp (writer_blockBuf w))|> in
                     let valueStoredWithKey := vh in
                     let valueStoredWithKeyLen := len valueStoredWithKey + 1 in
                     let '(attribute, err') :=
                       if hasShortAttributeExtractor w then
                         shortAttributeExtractor keyUserKey
                                                 (prefixLen (lastPointKeyInfo w)) value
                       else (0, None) in
                     match err' with
                     | Some e => Return (w, ([], 0, Byte.x00, Some e))
                     | None =>
                         Return (w, (valueStoredWithKey, valueStoredWithKeyLen,
                                     makePrefixForValueHandle setHasSameKeyPrefix attribute,
                                     None))
                     end
                 end
             end
           else
             let valueStoredWithKeyLen :=
               if addPrefixToValueStoredWithKey : bool then len value + 1 else len value in
             Return (w, (value, valueStoredWithKeyLen,
                         makePrefixForInPlaceValue setHasSameKeyPrefix, None))) ;;
        match err' with
        | Some e => Return (w, Some e)
        | None =>
            '(w, err') <- maybeFlush w key valueStoredWithKeyLen ;;
            match err' with
            | Some e => Return (w, Some e)
            | None =>
                (* Values for SET are not required to be in-place, so the
                   collectors are passed nil values. *)
                let v := if addPrefixToValueStoredWithKey : bool then None else Some value in
                let '(cs, err') := collectors_Add (blockPropCollectors w) key v in
                let w := w<|blockPropCollectors := cs|> in
                match err' with
                | Some e => Return (w<|err := Some e|>, Some e)
                | None =>
                    let w :=
                      if TableFormatPebblev4 <=? tableFormat w then
                        w<|blockPropCollectors :=
                             update_last (fun c => obsolete_AddPoint c isObsolete')
                                         (blockPropCollectors w)|>
                      else w in
                    w <- maybeAddToFilter w keyUserKey ;;
                    d <- the_dataBlockBuf w ;;
                    let w := set_dataBlock w d
                               (addWithOptionalValuePrefix
                                  (dataBlock d) key isObsolete' valueStoredWithKey
                                  maxSharedKeyLen addPrefixToValueStoredWithKey prefix
                                  setHasSameKeyPrefix) in
                    let w := w<|meta := updateSeqNum (meta w) (SeqNum key)|> in
                    d <- the_dataBlockBuf w ;;
                    let w :=
                      if negb (HasPointKeys (meta w)) then
                        let k := getCurKey (dataBlock d) in
                        w<|meta := SetSmallestPointKey (meta w) (Clone k)|>
                      else w in
                    let w := w<|props := prop_add (props w) NumEntries 1|> in
                    '(w, err') <-
                      (if (Kind key =? InternalKeyKindDelete)
                          || (Kind key =? InternalKeyKindSingleDelete) then
                         let w := w<|props := prop_add (props w) NumDeletions 1|> in
                         Return (w<|props := prop_add (props w) RawPointTombstoneKeySize
                                                      (len keyUserKey)|>, None)
                       else if Kind key =? InternalKeyKindDeleteSized then
                         let '(size, n) := if 0 <? len value then Uvarint value else (0, 1) in
                         if (0 <? len value) && (n <=? 0) then
                           Return (w<|err := Some errDeleteSizedValue|>,
                                   Some errDeleteSizedValue)
                         else
                           let w := w<|props := prop_add (props w) NumDeletions 1|> in
                           let w := w<|props := prop_add (props w) NumSizedDeletions 1|> in
                           let w := w<|props := prop_add (props w) RawPointTombstoneKeySize
                                                         (len keyUserKey)|> in
                           Return (w<|props := prop_add (props w) RawPointTombstoneValueSize
                                                        size|>, None)
                       else if Kind key =? InternalKeyKindMerge then
                         Return (w<|props := prop_add (props w) NumMergeOperands 1|>, None)
                       else Return (w, None)) ;;
                    match err' with
                    | Some e => Return (w, Some e)
                    | None =>
                        let w := w<|props := prop_add (props w) RawKeySize (Size key)|> in
                        let w := w<|props := prop_add (props w) RawValueSize (len value)|> in
                        Return (w, None)
                    end
                end
            end
        end
    end.

(** *** Range deletions *)

Definition addTombstone (w : Writer) (key : InternalKey) (value : bytes)
  : Writer * option error :=
  let orderError : option error :=
    if negb (disableKeyOrderChecks w) && negb (rangeDelV1Format w)
       && (0 <? nEntries (rangeDelBlock w)) then
      (* Check that tombstones are being added in fragmented order.  If the
         two tombstones overlap, their start and end keys must be identical. *)
      let prevKey := getCurKey (rangeDelBlock w) in
      let c := compare (slice_bytes (UserKey prevKey)) (slice_bytes (UserKey key)) in
      if 0 <? c then Some (errKeysInOrder prevKey key)
      else if c =? 0 then
        let prevValue := curValue (rangeDelBlock w) in
        if negb (compare prevValue value =? 0) then Some errOverlappingTombstones
        else if SeqNum prevKey <=? SeqNum key then
          Some (errKeysStrictlyIncreasing prevKey key)
        else None
      else
        let prevValue := curValue (rangeDelBlock w) in
        if 0 <? compare prevValue (slice_bytes (UserKey key))
        then Some errOverlappingTombstones
        else None
    else None in
  match orderError with
  | Some e => (w<|err := Some e|>, Some e)
  | None =>
      if Trailer key =? InternalKeyRangeDeleteSentinel then
        (w<|err := Some errRangeDeleteSentinel|>, Some errRangeDeleteSentinel)
      else
        let w := w<|meta := updateSeqNum (meta w) (SeqNum key)|> in
        let w :=
          if rangeDelV1Format w then
            (* Range tombstones are not fragmented in the v1 range deletion
               block format, so we need to track the largest range tombstone
               end key as every range tombstone is added. *)
            if num (props w) NumRangeDeletions =? 0 then
              let w := w<|meta := SetSmallestRangeDelKey (meta w) (Clone key)|> in
              w<|meta := SetLargestRangeDelKey
                           (meta w) (Clone (MakeRangeDeleteSentinelKey value))|>
            else
              let w :=
                if 0 <? InternalCompare compare (SmallestRangeDel (meta w)) key
                then w<|meta := SetSmallestRangeDelKey (meta w) (Clone key)|>
                else w in
              let end' := MakeRangeDeleteSentinelKey value in
              if InternalCompare compare (LargestRangeDel (meta w)) end' <? 0
              then w<|meta := SetLargestRangeDelKey (meta w) (Clone end')|>
              else w
          else
            (* Range tombstones are fragmented in the v2 range deletion block
               format, so the start key of the first range tombstone added
               will be the smallest range tombstone key. *)
            if num (props w) NumRangeDeletions =? 0
            then w<|meta := SetSmallestRangeDelKey (meta w) (Clone key)|>
            else w in
        let w := w<|props := prop_add (props w) NumEntries 1|> in
        let w := w<|props := prop_add (props w) NumDeletions 1|> in
        let w := w<|props := prop_add (props w) NumRangeDeletions 1|> in
        let w := w<|props := prop_add (props w) RawKeySize (Size key)|> in
        let w := w<|props := prop_add (props w) RawValueSize (len value)|> in
        let w := w<|rangeDelBlock := blockWriter_add (rangeDelBlock w) key value|> in
        (w, None)
  end.

(** *** The producer API for point keys and range deletions *)

(** Set sets the value for the given key.  The sequence number is set to 0. *)
Definition Set' (w : Writer) (key : slice) (value : bytes)
  : outcome (Writer * option error) :=
  match err w with
  | Some e => Return (w, Some e)
  | None =>
      if isStrictObsolete w then Return (w, Some errUseAddWithForceObsolete)
      else addPoint w (MakeInternalKey key 0 InternalKeyKindSet) value false
  end.

(** Delete deletes the value for the given key. *)
Definition Delete (w : Writer) (key : slice) : outcome (Writer * option error) :=
  match err w with
  | Some e => Return (w, Some e)
  | None =>
      if isStrictObsolete w then Return (w, Some errUseAddWithForceObsolete)
      else addPoint w (MakeInternalKey key 0 InternalKeyKindDelete) [] false
  end.

(** DeleteRange deletes all of the keys (and values) in the range
    [[start,end)]. *)
Definition DeleteRange (w : Writer) (start : slice) (end' : bytes)
  : outcome (Writer * option error) :=
  match err w with
  | Some e => Return (w, Some e)
  | None => Return (addTombstone w (MakeInternalKey start 0 InternalKeyKindRangeDelete) end')
  end.

(** Merge adds an action to the DB that merges the value at key with the new
    value. *)
Definition Merge (w : Writer) (key : slice) (value : bytes)
  : outcome (Writer * option error) :=
  match err w with
  | Some e => Return (w, Some e)
  | None =>
      if isStrictObsolete w then Return (w, Some errUseAddWithForceObsolete)
      else addPoint w (MakeInternalKey key 0 InternalKeyKindMerge) value false
  end.

(** AddWithForceObsolete must be used when writing a strict-obsolete
    sstable. *)
Definition AddWithForceObsolete (w : Writer) (key : InternalKey) (value : bytes)
    (forceObsolete : bool) : outcome (Writer * option error) :=
  match err w with
  | Some e => Return (w, Some e)
  | None =>
      if Kind key =? InternalKeyKindRangeDelete then Return (addTombstone w key value)
      else if (Kind key =? InternalKeyKindRangeKeyDelete)
              || (Kind key =? InternalKeyKindRangeKeySet)
              || (Kind key =? InternalKeyKindRangeKeyUnset) then
        Return (w<|err := Some errRangeKeysMisrouted|>, Some errRangeKeysMisrouted)
      else addPoint w key value forceObsolete
  end.

(** Add adds a key/value pair to the table being written. *)
Definition Add (w : Writer) (key : InternalKey) (value : bytes)
  : outcome (Writer * option error) :=
  if isStrictObsolete w then Return (w, Some errUseAddWithForceObsolete)
  else AddWithForceObsolete w key value false.

(** *** Range keys *)

Definition addRangeKey (w : Writer) (key : InternalKey) (value : bytes)
  : outcome (Writer * option error) :=
  '(w, err') <-
    (if negb (disableKeyOrderChecks w) && (0 <? nEntries (rangeKeyBlock w)) then
       let prevStartKey := getCurKey (rangeKeyBlock w) in
       match DecodeEndKey (Kind prevStartKey) (curValue (rangeKeyBlock w)) with
       | None => Panic (* invalid end key for span *)
       | Some prevEndKey =>
           let curStartKey := key in
           match DecodeEndKey (Kind curStartKey) value with
           | None => Return (w<|err := Some errInvalidEndKey|>, Some errInvalidEndKey)
           | Some curEndKey =>
               (* Start keys must be strictly increasing. *)
               if 0 <=? InternalCompare compare prevStartKey curStartKey then
                 Return (w<|err := Some errRangeKeyStartsInOrder|>,
                         Some errRangeKeyStartsInOrder)
               else if compare (slice_bytes (UserKey prevStartKey))
                               (slice_bytes (UserKey curStartKey)) =? 0 then
                 (* If the start user keys are equal, the end keys must be
                    equal (i.e. aligned spans). *)
                 if negb (compare prevEndKey curEndKey =? 0) then
                   Return (w<|err := Some errOverlappingRangeKeys|>,
                           Some errOverlappingRangeKeys)
                 else Return (w, None)
               else if 0 <? compare prevEndKey (slice_bytes (UserKey curStartKey)) then
                 (* If the start user keys are NOT equal, the spans must be
                    disjoint (i.e. no overlap). *)
                 Return (w<|err := Some errOverlappingRangeKeys|>,
                         Some errOverlappingRangeKeys)
               else Return (w, None)
           end
       end
     else Return (w, None)) ;;
  match err' with
  | Some e => Return (w, Some e)
  | None =>
      let w := w<|meta := updateSeqNum (meta w) (SeqNum key)|> in
      let w :=
        if NumRangeKeys (props w) =? 0
        then w<|meta := SetSmallestRangeKey (meta w) (Clone key)|>
        else w in
      (* Update block properties. *)
      let w := w<|props := prop_add (props w) RawRangeKeyKeySize (Size key)|> in
      let w := w<|props := prop_add (props w) RawRangeKeyValueSize (len value)|> in
      w <-
        (if Kind key =? InternalKeyKindRangeKeyDelete then
           Return (w<|props := prop_add (props w) NumRangeKeyDels 1|>)
         else if Kind key =? InternalKeyKindRangeKeySet then
           Return (w<|props := prop_add (props w) NumRangeKeySets 1|>)
         else if Kind key =? InternalKeyKindRangeKeyUnset then
           Return (w<|props := prop_add (props w) NumRangeKeyUnsets 1|>)
         else Panic (* invalid range key type *)) ;;
      let '(cs, err') := collectors_Add (blockPropCollectors w) key (Some value) in
      let w := w<|blockPropCollectors := cs|> in
      match err' with
      | Some e => Return (w, Some e)
      | None =>
          (* Add the key to the block. *)
          Return (w<|rangeKeyBlock := blockWriter_add (rangeKeyBlock w) key value|>, None)
      end
  end.

(** AddRangeKey adds a range key set, unset, or delete key/value pair to the
    table being written. *)
Definition AddRangeKey (w : Writer) (key : InternalKey) (value : bytes)
  : outcome (Writer * option error) :=
  match err w with
  | Some e => Return (w, Some e)
  | None => addRangeKey w key value
  end.

(** Modelled from the spec: the range-key encoder (internal/rangekey) is
    absent from src; its emitter is the stored function addRangeKey.  The
    pairs the encoder makes of a span go to addRangeKey in order, and the
    first error ends the encoding and is returned. *)
Fixpoint rangeKeyEncoder_emit (w : Writer) (pairs : list (InternalKey * bytes))
  : outcome (Writer * option error) :=
  match pairs with
  | [] => Return (w, None)
  | (k, v) :: rest =>
      '(w, err') <- addRangeKey w k v ;;
      match err' with
      | Some e => Return (w, Some e)
      | None => rangeKeyEncoder_emit w rest
      end
  end.

(** This method is the emit function of the Fragmenter. *)
Definition encodeRangeKeySpan (w : Writer) (span : Span) : outcome Writer :=
  (* Sort the keys by suffix. *)
  let rangeKeySpan := span<|Keys := sortKeysBySuffix compare (Keys span)|> in
  '(w, err') <- rangeKeyEncoder_emit w (rangekey_Encode rangeKeySpan) ;;
  Return (w<|err := firstError (err w) err'|>).

Fixpoint emitSpans (w : Writer) (spans : list Span) : outcome Writer :=
  match spans with
  | [] => Return w
  | s :: rest => w <- encodeRangeKeySpan w s ;; emitSpans w rest
  end.

(** tempRangeKeyCopy returns a copy of the provided slice, stored in the
    Writer's range key buffer. *)
Definition tempRangeKeyCopy (w : Writer) (k : bytes) : Writer * slice :=
  if len k =? 0 then (w, None)
  else (w<|rkBuf := rkBuf w ++ k|>, Some k).

Definition addRangeKeySpan (w : Writer) (span : Span) : outcome (Writer * option error) :=
  if 0 <=? compare (slice_bytes (Start span)) (slice_bytes (End span)) then
    Return (w, Some errStartNotBeforeEnd)
  else if negb (slice_is_nil (fragmenter_Start (fragmenter w)))
          && (0 <? compare (slice_bytes (fragmenter_Start (fragmenter w)))
                           (slice_bytes (Start span))) then
    Return (w, Some errSpansInOrder)
  else
    (* Add this span to the fragmenter. *)
    let '(f, emitted) := fragmenter_Add (fragmenter w) span in
    w <- emitSpans (w<|fragmenter := f|>) emitted ;;
    Return (w, err w).

(** RangeKeySet sets a range between start (inclusive) and end (exclusive)
    with the given suffix to the given value. *)
Definition RangeKeySet (w : Writer) (start end' suffix value : bytes)
  : outcome (Writer * option error) :=
  let '(w, start') := tempRangeKeyCopy w start in
  let '(w, end'') := tempRangeKeyCopy w end' in
  let '(w, suffix') := tempRangeKeyCopy w suffix in
  let '(w, value') := tempRangeKeyCopy w value in
  addRangeKeySpan w
    {| Start := start'; End := end'';
       Keys := [{| Key_Trailer := MakeTrailer 0 InternalKeyKindRangeKeySet;
                   Suffix := suffix'; Value := value' |}] |}.

(** RangeKeyUnset un-sets a range between start (inclusive) and end
    (exclusive) with the given suffix. *)
Definition RangeKeyUnset (w : Writer) (start end' suffix : bytes)
  : outcome (Writer * option error) :=
  let '(w, start') := tempRangeKeyCopy w start in
  let '(w, end'') := tempRangeKeyCopy w end' in
  let '(w, suffix') := tempRangeKeyCopy w suffix in
  addRangeKeySpan w
    {| Start := start'; End := end'';
       Keys := [{| Key_Trailer := MakeTrailer 0 InternalKeyKindRangeKeyUnset;
                   Suffix := suffix'; Value := None |}] |}.

(** RangeKeyDelete deletes a range between start (inclusive) and end
    (exclusive). *)
Definition RangeKeyDelete (w : Writer) (start end' : bytes)
  : outcome (Writer * option error) :=
  let '(w, start') := tempRangeKeyCopy w start in
  let '(w, end'') := tempRangeKeyCopy w end' in
  addRangeKeySpan w
    {| Start := start'; End := end'';
       Keys := [{| Key_Trailer := MakeTrailer 0 InternalKeyKindRangeKeyDelete;
                   Suffix := None; Value := None |}] |}.

(** *** Close *)

(** assertFormatCompatibility ensures that the features present on the table
    are compatible with the table format version. *)
Definition assertFormatCompatibility (w : Writer) : option error :=
  (* PebbleDBv1: block properties. *)
  if (0 <? len (blockPropCollectors w)) && (tableFormat w <? TableFormatPebblev1) then
    Some (errFormatTooOld TableFormatPebblev1)
  (* PebbleDBv2: range keys. *)
  else if (0 <? NumRangeKeys (props w)) && (tableFormat w <? TableFormatPebblev2) then
    Some (errFormatTooOld TableFormatPebblev2)
  (* PebbleDBv3: value blocks. *)
  else if ((0 <? num (props w) NumValueBlocks)
           || (0 <? num (props w) NumValuesInValueBlocks)
           || (0 <? num (props w) ValueBlocksSize))
          && (tableFormat w <? TableFormatPebblev3) then
    Some (errFormatTooOld TableFormatPebblev3)
  (* PebbleDBv4: DELSIZED tombstones. *)
  else if (0 <? num (props w) NumSizedDeletions) && (tableFormat w <? TableFormatPebblev4) then
    Some (errFormatTooOld TableFormatPebblev4)
  else None.

(** The loop of [writeTwoLevelIndex] over the index partitions. *)
Fixpoint writeIndexPartitions (w : Writer) (parts : list indexBlockAndBlockProperties)
  : outcome (Writer * option error) :=
  match parts with
  | [] => Return (w, None)
  | b :: rest =>
      let w := w<|props := prop_add (props w) NumDataBlocks (wrap_uint64 (part_nEntries b))|> in
      let data := block b in
      let w := w<|props := prop_add (props w) IndexSize (len data)|> in
      '(w, (bh, err')) <- writeBlock_writer w data (compression w) ;;
      match err' with
      | Some e => Return (w, Some e)
      | None =>
          let bhp := {| bhp_BlockHandle := bh; Props := properties b |} in
          let encoded := encodeBlockHandleWithProperties bhp in
          let w := w<|topLevelIndexBlock :=
                        blockWriter_add (topLevelIndexBlock w) (sep b) encoded|> in
          writeIndexPartitions w rest
      end
  end.

Definition writeTwoLevelIndex (w : Writer)
  : outcome (Writer * (BlockHandle * option error)) :=
  let '(w, (props', err')) := finishIndexBlockProps w in
  match err' with
  | Some e => Return (w, (zeroBlockHandle, Some e))
  | None =>
      (* Add the final unfinished index. *)
      i <- the_indexBlock w ;;
      let '(w, err') := finishIndexBlock w i props' in
      match err' with
      | Some e => Return (w, (zeroBlockHandle, Some e))
      | None =>
          '(w, err') <- writeIndexPartitions w (indexPartitions w) ;;
          match err' with
          | Some e => Return (w, (zeroBlockHandle, Some e))
          | None =>
              let w := w<|props := prop_set (props w) IndexPartitions
                                            (len (indexPartitions w))|> in
              let w := w<|props := prop_set (props w) TopLevelIndexSize
                                     (wrap_uint64 (estimatedSize (topLevelIndexBlock w)))|> in
              let w := w<|props := prop_add (props w) IndexSize
                                     (num (props w) TopLevelIndexSize + blockTrailerLen)|> in
              writeBlock_writer w (finish (topLevelIndexBlock w)) (compression w)
          end
      end
  end.

(** The blocks the value-block writer writes when it finishes go through
    [Writer.Write]; the first failed write ends them. *)
Fixpoint writeValueBlocks (w : Writer) (blocks : list bytes)
  : outcome (Writer * option error) :=
  match blocks with
  | [] => Return (w, None)
  | b :: rest =>
      '(w, (_, err')) <- Writer_Write w b ;;
      match err' with
      | Some e => Return (w, Some e)
      | None => writeValueBlocks w rest
      end
  end.

(** Close, first part: the last data block and its index entry. *)
Definition Close_dataBlock (w : Writer) : outcome (Writer * option error) :=
  d <- the_dataBlockBuf w ;;
  let w :=
    if 1 <=? nEntries (dataBlock d)
    then w<|meta := SetLargestPointKey (meta w) (Clone (getCurKey (dataBlock d)))|>
    else w in
  i <- the_indexBlock w ;;
  (* Finish the last data block, or force an empty data block if there
     aren't any data blocks at all. *)
  '(w, err') <-
    (if (0 <? nEntries (dataBlock d)) || (nEntries (ib_block i) =? 0) then
       '(w, (bb, (bh, err'))) <-
         writeBlock w (finish (dataBlock d)) (compression w) (dbb_blockBuf d) ;;
       let w := w<|dataBlockBuf' := Some (d<|dbb_blockBuf := bb|>)|> in
       match err' with
       | Some e => Return (w, Some e)
       | None =>
           '(w, (bhp, err')) <- maybeAddBlockPropertiesToBlockHandle w bh ;;
           match err' with
           | Some e => Return (w, Some e)
           | None =>
               let prevKey := getCurKey (dataBlock d) in
               addIndexEntrySync w prevKey zeroInternalKey bhp
           end
       end
     else Return (w, None)) ;;
  match err' with
  | Some e => Return (w, Some e)
  | None => Return (w<|props := prop_set (props w) DataSize (meta_Size (meta w))|>, None)
  end.

(** Close, second part: the filter block. *)
Definition Close_filter (w : Writer) (metaindex : list (metaName * bytes))
  : outcome (Writer * (list (metaName * bytes) * option error)) :=
  match filter w with
  | Some f =>
      let '(f, (b, err')) := filter_finish f in
      let w := w<|filter := Some f|> in
      match err' with
      | Some e => Return (w, (metaindex, Some e))
      | None =>
          '(w, (bh, err')) <- writeBlock_writer w b NoCompression ;;
          match err' with
          | Some e => Return (w, (metaindex, Some e))
          | None =>
              Return (w<|props := prop_set (props w) FilterSize (Length bh)|>,
                      (metaindex ++ [(metaFilterName, encodeBlockHandle bh)], None))
          end
      end
  | None => Return (w, (metaindex, None))
  end.

(** Close, third part: the index, two-level or single. *)
Definition Close_index (w : Writer) : outcome (Writer * (BlockHandle * option error)) :=
  if twoLevelIndex w then
    let w := w<|props -> IndexTypeTwoLevel := true|> in
    (* Write the two level index block. *)
    writeTwoLevelIndex w
  else
    let w := w<|props -> IndexTypeTwoLevel := false|> in
    i <- the_indexBlock w ;;
    let '(size, i) := indexBlockBuf_estimatedSize i in
    let w := w<|indexBlock := Some i|> in
    let w := w<|props := prop_set (props w) IndexSize (wrap_uint64 (size + blockTrailerLen))|> in
    let w := w<|props := prop_set (props w) NumDataBlocks
                                  (wrap_uint64 (nEntries (ib_block i)))|> in
    (* Write the single level index block. *)
    writeBlock_writer w (indexBlockBuf_finish i) (compression w).

(** Close, fourth part: the range-del block. *)
Definition Close_rangeDel (w : Writer) : outcome (Writer * (BlockHandle * option error)) :=
  if 0 <? num (props w) NumRangeDeletions then
    let w :=
      if negb (rangeDelV1Format w) then
        (* Because the range tombstones are fragmented in the v2 format, the
           end key of the last added range tombstone will be the largest
           range tombstone key. *)
        let k := Clone (MakeRangeDeleteSentinelKey (curValue (rangeDelBlock w))) in
        w<|meta := SetLargestRangeDelKey (meta w) k|>
      else w in
    writeBlock_writer w (finish (rangeDelBlock w)) NoCompression
  else Return (w, (zeroBlockHandle, None)).

(** Close, fifth part: the range-key block, after the fragmenter has
    flushed its remaining spans. *)
Definition Close_rangeKey (w : Writer) : outcome (Writer * (BlockHandle * option error)) :=
  let '(f, emitted) := fragmenter_Finish (fragmenter w) in
  w <- emitSpans (w<|fragmenter := f|>) emitted ;;
  if 0 <? NumRangeKeys (props w) then
    let key := getCurKey (rangeKeyBlock w) in
    let kind := Kind key in
    match DecodeEndKey kind (curValue (rangeKeyBlock w)) with
    | None => Return (w, (zeroBlockHandle, Some errInvalidEndKey))
    | Some endKey =>
        let k := Clone (MakeExclusiveSentinelKey kind endKey) in
        let w := w<|meta := SetLargestRangeKey (meta w) k|> in
        writeBlock_writer w (finish (rangeKeyBlock w)) NoCompression
    end
  else Return (w, (zeroBlockHandle, None)).

(** Close, sixth part: the value blocks. *)
Definition Close_valueBlocks (w : Writer) (metaindex : list (metaName * bytes))
  : outcome (Writer * (list (metaName * bytes) * option error)) :=
  match valueBlockWriter w with
  | Some vbw =>
      let '(blocks, (vbiHandle, (vbStats, err'))) := vbw_finish vbw (meta_Size (meta w)) in
      '(w, werr) <- writeValueBlocks w blocks ;;
      match firstError werr err' with
      | Some e => Return (w, (metaindex, Some e))
      | None =>
          let w := w<|props := prop_set (props w) NumValueBlocks (numValueBlocks vbStats)|> in
          let w := w<|props := prop_set (props w) NumValuesInValueBlocks
                                        (numValuesInValueBlocks vbStats)|> in
          let w := w<|props := prop_set (props w) ValueBlocksSize
                                        (valueBlocksAndIndexSize vbStats)|> in
          if 0 <? numValueBlocks vbStats
          then Return (w, (metaindex ++ [(metaValueIndexName, vbiHandle)], None))
          else Return (w, (metaindex, None))
      end
  | None => Return (w, (metaindex, None))
  end.

(** Close, seventh part: the user properties and the properties block. *)
Definition Close_properties (w : Writer) (metaindex : list (metaName * bytes))
  : outcome (Writer * (list (metaName * bytes) * option error)) :=
  '(w, err') <-
    (if len (UserProperties (props w)) =? 0 then
       let '(cs, (userProps, err')) :=
         finishProps_loop bpc_FinishTable 0 (blockPropCollectors w) [] in
       let w := w<|blockPropCollectors := cs|> in
       match err' with
       | Some e => Return (w, Some e)
       | None =>
           if 0 <? len userProps
           then Return (w<|props -> UserProperties := userProps|>, None)
           else Return (w, None)
       end
     else Return (w, None)) ;;
  match err' with
  | Some e => Return (w, (metaindex, Some e))
  | None =>
      (* Write the properties block. *)
      '(w, (bh, err')) <-
        writeBlock_writer w (propertiesBlock (tableFormat w) (props w)) NoCompression ;;
      match err' with
      | Some e => Return (w, (metaindex, Some e))
      | None => Return (w, (metaindex ++ [(metaPropertiesName, encodeBlockHandle bh)], None))
      end
  end.

(** Close, last part: the metaindex, the footer and the release of the
    buffers. *)
Definition Close_footer (w : Writer) (metaindex : list (metaName * bytes))
    (indexBH : BlockHandle) : outcome (Writer * option error) :=
  (* Write the metaindex block.  NoCompression is specified because RocksDB
     never compresses the meta-index block. *)
  '(w, (metaindexBH, err')) <- writeBlock_writer w (rawBlock 1 metaindex) NoCompression ;;
  match err' with
  | Some e => Return (w, Some e)
  | None =>
      (* Write the table footer. *)
      let encoded :=
        encodeFooter (tableFormat w) (checksumType (blockBuf_checksummer (writer_blockBuf w)))
                     metaindexBH indexBH in
      let w := w<|writer_blockBuf -> tmp := encoded|> in
      f <- the_writable w ;;
      let '(f, err') := writable_Write f encoded in
      let w := w<|writable := Some f|> in
      match err' with
      | Some e => Return (w, Some e)
      | None =>
          let w := w<|meta -> meta_Size := wrap_uint64 (meta_Size (meta w) + len encoded)|> in
          (* Check that the features present in the table are compatible with
             the format configured for the table. *)
          match assertFormatCompatibility w with
          | Some e => Return (w, Some e)
          | None =>
              match writable_Finish f with
              | Some e => Return (w<|writable := None|>, Some e)
              | None =>
                  let w := w<|writable := None|> in
                  let w := w<|dataBlockBuf' := None|> in
                  let w := w<|indexBlock := None|> in
                  (* Make any future calls to Set or Close return an error. *)
                  Return (w<|err := Some errWriterClosed|>, None)
              end
          end
      end
  end.

Definition Close_body (w : Writer) : outcome (Writer * option error) :=
  (* finish must be called before we check for an error, because finish will
     block until every single task added to the writeQueue has been
     processed. *)
  match writeQueue_finish w with
  | Some e => Return (w, Some e)
  | None =>
  match err w with
  | Some e => Return (w, Some e)
  | None =>
  '(w, err') <- Close_dataBlock w ;;
  match err' with
  | Some e => Return (w, Some e)
  | None =>
  '(w, (metaindex, err')) <- Close_filter w [] ;;
  match err' with
  | Some e => Return (w, Some e)
  | None =>
  '(w, (indexBH, err')) <- Close_index w ;;
  match err' with
  | Some e => Return (w, Some e)
  | None =>
  '(w, (rangeDelBH, err')) <- Close_rangeDel w ;;
  match err' with
  | Some e => Return (w, Some e)
  | None =>
  '(w, (rangeKeyBH, err')) <- Close_rangeKey w ;;
  match err' with
  | Some e => Return (w, Some e)
  | None =>
  '(w, (metaindex, err')) <- Close_valueBlocks w metaindex ;;
  match err' with
  | Some e => Return (w, Some e)
  | None =>
  (* Add the range key block handle to the metaindex block. *)
  let metaindex :=
    if 0 <? NumRangeKeys (props w)
    then metaindex ++ [(metaRangeKeyName, encodeBlockHandle rangeKeyBH)]
    else metaindex in
  '(w, (metaindex, err')) <- Close_properties w metaindex ;;
  match err' with
  | Some e => Return (w, Some e)
  | None =>
  (* Add the range deletion block handle to the metaindex block. *)
  let metaindex :=
    if 0 <? num (props w) NumRangeDeletions then
      let metaindex := metaindex ++ [(metaRangeDelName, encodeBlockHandle rangeDelBH)] in
      if negb (rangeDelV1Format w)
      then metaindex ++ [(metaRangeDelV2Name, encodeBlockHandle rangeDelBH)]
      else metaindex
    else metaindex in
  Close_footer w metaindex indexBH
  end end end end end end end end end.

(** Close finishes writing the table and closes the underlying file that the
    table was written to.  The deferred function releases the value-block
    writer, aborts a writable that is still held and records the error. *)
Definition Close (w : Writer) : outcome (Writer * option error) :=
  '(w, err') <- Close_body w ;;
  let w := w<|valueBlockWriter := None|> in
  let w := w<|writable := None|> in
  let w := match err' with Some e => w<|err := Some e|> | None => w end in
  Return (w, err').

(** EstimatedSize returns the estimated size of the sstable being written if
    a call to Finish() was made without adding additional keys. *)
Definition EstimatedSize (w : Writer) : outcome (Z * Writer) :=
  let '(dataSize, est) := dataBlockEstimates_size (coord_sizeEstimate (coordination w)) in
  let w := w<|coordination -> coord_sizeEstimate := est|> in
  d <- the_dataBlockBuf w ;;
  i <- the_indexBlock w ;;
  let '(indexSize, i) := indexBlockBuf_estimatedSize i in
  let w := w<|indexBlock := Some i|> in
  Return (wrap_uint64 (dataSize + wrap_uint64 (estimatedSize (dataBlock d)) + indexSize), w).

(** UnsafeLastPointUserKey returns the last point key written to the
    writer. *)
Definition UnsafeLastPointUserKey (w : Writer) : outcome slice :=
  d <- the_dataBlockBuf w ;;
  if 1 <=? nEntries (dataBlock d) then Return (Some (getCurUserKey (dataBlock d)))
  else Return None.

(** *** NewWriter *)

(** The options after [ensureDefaults]; the filter policy and the collector
    constructors stand for the filter writer and the collectors they make. *)
Record WriterOptions := {
  BlockSize : Z;
  BlockSizeThreshold : Z;
  SizeClassAwareThreshold : Z;
  IndexBlockSize : Z;
  opt_Compression : Compression;
  TableFormat : Z;
  IsStrictObsolete : bool;
  WritingToLowestLevel : bool;
  BlockRestartInterval : Z;
  Checksum : ChecksumType;
  Parallelism : bool;
  AllocatorSizeClasses : list Z;
  ShortAttributeExtractor : bool;
  RequiredInPlaceValueBound : UserKeyPrefixBound;
  DisableValueBlocks : bool;
  FilterPolicy : option Filter;
  BlockPropertyCollectors : list Collector
}.

(** NewWriter returns a new table writer for the file; no extra options are
    applied. *)
Definition NewWriter (writable' : option Writable) (o : WriterOptions) : Writer :=
  let dataOptions :=
    {| blockSize := BlockSize o;
       blockSizeThreshold :=
         Z.quot (wrap_int (BlockSize o * BlockSizeThreshold o + 99)) 100;
       sizeClassAwareThreshold :=
         Z.quot (wrap_int (BlockSize o * SizeClassAwareThreshold o + 99)) 100 |} in
  let indexOptions :=
    {| blockSize := IndexBlockSize o;
       blockSizeThreshold :=
         Z.quot (wrap_int (IndexBlockSize o * BlockSizeThreshold o + 99)) 100;
       sizeClassAwareThreshold :=
         Z.quot (wrap_int (IndexBlockSize o * SizeClassAwareThreshold o + 99)) 100 |} in
  let v3 := TableFormatPebblev3 <=? TableFormat o in
  let w :=
    {| writable := writable';
       meta := {| meta_Size := 0;
                  SmallestPoint := zeroInternalKey; LargestPoint := zeroInternalKey;
                  SmallestRangeDel := zeroInternalKey; LargestRangeDel := zeroInternalKey;
                  SmallestRangeKey := zeroInternalKey; LargestRangeKey := zeroInternalKey;
                  HasPointKeys := false; HasRangeDelKeys := false; HasRangeKeys := false;
                  SmallestSeqNum := 2 ^ 64 - 1; LargestSeqNum := 0 |};
       err := None;
       dataBlockOptions := dataOptions;
       indexBlockOptions := indexOptions;
       compression := opt_Compression o;
       tableFormat := TableFormat o;
       isStrictObsolete := IsStrictObsolete o;
       writingToLowestLevel := WritingToLowestLevel o;
       writer_restartInterval := BlockRestartInterval o;
       writer_checksumType := Checksum o;
       disableKeyOrderChecks := false;
       twoLevelIndex := false;
       rangeDelV1Format := false;
       indexBlock := Some (newIndexBlockBuf (Parallelism o));
       rangeDelBlock := blockWriter_new 1;
       rangeKeyBlock := blockWriter_new 1;
       topLevelIndexBlock := blockWriter_new 1;
       props := Properties_zero;
       blockPropCollectors := [];
       filter := None;
       indexPartitions := [];
       fragmenter := newFragmenter;
       rkBuf := [];
       dataBlockBuf' := Some (newDataBlockBuf (BlockRestartInterval o) (Checksum o));
       writer_blockBuf :=
         {| tmp := [];
            blockBuf_checksummer := {| checksumType := Checksum o; xxHasher := None |} |};
       coordination :=
         {| parallelismEnabled := Parallelism o;
            writeQueue_err := None;
            coord_sizeEstimate := {| useMutex := false; estimate := sizeEstimate_zero |} |};
       lastPointKeyInfo := pointKeyInfo_zero;
       hasShortAttributeExtractor := v3 && ShortAttributeExtractor o;
       requiredInPlaceValueBound :=
         if v3 then RequiredInPlaceValueBound o else UserKeyPrefixBound_zero;
       valueBlockWriter :=
         if v3 && negb (DisableValueBlocks o)
         then Some (newValueBlockWriter (blockSize dataOptions)
                                        (blockSizeThreshold dataOptions))
         else None;
       allocatorSizeClasses := AllocatorSizeClasses o |} in
  match writable' with
  | None => w<|err := Some errNilWritable|>
  | Some _ =>
      let w := w<|filter := FilterPolicy o|> in
      let numBlockPropertyCollectors :=
        if TableFormatPebblev4 <=? TableFormat o
        then len (BlockPropertyCollectors o) + 1
        else len (BlockPropertyCollectors o) in
      if 0 <? numBlockPropertyCollectors then
        if maxPropertyCollectors <? numBlockPropertyCollectors then
          w<|err := Some errTooManyCollectors|>
        else if TableFormatPebblev4 <=? TableFormat o then
          w<|blockPropCollectors := BlockPropertyCollectors o ++ [obsoleteCollector]|>
        else w<|blockPropCollectors := BlockPropertyCollectors o|>
      else w
  end.

End WriterModel.

(** ** The sync queue of the write-ahead-log record writer *)

Module WAL.

(** Modelled from the spec: the record writer (record/log_writer.go) is
    absent from src; only its test is at hand.  The sync queue is a
    fixed-capacity ring of (waiter, error-slot) pairs.  Producers push under
    the commit mutex.  The flusher, the single consumer, loads head and
    tail, writes and syncs the accumulated bytes, then pops the range it
    loaded and signals every waiter, storing the sync error (if any) into
    every popped error slot before release.  Pushes may arrive between the
    load and the pop; they stay queued for the next batch. *)

(** A waiter (a wait group) and the error slot the caller provides with it,
    each named by a number. *)
Record syncSlot := {
  wg : Z;
  errSlot : Z
}.

(** The file under the writer: the records written to it, how many of them
    are durable, and the error its Sync returns (None for nil), which is a
    fixed attribute of the file as in syncErrorFile of the test. *)
Record file := {
  written : list bytes;
  synced : Z;
  syncResult : option Z
}.

Definition file_Write (f : file) (data : list bytes) : file :=
  {| written := written f ++ data; synced := synced f; syncResult := syncResult f |}.

Definition file_Sync (f : file) : file * option Z :=
  match syncResult f with
  | Some e => (f, Some e)
  | None => ({| written := written f; synced := len (written f); syncResult := None |}, None)
  end.

Record LogWriter := {
  SyncConcurrency : Z;
  w_file : file;
  (* records appended to the in-memory block and not yet written *)
  pending : list bytes;
  (* the ring between tail and head, oldest first *)
  syncQ : list syncSlot;
  (* the number of slots between the tail and the head the flusher loaded,
     while it works on a batch *)
  loaded : option Z;
  (* the content of the callers' error slots: what was stored last *)
  errSlots : Z -> option (option Z);
  (* the waiters signalled so far, oldest first *)
  released : list syncSlot
}.

Definition NewLogWriter (f : file) (syncConcurrency : Z) : LogWriter :=
  {| SyncConcurrency := syncConcurrency; w_file := f; pending := []; syncQ := [];
     loaded := None; errSlots := fun _ => None; released := [] |}.

(** [SyncRecord]: the record is appended and, when a waiter is given, the
    pair is pushed; the call itself returns no error.  A full ring is outside
    the model ([None]). *)
Definition SyncRecord (w : LogWriter) (p : bytes) (waiter : option syncSlot)
  : option LogWriter :=
  let w := w<|pending := pending w ++ [p]|> in
  match waiter with
  | None => Some w
  | Some s =>
      if len (syncQ w) <? SyncConcurrency w then Some (w<|syncQ := syncQ w ++ [s]|>)
      else None
  end.

(** The flusher loads head and tail. *)
Definition flusher_load (w : LogWriter) : LogWriter :=
  w<|loaded := Some (len (syncQ w))|>.

(** [pop]: the sync error is stored into every popped slot, then the waiter
    is signalled. *)
Fixpoint pop (batch : list syncSlot) (err : option Z) (w : LogWriter) : LogWriter :=
  match batch with
  | [] => w
  | s :: rest =>
      let w := w<|errSlots := fun i => if i =? errSlot s then Some err else errSlots w i|> in
      let w := w<|released := released w ++ [s]|> in
      pop rest err w
  end.

(** The flusher writes the accumulated bytes, syncs when the batch has a
    waiter, and pops the range it loaded. *)
Definition flusher_flush (w : LogWriter) : LogWriter :=
  match loaded w with
  | None => w
  | Some n =>
      let f := file_Write (w_file w) (pending w) in
      let '(f, err) := if 0 <? n then file_Sync f else (f, None) in
      let w := w<|w_file := f|><|pending := []|><|loaded := None|> in
      let batch := firstn (Z.to_nat n) (syncQ w) in
      let w := w<|syncQ := skipn (Z.to_nat n) (syncQ w)|> in
      pop batch err w
  end.

(** What can happen to a writer, in any interleaving. *)
Inductive event : Type :=
| EvSyncRecord (p : bytes) (waiter : option syncSlot)
| EvFlusherLoad
| EvFlusherFlush.

Definition step (w : LogWriter) (e : event) : option LogWriter :=
  match e with
  | EvSyncRecord p waiter => SyncRecord w p waiter
  | EvFlusherLoad => Some (flusher_load w)
  | EvFlusherFlush => Some (flusher_flush w)
  end.

Fixpoint run (w : LogWriter) (trace : list event) : option LogWriter :=
  match trace with
  | [] => Some w
  | e :: rest =>
      match step w e with
      | Some w => run w rest
      | None => None
      end
  end.

(** The test TestSyncError: three records, each synced and awaited in turn,
    against a file whose Sync returns the injected error. *)
Definition injectedErr : Z := 1.

Definition syncErrorFile : file := {| written := []; synced := 0; syncResult := Some injectedErr |}.

Definition hello : bytes := map byte.of_Z [104; 101; 108; 108; 111].

Definition TestSyncError_trace : list event :=
  [EvSyncRecord hello (Some {| wg := 1; errSlot := 1 |}); EvFlusherLoad; EvFlusherFlush;
   EvSyncRecord hello (Some {| wg := 2; errSlot := 2 |}); EvFlusherLoad; EvFlusherFlush;
   EvSyncRecord hello (Some {| wg := 3; errSlot := 3 |}); EvFlusherLoad; EvFlusherFlush].

End WAL.

(** ** A concrete environment

    The examples run the writer with these collaborators: the constants of
    the released format, the bytewise comparer, a plain block layout, a
    run-length codec, and collaborators that keep what they are given and
    never fail. *)

Definition InternalKeySeqNumMax : Z := 2 ^ 56 - 1.

Fixpoint bytesCompare (a b : bytes) : Z :=
  match a, b with
  | [], [] => 0
  | [], _ :: _ => -1
  | _ :: _, [] => 1
  | x :: a, y :: b =>
      if byte.unsigned x <? byte.unsigned y then -1
      else if byte.unsigned y <? byte.unsigned x then 1
      else bytesCompare a b
  end.

Definition sampleInternalCompare (cmp : bytes -> bytes -> Z) (a b : InternalKey) : Z :=
  let x := cmp (slice_bytes (UserKey a)) (slice_bytes (UserKey b)) in
  if negb (x =? 0) then x
  else if Trailer b <? Trailer a then -1
  else if Trailer a <? Trailer b then 1
  else 0.

Definition sampleDeclarations : Declarations :=
  {| InternalKeyKindDelete := 0;
     InternalKeyKindSet := 1;
     InternalKeyKindMerge := 2;
     InternalKeyKindSingleDelete := 7;
     InternalKeyKindRangeDelete := 15;
     InternalKeyKindSetWithDelete := 18;
     InternalKeyKindRangeKeyDelete := 19;
     InternalKeyKindRangeKeyUnset := 20;
     InternalKeyKindRangeKeySet := 21;
     InternalKeyKindDeleteSized := 23;
     InternalKeyRangeDeleteSentinel := MakeTrailer InternalKeySeqNumMax 15;
     TableFormatPebblev1 := 3;
     TableFormatPebblev2 := 4;
     TableFormatPebblev3 := 5;
     TableFormatPebblev4 := 6;
     supportsTwoLevelIndex := fun f => 2 <=? f;
     emptyBlockSize := 4;
     ValueMetadataSize := 32;
     noCompressionBlockType := Byte.x00;
     maxPropertyCollectors := 16;
     InternalCompare := sampleInternalCompare;
     MakeRangeDeleteSentinelKey := fun k =>
       {| UserKey := Some k; Trailer := MakeTrailer InternalKeySeqNumMax 15 |};
     MakeExclusiveSentinelKey := fun kind k =>
       {| UserKey := Some k; Trailer := MakeTrailer InternalKeySeqNumMax kind |};
     DecodeEndKey := fun _ v => Some v |}.

Definition bytewiseComparer : Comparer :=
  {| compare := bytesCompare;
     split := fun k => len k;
     ikSeparator := fun prev _ => prev;
     ikSuccessor := fun prev =>
       {| UserKey := Some (slice_bytes (UserKey prev) ++ [Byte.x00]);
          Trailer := MakeTrailer InternalKeySeqNumMax 17 |} |}.

Definition sampleEntryBytes (e : blockEntry) : bytes :=
  [Byte.x00; byte.of_Z (len (slice_bytes (UserKey (entryKey e))));
   byte.of_Z (len (entryValue e))]
  ++ slice_bytes (UserKey (entryKey e)) ++ le_split 8 (Trailer (entryKey e))
  ++ match entryValuePrefix e with Some p => [p] | None => [] end
  ++ entryValue e.

Definition sampleRestarts (w : blockWriter) : Z :=
  if restartInterval w <=? 0 then 0
  else (nEntries w + restartInterval w - 1) / restartInterval w.

Definition sampleBlockFormat : BlockFormat :=
  {| estimatedSize := fun w =>
       len (flat_map sampleEntryBytes (entries w)) + 4 * sampleRestarts w + 4;
     finish := fun w =>
       flat_map sampleEntryBytes (entries w)
       ++ repeat Byte.x00 (Z.to_nat (4 * Z.max 1 (sampleRestarts w)))
       ++ le_split 4 (Z.max 1 (sampleRestarts w)) |}.

(** Run-length coding: each run of equal bytes becomes its length and the
    byte. *)
Fixpoint runLength_from (cur : byte) (n : Z) (rest : bytes) : bytes :=
  match rest with
  | [] => [byte.of_Z n; cur]
  | b :: rest =>
      if Byte.eqb b cur && (n <? 255) then runLength_from cur (n + 1) rest
      else byte.of_Z n :: cur :: runLength_from b 1 rest
  end.

Definition runLength (b : bytes) : bytes :=
  match b with
  | [] => []
  | x :: rest => runLength_from x 1 rest
  end.

Definition sampleSum (b : bytes) : Z :=
  fold_left (fun acc x => (acc * 31 + byte.unsigned x) mod 2 ^ 32) b 7.

Definition sampleCodec : Codec :=
  {| Compression := bool;
     NoCompression := false;
     compressBlock := fun c b => if c then (Byte.x01, runLength b) else (Byte.x00, b);
     crcValue := sampleSum;
     xxhashSum64 := fun b => sampleSum b * 2 ^ 32 + sampleSum b |}.

Definition sampleBlockHandleBytes (bh : BlockHandle) : bytes :=
  le_split 4 (Offset bh) ++ le_split 4 (Length bh).

Definition sampleCollaborators : Collaborators :=
  {| Collector := unit;
     bpc_Add := fun c _ _ => (c, None);
     bpc_FinishDataBlock := fun c => (c, ([], None));
     bpc_AddPrevDataBlockToIndexBlock := fun c => c;
     bpc_FinishIndexBlock := fun c => (c, ([], None));
     bpc_FinishTable := fun c => (c, ([], None));
     obsoleteCollector := tt;
     obsolete_AddPoint := fun c _ => c;
     encodeBlockProperties := fun _ => [];
     Filter := unit;
     filter_addKey := fun f _ => f;
     filter_finish := fun f => (f, ([], None));
     ValueBlockWriter := list bytes;
     newValueBlockWriter := fun _ _ => [];
     vbw_addValue := fun v value =>
       (v ++ [value], ([], (le_split 4 (len v), None)));
     vbw_finish := fun v _ =>
       ([], ([], ({| numValueBlocks := 0; numValuesInValueBlocks := 0;
                     valueBlocksAndIndexSize := 0 |}, None)));
     shortAttributeExtractor := fun _ _ _ => (0, None);
     makePrefixForValueHandle := fun _ _ => Byte.x80;
     makePrefixForInPlaceValue := fun _ => Byte.x00;
     Writable := list bytes;
     writable_Write := fun f b => (f ++ [b], None);
     writable_Finish := fun _ => None;
     Fragmenter := list Span;
     newFragmenter := [];
     fragmenter_Start := fun f => match f with [] => None | s :: _ => Start s end;
     fragmenter_Add := fun f s => (f ++ [s], []);
     fragmenter_Finish := fun f => ([], f);
     sortKeysBySuffix := fun _ ks => ks;
     rangekey_Encode := fun s =>
       map (fun k => ({| UserKey := Start s; Trailer := Key_Trailer k |},
                      slice_bytes (End s))) (Keys s);
     encodeBlockHandle := sampleBlockHandleBytes;
     encodeBlockHandleWithProperties := fun bhp =>
       sampleBlockHandleBytes (bhp_BlockHandle bhp) ++ Props bhp;
     rawBlock := fun _ entries => flat_map snd entries;
     propertiesBlock := fun _ _ => [];
     encodeFooter := fun _ _ m i => sampleBlockHandleBytes m ++ sampleBlockHandleBytes i |}.

(** The writer of the examples. *)
Definition sampleWriter : Type :=
  @Writer sampleCodec sampleCollaborators.

Definition sampleOptions : @WriterOptions sampleCodec sampleCollaborators :=
  {| BlockSize := 100;
     BlockSizeThreshold := 90;
     SizeClassAwareThreshold := 60;
     IndexBlockSize := 4096;
     opt_Compression := (true : @Compression sampleCodec);
     TableFormat := 4;
     IsStrictObsolete := false;
     WritingToLowestLevel := false;
     BlockRestartInterval := 16;
     Checksum := ChecksumTypeCRC32c;
     Parallelism := false;
     AllocatorSizeClasses := [];
     ShortAttributeExtractor := false;
     RequiredInPlaceValueBound := UserKeyPrefixBound_zero;
     DisableValueBlocks := false;
     FilterPolicy := None;
     BlockPropertyCollectors := [] |}.

Definition sampleNewWriter (o : @WriterOptions sampleCodec sampleCollaborators)
  : sampleWriter :=
  NewWriter (decls := sampleDeclarations) (codec := sampleCodec)
            (collab := sampleCollaborators) (Some []) o.

Definition keyOf (s : list Z) : bytes := map byte.of_Z s.

(** ** Sample runs *)

Definition sampleAdd (w : sampleWriter) (key : InternalKey) (value : bytes)
  : outcome (sampleWriter * option error) :=
  Add (decls := sampleDeclarations) (comparer := bytewiseComparer)
      (format := sampleBlockFormat) w key value.

Definition sampleAddWithForceObsolete (w : sampleWriter) (key : InternalKey)
    (value : bytes) (forceObsolete : bool) : outcome (sampleWriter * option error) :=
  AddWithForceObsolete (decls := sampleDeclarations) (comparer := bytewiseComparer)
      (format := sampleBlockFormat) w key value forceObsolete.

(** The errors returned by a run of [Add] calls, in order, with the writer
    the run leaves behind. *)
Fixpoint sampleAddAll (w : sampleWriter) (kvs : list (InternalKey * bytes))
  : outcome (sampleWriter * list (option error)) :=
  match kvs with
  | [] => Return (w, [])
  | (k, v) :: kvs =>
      '(w, e) <- sampleAdd w k v ;;
      '(w, es) <- sampleAddAll w kvs ;;
      Return (w, e :: es)
  end.

Definition rangeDelKey (start : list Z) (seq : Z) : InternalKey :=
  MakeInternalKey (Some (keyOf start)) seq
                  (InternalKeyKindRangeDelete (Declarations := sampleDeclarations)).

Definition setKey (user : list Z) (seq : Z) : InternalKey :=
  MakeInternalKey (Some (keyOf user)) seq
                  (InternalKeyKindSet (Declarations := sampleDeclarations)).

Definition errorsOf {W : Type} (r : outcome (W * list (option error)))
  : option (list (option error)) :=
  match r with
  | Return (_, es) => Some es
  | Panic => None
  end.

(** The writer a run of [Add] calls leaves behind. *)
Definition writerAfter (kvs : list (InternalKey * bytes)) : sampleWriter :=
  match sampleAddAll (sampleNewWriter sampleOptions) kvs with
  | Return (w, _) => w
  | Panic => sampleNewWriter sampleOptions
  end.

Definition sampleAddTombstone (w : sampleWriter) (key : InternalKey) (value : bytes)
  : sampleWriter * option error :=
  addTombstone (decls := sampleDeclarations) (comparer := bytewiseComparer) w key value.

Definition sentinelKey (start : list Z) : InternalKey :=
  {| UserKey := Some (keyOf start);
     Trailer := InternalKeyRangeDeleteSentinel (Declarations := sampleDeclarations) |}.

Definition sampleRangeKeySet (w : sampleWriter) (start end' suffix value : bytes)
  : outcome (sampleWriter * option error) :=
  RangeKeySet (decls := sampleDeclarations) (comparer := bytewiseComparer)
              w start end' suffix value.

Definition sampleRangeKeyDelete (w : sampleWriter) (start end' : bytes)
  : outcome (sampleWriter * option error) :=
  RangeKeyDelete (decls := sampleDeclarations) (comparer := bytewiseComparer)
                 w start end'.

(** The sample writer after the range key set [c,e) was handed to it. *)
Definition writerAfterRangeKeySet : sampleWriter :=
  match sampleRangeKeySet (sampleNewWriter sampleOptions)
                          (keyOf [99]) (keyOf [101]) [] (keyOf [1]) with
  | Return (w, _) => w
  | Panic => sampleNewWriter sampleOptions
  end.

(** ** Runs of the size estimator *)

(** The calls the holder of a [sizeEstimate] makes on it. *)
Inductive sizeEstimateCall : Type :=
| CallAddInflight (size : Z)
| CallWrittenWithTotal (newTotalSize inflightSize' : Z)
| CallWrittenWithDelta (finalEntrySize inflightSize' : Z)
| CallSize.

(** A run of calls: the values that the calls of [size] return, in order,
    and the estimator the run leaves behind. *)
Fixpoint sizeEstimate_run (s : sizeEstimate) (calls : list sizeEstimateCall)
  : list Z * sizeEstimate :=
  match calls with
  | [] => ([], s)
  | CallAddInflight size :: rest => sizeEstimate_run (addInflight s size) rest
  | CallWrittenWithTotal t n :: rest => sizeEstimate_run (writtenWithTotal s t n) rest
  | CallWrittenWithDelta d n :: rest => sizeEstimate_run (writtenWithDelta s d n) rest
  | CallSize :: rest =>
      let '(r, s) := sizeEstimate_size s in
      let '(rs, s) := sizeEstimate_run s rest in
      (r :: rs, s)
  end.

(** The sequence numbers of a run of [updateSeqNum] calls. *)
Definition updateSeqNums (m : WriterMetadata) (seqNums : list Z) : WriterMetadata :=
  fold_left updateSeqNum seqNums m.

(** ** The two-level index flag *)

(** The two-level flag is set exactly when a partition has been kept. *)
Definition IndexInv {codec : Codec} {collab : Collaborators} (w : Writer) : Prop :=
  twoLevelIndex w = true <-> indexPartitions w <> [].

(** A property of the two-level flag and the partitions a writer holds. *)
Definition indexState {codec : Codec} {collab : Collaborators}
    (P : bool -> list indexBlockAndBlockProperties -> Prop) (w : Writer) : Prop :=
  P (twoLevelIndex w) (indexPartitions w).

Definition flagMatchesPartitions (t : bool) (ps : list indexBlockAndBlockProperties)
  : Prop :=
  t = true <-> ps <> [].

(** ** Runs of calls on a writer *)

(** The calls of the writer's interface that change it. *)
Inductive writerCall : Type :=
| CallSet (key : slice) (value : bytes)
| CallDelete (key : slice)
| CallDeleteRange (start : slice) (end' : bytes)
| CallMerge (key : slice) (value : bytes)
| CallAdd (key : InternalKey) (value : bytes)
| CallAddWithForceObsolete (key : InternalKey) (value : bytes) (forceObsolete : bool)
| CallRangeKeySet (start end' suffix value : bytes)
| CallRangeKeyUnset (start end' suffix : bytes)
| CallRangeKeyDelete (start end' : bytes)
| CallAddRangeKey (key : InternalKey) (value : bytes)
| CallEstimatedSize.

Section Runs.

Context {decls : Declarations} {comparer : Comparer} {format : BlockFormat}
        {codec : Codec} {collab : Collaborators}.

(** The writer a call leaves behind, whatever the call returns. *)
Definition doCall (w : Writer) (c : writerCall) : outcome Writer :=
  match c with
  | CallSet key value => '(w, _) <- Set' w key value ;; Return w
  | CallDelete key => '(w, _) <- Delete w key ;; Return w
  | CallDeleteRange start end' => '(w, _) <- DeleteRange w start end' ;; Return w
  | CallMerge key value => '(w, _) <- Merge w key value ;; Return w
  | CallAdd key value => '(w, _) <- Add w key value ;; Return w
  | CallAddWithForceObsolete key value forceObsolete =>
      '(w, _) <- AddWithForceObsolete w key value forceObsolete ;; Return w
  | CallRangeKeySet start end' suffix value =>
      '(w, _) <- RangeKeySet w start end' suffix value ;; Return w
  | CallRangeKeyUnset start end' suffix =>
      '(w, _) <- RangeKeyUnset w start end' suffix ;; Return w
  | CallRangeKeyDelete start end' =>
      '(w, _) <- RangeKeyDelete w start end' ;; Return w
  | CallAddRangeKey key value => '(w, _) <- AddRangeKey w key value ;; Return w
  | CallEstimatedSize => '(_, w) <- EstimatedSize w ;; Return w
  end.

Fixpoint doCalls (w : Writer) (calls : list writerCall) : outcome Writer :=
  match calls with
  | [] => Return w
  | c :: rest => w <- doCall w c ;; doCalls w rest
  end.

End Runs.

(** ** Sample blocks *)

Definition sampleZeros : bytes := repeat Byte.x00 100.

Definition sampleBlockBuf : blockBuf :=
  {| tmp := [];
     blockBuf_checksummer := {| checksumType := ChecksumTypeCRC32c; xxHasher := None |} |}.

(** What [compressAndChecksum] makes of the hundred zero bytes under the
    run-length codec. *)
Definition sampleCompressed : bytes * blockBuf :=
  match compressAndChecksum (decls := sampleDeclarations) (codec := sampleCodec)
          sampleZeros true sampleBlockBuf with
  | Return r => r
  | Panic => ([], sampleBlockBuf)
  end.

(** ** A sample flush *)


(** The data block buffer a writer holds. *)
Definition dataBlockBufOf (w : sampleWriter) : dataBlockBuf :=
  match dataBlockBuf' w with
  | Some d => d
  | None => newDataBlockBuf 16 ChecksumTypeCRC32c
  end.


(** The index block a writer holds. *)
Definition indexBlockOf (w : sampleWriter) : indexBlockBuf :=
  match indexBlock w with
  | Some i => i
  | None => newIndexBlockBuf (decls := sampleDeclarations) false
  end.

(** The writer after a@5 and b@4: the block of a@5 was flushed and has its
    entry in the index block, and b@4 is in the data block. *)
Definition writerWithTwoPoints : sampleWriter :=
  writerAfter [(setKey [97] 5, sampleZeros); (setKey [98] 4, sampleZeros)].

(** That writer after its data block was flushed ahead of c@3. *)
Definition writerFlushedAgain : sampleWriter :=
  match flush (decls := sampleDeclarations) (comparer := bytewiseComparer)
              (format := sampleBlockFormat) writerWithTwoPoints (setKey [99] 3) with
  | Return (w, _) => w
  | Panic => writerWithTwoPoints
  end.

(** ** A sample table with a two-level index *)

(** The sample options with index blocks of forty bytes, which two index
    entries overflow. *)
Definition smallIndexOptions : @WriterOptions sampleCodec sampleCollaborators :=
  sampleOptions<|IndexBlockSize := 40|>.

(** Four points whose values fill a data block each. *)
Definition fourPoints : list writerCall :=
  [CallAdd (setKey [97] 5) sampleZeros; CallAdd (setKey [98] 4) sampleZeros;
   CallAdd (setKey [99] 3) sampleZeros; CallSet (Some (keyOf [100])) sampleZeros].

(** The writer after the four points, and after Close. *)
Definition writerWithFourPoints : sampleWriter :=
  match doCalls (decls := sampleDeclarations) (comparer := bytewiseComparer)
                (format := sampleBlockFormat)
                (NewWriter (decls := sampleDeclarations) (codec := sampleCodec)
                           (collab := sampleCollaborators) (Some [])
                           smallIndexOptions)
                fourPoints with
  | Return w => w
  | Panic => sampleNewWriter smallIndexOptions
  end.

Definition writerClosed : sampleWriter :=
  match Close (decls := sampleDeclarations) (comparer := bytewiseComparer)
              (format := sampleBlockFormat) writerWithFourPoints with
  | Return (w, _) => w
  | Panic => writerWithFourPoints
  end.


(** ** A sample writer without a writable *)

(** The writer that NewWriter makes of no writable; it holds the error
    errNilWritable. *)
Definition writerNoWritable : sampleWriter :=
  NewWriter (decls := sampleDeclarations) (codec := sampleCodec)
            (collab := sampleCollaborators) None sampleOptions.

Definition refusedCalls : list writerCall :=
  [CallSet (Some (keyOf [97])) sampleZeros;
   CallRangeKeySet (keyOf [97]) (keyOf [98]) [] (keyOf [1]);
   CallAdd (setKey [98] 4) sampleZeros;
   CallRangeKeyDelete (keyOf [99]) (keyOf [100])].

Definition writerRefusing : sampleWriter :=
  match doCalls (decls := sampleDeclarations) (comparer := bytewiseComparer)
                (format := sampleBlockFormat) writerNoWritable refusedCalls with
  | Return w => w
  | Panic => writerNoWritable
  end.

(** ** Sample range keys *)

(** The range-key set key of a start key and a sequence number. *)
Definition rangeKeySetKey (start : list Z) (seqNum : Z) : InternalKey :=
  {| UserKey := Some (keyOf start);
     Trailer := MakeTrailer seqNum
                  (InternalKeyKindRangeKeySet (Declarations := sampleDeclarations)) |}.

(** The sample writer after the range key [c,e)@5 was added to it. *)
Definition writerWithRangeKey : sampleWriter :=
  match AddRangeKey (decls := sampleDeclarations) (comparer := bytewiseComparer)
                    (sampleNewWriter sampleOptions) (rangeKeySetKey [99] 5)
                    (keyOf [101]) with
  | Return (w, _) => w
  | Panic => sampleNewWriter sampleOptions
  end.

(** That writer after the range key [e,g)@4. *)
Definition writerWithTwoRangeKeys : sampleWriter :=
  match addRangeKey (decls := sampleDeclarations) (comparer := bytewiseComparer)
                    writerWithRangeKey (rangeKeySetKey [101] 4) (keyOf [103]) with
  | Return (w, _) => w
  | Panic => writerWithRangeKey
  end.

(** The calls that hand the sample writer the range key set [c,e) and the
    point a@5, the writer after them and after Close. *)
Definition rangeKeyCalls : list writerCall :=
  [CallRangeKeySet (keyOf [99]) (keyOf [101]) [] (keyOf [1]);
   CallAdd (setKey [97] 5) sampleZeros].

Definition writerWithSpan : sampleWriter :=
  match doCalls (decls := sampleDeclarations) (comparer := bytewiseComparer)
                (format := sampleBlockFormat)
                (NewWriter (decls := sampleDeclarations) (codec := sampleCodec)
                           (collab := sampleCollaborators) (Some []) sampleOptions)
                rangeKeyCalls with
  | Return w => w
  | Panic => sampleNewWriter sampleOptions
  end.

Definition writerWithSpanClosed : sampleWriter :=
  match Close (decls := sampleDeclarations) (comparer := bytewiseComparer)
              (format := sampleBlockFormat) writerWithSpan with
  | Return (w, _) => w
  | Panic => writerWithSpan
  end.

(** * Properties *)

(** ** Machine integers *)

Lemma wrap_int_small (z : Z) : - 2 ^ 63 <= z < 2 ^ 63 -> wrap_int z = z.
Proof.
  intros Hz. unfold wrap_int.
  rewrite Z.mod_small by lia. lia.
Qed.

Lemma wrap_uint64_small (z : Z) : 0 <= z < 2 ^ 64 -> wrap_uint64 z = z.
Proof. intros Hz. unfold wrap_uint64. now apply Z.mod_small. Qed.

Lemma wrap_uint32_small (z : Z) : 0 <= z < 2 ^ 32 -> wrap_uint32 z = z.
Proof. intros Hz. unfold wrap_uint32. now apply Z.mod_small. Qed.

Lemma wrap_uint64_range (z : Z) : 0 <= wrap_uint64 z < 2 ^ 64.
Proof. unfold wrap_uint64. apply Z.mod_pos_bound. lia. Qed.

Lemma len_nonneg {A : Type} (s : list A) : 0 <= len s.
Proof. unfold len. lia. Qed.

Lemma len_app {A : Type} (s t : list A) : len (s ++ t) = len s + len t.
Proof. unfold len. rewrite length_app. lia. Qed.

(** A varint of a 32-bit value takes between one and six rounds of the loop
    as modelled (five bytes at most for a value below [2^32]). *)
Lemma uvarintLen_range (v : Z) : 1 <= uvarintLen v <= 6.
Proof.
  unfold uvarintLen. cbn [uvarintLen_loop].
  repeat match goal with
         | |- context [if ?c then _ else _] => destruct c
         end; lia.
Qed.

(** Removes the wraps of [int] arithmetic, innermost first, where [lia]
    shows that the value fits. *)
Ltac unwrap_int :=
  repeat match goal with
         | |- context [wrap_int ?z] =>
             lazymatch z with
             | context [wrap_int _] => fail
             | _ => rewrite (wrap_int_small z) by lia
             end
         end.

(** ** The flush heuristics *)

Section FlushFacts.

Context {decls : Declarations}.

(** The size the block would have with the offered entry, as the heuristics
    compute it, when nothing overflows. *)
Lemma newSize_exact (size keyLen valueLen restartInterval numEntries : Z) :
  0 <= keyLen -> 0 <= valueLen -> 0 <= size ->
  size + keyLen + valueLen + 20 < 2 ^ 63 ->
  wrap_int
    (wrap_int
       (wrap_int
          ((if Z.rem numEntries restartInterval =? 0
            then wrap_int (wrap_int (size + keyLen + valueLen) + 4)
            else wrap_int (size + keyLen + valueLen)) + 4)
        + uvarintLen (wrap_uint32 keyLen))
     + uvarintLen (wrap_uint32 valueLen))
  = size + keyLen + valueLen
    + ((if Z.rem numEntries restartInterval =? 0 then 4 else 0) + 4
       + uvarintLen (wrap_uint32 keyLen) + uvarintLen (wrap_uint32 valueLen)).
Proof.
  intros Hk Hv Hs Hsum.
  pose proof (uvarintLen_range (wrap_uint32 keyLen)) as Hku.
  pose proof (uvarintLen_range (wrap_uint32 valueLen)) as Hvu.
  assert (H2 : 2 ^ 63 = 9223372036854775808) by reflexivity.
  destruct (Z.rem numEntries restartInterval =? 0); unwrap_int; lia.
Qed.

(** C4, as amended: without size-class hints a block with no entry never
    flushes; a block with entries flushes when its estimated size is at or
    above blockSize, never flushes when it is below blockSize and at or below
    blockSizeThreshold, and strictly between the two flushes exactly when the
    estimated size plus the entry and its overhead (the restart slot of 4
    bytes when the entry count is a multiple of the restart interval, the 4
    bytes of the shared-length field, the varints of the key length and of
    the value length) exceeds blockSize. *)
Theorem shouldFlush_without_hints
    (keyLen valueLen restartInterval est numEntries : Z) (o : flushDecisionOptions) :
  0 <= keyLen -> 0 <= valueLen -> 0 <= est ->
  est + keyLen + valueLen + 20 < 2 ^ 63 ->
  restartInterval <> 0 ->
  let decision :=
    shouldFlushWithHints keyLen valueLen restartInterval est numEntries o [] in
  let overhead :=
    (if Z.rem numEntries restartInterval =? 0 then 4 else 0) + 4
    + uvarintLen (wrap_uint32 keyLen) + uvarintLen (wrap_uint32 valueLen) in
  (numEntries = 0 -> decision = Some false)
  /\ (numEntries <> 0 ->
      (blockSize o <= est -> decision = Some true)
      /\ (est < blockSize o -> est <= blockSizeThreshold o -> decision = Some false)
      /\ (blockSizeThreshold o < est < blockSize o ->
          decision = Some (blockSize o <? est + keyLen + valueLen + overhead))).
Proof.
  intros Hk Hv He Hsum Hri decision overhead.
  subst decision overhead. unfold shouldFlushWithHints.
  split.
  - intros ->. reflexivity.
  - intros Hn.
    destruct (Z.eqb_spec numEntries 0) as [|_]; [contradiction|].
    cbn [len length Z.of_nat Z.eqb].
    unfold shouldFlushWithoutHints.
    repeat split.
    + intros Hbig. destruct (Z.leb_spec (blockSize o) est); [reflexivity|lia].
    + intros Hsmall Hthr.
      destruct (Z.leb_spec (blockSize o) est); [lia|].
      destruct (Z.leb_spec est (blockSizeThreshold o)); [reflexivity|lia].
    + intros [Hlo Hhi].
      destruct (Z.leb_spec (blockSize o) est); [lia|].
      destruct (Z.leb_spec est (blockSizeThreshold o)); [lia|].
      destruct (Z.eqb_spec restartInterval 0); [contradiction|].
      rewrite newSize_exact by assumption. reflexivity.
Qed.

End FlushFacts.

Definition sampleFlushOptions : flushDecisionOptions :=
  {| blockSize := 100; blockSizeThreshold := 90; sizeClassAwareThreshold := 60 |}.

(** An entry of 20 + 30 bytes offered to a block of 95 bytes holding three
    entries: strictly between the threshold and the target, and the new size
    of 151 exceeds the target, so the block flushes. *)
Lemma shouldFlush_without_hints_witness :
  (0 <= 20 /\ 0 <= 30 /\ 0 <= 95 /\ 95 + 20 + 30 + 20 < 2 ^ 63 /\ 16 <> 0)
  /\ shouldFlushWithHints (decls := sampleDeclarations) 20 30 16 95 3
                          sampleFlushOptions [] = Some true.
Proof.
  split; [repeat split; try lia; reflexivity|].
  destruct (shouldFlush_without_hints (decls := sampleDeclarations)
              20 30 16 95 3 sampleFlushOptions
              ltac:(lia) ltac:(lia) ltac:(lia) ltac:(reflexivity) ltac:(lia))
    as [_ H].
  destruct (H ltac:(lia)) as (_ & _ & Hbetween).
  rewrite Hbetween by (cbn; lia). reflexivity.
Defined.

(** C4 as stated fails where the estimated size equals blockSizeThreshold:
    a block of exactly 90 bytes (target 100, threshold 90) is neither at or
    above blockSize nor below the threshold, the entry would take it to 116
    bytes, past the target, and yet the decision is not to flush. *)
Lemma shouldFlush_at_threshold_counterexample :
  let o := sampleFlushOptions in
  let decision := shouldFlushWithHints (decls := sampleDeclarations) 20 0 16 90 3 o [] in
  let newSize := 90 + 20 + 0 + (4 + uvarintLen (wrap_uint32 20) + uvarintLen (wrap_uint32 0)) in
  ~ ((blockSize o <= 90 -> decision = Some true)
     /\ (90 < blockSizeThreshold o -> decision = Some false)
     /\ (~ blockSize o <= 90 -> ~ 90 < blockSizeThreshold o ->
         (decision = Some true <-> blockSize o < newSize))).
Proof.
  cbv zeta. intros (_ & _ & H).
  assert (Hd : shouldFlushWithHints (decls := sampleDeclarations) 20 0 16 90 3
                 sampleFlushOptions [] = Some false) by reflexivity.
  rewrite Hd in H.
  destruct (H ltac:(cbn; lia) ltac:(cbn; lia)) as [_ H'].
  discriminate H'. vm_compute. reflexivity.
Qed.

Lemma blockSizeClass_range (size : Z) (hints : list Z) (sizeClass : Z) (ok : bool) :
  Forall (fun h => 0 <= h < 2 ^ 63) hints ->
  blockSizeClass size hints = (sizeClass, ok) ->
  -1 <= sizeClass < 2 ^ 63.
Proof.
  intros Hall. unfold blockSizeClass.
  destruct (BinarySearch hints size) as [idx found].
  destruct (idx =? len hints).
  - intros [= <- _]. lia.
  - intros [= <- _].
    destruct (nth_in_or_default (Z.to_nat idx) hints 0) as [Hin | ->].
    + rewrite Forall_forall in Hall. specialize (Hall _ Hin). lia.
    + lia.
Qed.

Section HintFacts.

Context {decls : Declarations}.

(** C5, as amended: with size-class hints a block with no entry never
    flushes; a block whose size plus the cache metadata is at or below
    sizeClassAwareThreshold never flushes, nor does one for which that size
    plus the entry and an allowance of 18 bytes stays within blockSize.
    Past these gates: when no hinted class can hold the block with its
    metadata the rule without hints decides, so the block flushes if its
    estimated size is at or above blockSize; when a hinted class holds it and
    its size plus metadata is at or above blockSize, it flushes exactly when
    the next entry would take it past that class (it does not always
    flush); and when its size plus metadata is below blockSize, it flushes
    early exactly when the size after the next entry fits a hinted class
    whose slack is at least the slack in the current class, and that class is
    then a larger one. *)
Theorem shouldFlush_with_hints
    (keyLen valueLen restartInterval est numEntries : Z) (o : flushDecisionOptions)
    (hints : list Z) :
  0 <= keyLen -> 0 <= valueLen -> 0 <= est -> 0 <= ValueMetadataSize ->
  est + ValueMetadataSize + keyLen + valueLen + 20 < 2 ^ 63 ->
  restartInterval <> 0 ->
  hints <> [] ->
  Forall (fun h => 0 <= h < 2 ^ 63) hints ->
  let size := est + ValueMetadataSize in
  let newSize :=
    size + keyLen + valueLen
    + ((if Z.rem numEntries restartInterval =? 0 then 4 else 0) + 4
       + uvarintLen (wrap_uint32 keyLen) + uvarintLen (wrap_uint32 valueLen)) in
  let decision :=
    shouldFlushWithHints keyLen valueLen restartInterval est numEntries o hints in
  (numEntries = 0 -> decision = Some false)
  /\ (numEntries <> 0 ->
      (size <= sizeClassAwareThreshold o -> decision = Some false)
      /\ (size + keyLen + valueLen + 18 <= blockSize o -> decision = Some false)
      /\ (sizeClassAwareThreshold o < size ->
          blockSize o < size + keyLen + valueLen + 18 ->
          forall sizeClass ok, blockSizeClass size hints = (sizeClass, ok) ->
          (ok = false ->
           decision = shouldFlushWithoutHints keyLen valueLen restartInterval est
                                              numEntries o
           /\ (blockSize o <= est -> decision = Some true))
          /\ (ok = true -> blockSize o <= size ->
              decision = Some (sizeClass <? newSize))
          /\ (ok = true -> size < blockSize o ->
              forall newClass ok', blockSizeClass newSize hints = (newClass, ok') ->
              decision = Some (ok' && (sizeClass - size <=? newClass - newSize))
              /\ (decision = Some true -> sizeClass < newClass)))).
Proof.
  intros Hk Hv He Hm Hsum Hri Hhints Hall size newSize decision.
  assert (Hlen : (len hints =? 0) = false).
  { destruct hints; [contradiction|]. unfold len. cbn [length].
    apply Z.eqb_neq. lia. }
  pose proof (uvarintLen_range (wrap_uint32 keyLen)) as Hku.
  pose proof (uvarintLen_range (wrap_uint32 valueLen)) as Hvu.
  assert (Hnew : size < newSize).
  { subst newSize. destruct (Z.rem numEntries restartInterval =? 0); lia. }
  assert (HnewB : newSize < 2 ^ 63).
  { subst newSize size. destruct (Z.rem numEntries restartInterval =? 0); lia. }
  subst decision. unfold shouldFlushWithHints.
  split; [intros ->; reflexivity|].
  intros Hn.
  destruct (Z.eqb_spec numEntries 0) as [|_]; [contradiction|].
  rewrite Hlen.
  rewrite (wrap_int_small (est + ValueMetadataSize)) by lia.
  rewrite (wrap_int_small (est + ValueMetadataSize + keyLen + valueLen + 18)) by lia.
  fold size.
  repeat split.
  - intros Hgate.
    destruct (Z.leb_spec size (sizeClassAwareThreshold o)); [reflexivity|lia].
  - intros Hgate.
    destruct (Z.leb_spec (size + keyLen + valueLen + 18) (blockSize o)); [|lia].
    now rewrite orb_true_r.
  - destruct (Z.leb_spec size (sizeClassAwareThreshold o)); [lia|].
    destruct (Z.leb_spec (size + keyLen + valueLen + 18) (blockSize o)); [lia|].
    cbn [orb]. rewrite H1. subst ok. reflexivity.
  - intros Hbig.
    destruct (Z.leb_spec size (sizeClassAwareThreshold o)); [lia|].
    destruct (Z.leb_spec (size + keyLen + valueLen + 18) (blockSize o)); [lia|].
    cbn [orb]. rewrite H1. subst ok. cbn [negb].
    unfold shouldFlushWithoutHints.
    destruct (Z.leb_spec (blockSize o) est); [reflexivity|lia].
  - intros Hbig.
    destruct (Z.leb_spec size (sizeClassAwareThreshold o)); [lia|].
    destruct (Z.leb_spec (size + keyLen + valueLen + 18) (blockSize o)); [lia|].
    cbn [orb]. rewrite H1. subst ok. cbn [negb].
    destruct (Z.eqb_spec restartInterval 0); [contradiction|].
    unfold size at 1. rewrite newSize_exact by (subst size; lia).
    fold size. fold newSize.
    destruct (Z.ltb_spec size (blockSize o)); [lia|]. reflexivity.
  - destruct (Z.leb_spec size (sizeClassAwareThreshold o)); [lia|].
    destruct (Z.leb_spec (size + keyLen + valueLen + 18) (blockSize o)); [lia|].
    cbn [orb]. rewrite H1. subst ok. cbn [negb].
    destruct (Z.eqb_spec restartInterval 0); [contradiction|].
    unfold size at 1. rewrite newSize_exact by (subst size; lia).
    fold size. fold newSize.
    destruct (Z.ltb_spec size (blockSize o)); [|lia].
    rewrite H4.
    pose proof (blockSizeClass_range _ _ _ _ Hall H1) as Hc.
    pose proof (blockSizeClass_range _ _ _ _ Hall H4) as Hc'.
    rewrite (wrap_int_small (sizeClass - size)) by (subst size; lia).
    rewrite (wrap_int_small (newClass - newSize)) by (subst size; lia).
    destruct (ok' && (sizeClass - size <=? newClass - newSize)); reflexivity.
  - destruct (Z.leb_spec size (sizeClassAwareThreshold o)); [lia|].
    destruct (Z.leb_spec (size + keyLen + valueLen + 18) (blockSize o)); [lia|].
    cbn [orb]. rewrite H1. subst ok. cbn [negb].
    destruct (Z.eqb_spec restartInterval 0); [contradiction|].
    unfold size at 1. rewrite newSize_exact by (subst size; lia).
    fold size. fold newSize.
    destruct (Z.ltb_spec size (blockSize o)); [|lia].
    rewrite H4.
    pose proof (blockSizeClass_range _ _ _ _ Hall H1) as Hc.
    pose proof (blockSizeClass_range _ _ _ _ Hall H4) as Hc'.
    rewrite (wrap_int_small (sizeClass - size)) by (subst size; lia).
    rewrite (wrap_int_small (newClass - newSize)) by (subst size; lia).
    destruct ok'; cbn [andb]; [|discriminate].
    destruct (Z.leb_spec (sizeClass - size) (newClass - newSize)); [|discriminate].
    intros _. lia.
Qed.

End HintFacts.

Definition sampleFlushOptions4K : flushDecisionOptions :=
  {| blockSize := 4096; blockSizeThreshold := 3687; sizeClassAwareThreshold := 2458 |}.

(** A block of 5000 bytes, above the target of 4096, with the classes 4096
    and 8192 hinted: with its metadata it sits in the class of 8192 bytes,
    the next entry keeps it there, and the block does not flush. *)
Lemma shouldFlush_with_hints_witness :
  (0 <= 10 /\ 0 <= 5000 /\ 0 <= ValueMetadataSize (Declarations := sampleDeclarations)
   /\ 5000 + 32 + 10 + 10 + 20 < 2 ^ 63 /\ 16 <> 0 /\ [4096; 8192] <> []
   /\ Forall (fun h => 0 <= h < 2 ^ 63) [4096; 8192])
  /\ shouldFlushWithHints (decls := sampleDeclarations) 10 10 16 5000 3
                          sampleFlushOptions4K [4096; 8192]
     = Some (8192 <? 5032 + 10 + 10 + (0 + 4 + 1 + 1)).
Proof.
  assert (Hall : Forall (fun h => 0 <= h < 2 ^ 63) [4096; 8192]).
  { repeat constructor; lia. }
  split.
  { repeat split; try (cbn; lia); try discriminate; exact Hall. }
  destruct (shouldFlush_with_hints (decls := sampleDeclarations)
              10 10 16 5000 3 sampleFlushOptions4K [4096; 8192]
              ltac:(lia) ltac:(lia) ltac:(lia) ltac:(cbn; lia) ltac:(reflexivity)
              ltac:(lia) ltac:(discriminate) Hall) as [_ H].
  destruct (H ltac:(lia)) as (_ & _ & Hpast).
  destruct (Hpast ltac:(cbn; lia) ltac:(cbn; lia) 8192 true ltac:(reflexivity))
    as (_ & Hclass & _).
  exact (Hclass eq_refl ltac:(cbn; lia)).
Defined.

(** C5 as stated fails for a block above blockSize that a hinted class still
    holds: the block of the witness is above the target and does not
    flush. *)
Lemma shouldFlush_above_blockSize_counterexample :
  let o := sampleFlushOptions4K in
  let decision :=
    shouldFlushWithHints (decls := sampleDeclarations) 10 10 16 5000 3 o [4096; 8192] in
  ~ (blockSize o < 5000 -> decision = Some true).
Proof.
  cbv zeta. intros H.
  specialize (H ltac:(cbn; lia)).
  vm_compute in H. discriminate H.
Qed.

(** ** Blocks on the file *)

Section BlockFacts.

Context {decls : Declarations} {comparer : Comparer} {format : BlockFormat}
        {codec : Codec} {collab : Collaborators}.




End BlockFacts.

(** ** Range deletions *)

Section TombstoneFacts.

Context {decls : Declarations} {comparer : Comparer} {format : BlockFormat}
        {codec : Codec} {collab : Collaborators}.

Ltac tombstone_leaf :=
  cbn [fst snd]; repeat split; intros;
  try lia; try reflexivity; try discriminate; try congruence;
  try (exfalso;
       match goal with
       | H : ~ (Some _ <> None) |- _ => apply H; discriminate
       | H : None <> None |- _ => apply H; reflexivity
       end);
  try tauto;
  try (match goal with H : _ \/ _ |- _ => destruct H end; [lia | contradiction]).

(** C3, as amended: for a tombstone added in the v2 format with key-order
    checks enabled, after at least one prior tombstone.  If the previous
    start compares above the new start, the call errs.  If the start user
    keys compare equal, the call errs unless the end keys compare equal and
    the new sequence number is strictly less than the previous one.  If the
    new start strictly exceeds the previous start, the call errs exactly when
    the previous tombstone's end key exceeds the new start key or the new
    key's trailer is the range-delete sentinel; the sentinel is refused in
    every case.  A call that errs latches its error and leaves the
    range-del block as it was; a call that does not err appends the
    tombstone to the block. *)
Theorem addTombstone_fragmented (w : Writer) (key : InternalKey) (value : bytes) :
  disableKeyOrderChecks w = false ->
  rangeDelV1Format w = false ->
  0 < nEntries (rangeDelBlock w) ->
  let prevKey := getCurKey (rangeDelBlock w) in
  let prevEnd := curValue (rangeDelBlock w) in
  let c := compare (slice_bytes (UserKey prevKey)) (slice_bytes (UserKey key)) in
  let w' := fst (addTombstone w key value) in
  let errs := snd (addTombstone w key value) <> None in
  (0 < c -> errs)
  /\ (c = 0 ->
      (~ (compare prevEnd value = 0 /\ SeqNum key < SeqNum prevKey) -> errs)
      /\ (compare prevEnd value = 0 -> SeqNum key < SeqNum prevKey ->
          Trailer key <> InternalKeyRangeDeleteSentinel -> ~ errs))
  /\ (c < 0 ->
      (errs <-> 0 < compare prevEnd (slice_bytes (UserKey key))
                \/ Trailer key = InternalKeyRangeDeleteSentinel))
  /\ (Trailer key = InternalKeyRangeDeleteSentinel -> errs)
  /\ (errs -> err w' = snd (addTombstone w key value)
              /\ rangeDelBlock w' = rangeDelBlock w)
  /\ (~ errs -> rangeDelBlock w' = blockWriter_add (rangeDelBlock w) key value).
Proof.
  intros Hchecks Hv1 Hn prevKey prevEnd c w' errs.
  subst w' errs.
  remember (addTombstone w key value) as r eqn:Hr.
  unfold addTombstone in Hr.
  match type of Hr with
  | context [if Trailer key =? _ then _ else ?T] =>
      remember T as commit eqn:Hcommit
  end.
  assert (Hsnd : snd commit = None) by (subst commit; reflexivity).
  assert (Hblk : rangeDelBlock (fst commit)
                 = blockWriter_add (rangeDelBlock w) key value).
  { subst commit. cbv zeta.
    change (rangeDelV1Format (w<|meta := updateSeqNum (meta w) (SeqNum key)|>))
      with (rangeDelV1Format w).
    rewrite Hv1.
    match goal with
    | |- context [if ?b then _ else _] => destruct b
    end; reflexivity. }
  clear Hcommit.
  destruct (disableKeyOrderChecks w); [discriminate|].
  destruct (rangeDelV1Format w); [discriminate|].
  cbn [negb andb] in Hr.
  destruct (Z.ltb_spec 0 (nEntries (rangeDelBlock w))) as [_|]; [|lia].
  fold prevKey in Hr. fold c in Hr. fold prevEnd in Hr.
  destruct (Z.ltb_spec 0 c) as [Hpos|Hnpos]; [subst r; tombstone_leaf|].
  destruct (Z.eqb_spec c 0) as [Hzero|Hnz].
  - destruct (Z.eqb_spec (compare prevEnd value) 0) as [Hend|Hend]; cbn [negb] in Hr;
      [|subst r; tombstone_leaf].
    destruct (Z.leb_spec (SeqNum prevKey) (SeqNum key)) as [Hseq|Hseq];
      [subst r; tombstone_leaf|].
    destruct (Z.eqb_spec (Trailer key) InternalKeyRangeDeleteSentinel) as [Hs|Hs];
      subst r; [tombstone_leaf|].
    rewrite Hsnd, Hblk. tombstone_leaf.
  - destruct (Z.ltb_spec 0 (compare prevEnd (slice_bytes (UserKey key)))) as [Hov|Hov];
      [subst r; tombstone_leaf|].
    destruct (Z.eqb_spec (Trailer key) InternalKeyRangeDeleteSentinel) as [Hs|Hs];
      subst r; [tombstone_leaf|].
    rewrite Hsnd, Hblk. tombstone_leaf.
Qed.

End TombstoneFacts.

(** After [a,d)@9, the tombstone [a,d)@5 has the same start and end and a
    smaller sequence number: the call is accepted and the tombstone is
    appended. *)
Lemma addTombstone_fragmented_witness :
  (disableKeyOrderChecks (writerAfter [(rangeDelKey [97] 9, keyOf [100])]) = false
   /\ rangeDelV1Format (writerAfter [(rangeDelKey [97] 9, keyOf [100])]) = false
   /\ 0 < nEntries (rangeDelBlock (writerAfter [(rangeDelKey [97] 9, keyOf [100])])))
  /\ ~ snd (sampleAddTombstone (writerAfter [(rangeDelKey [97] 9, keyOf [100])])
                               (rangeDelKey [97] 5) (keyOf [100])) <> None.
Proof.
  assert (H1 : disableKeyOrderChecks (writerAfter [(rangeDelKey [97] 9, keyOf [100])])
               = false) by (vm_compute; reflexivity).
  assert (H2 : rangeDelV1Format (writerAfter [(rangeDelKey [97] 9, keyOf [100])])
               = false) by (vm_compute; reflexivity).
  assert (H3 : 0 < nEntries (rangeDelBlock
                               (writerAfter [(rangeDelKey [97] 9, keyOf [100])])))
    by (vm_compute; reflexivity).
  split; [auto|].
  destruct (addTombstone_fragmented
              (decls := sampleDeclarations) (comparer := bytewiseComparer)
              (writerAfter [(rangeDelKey [97] 9, keyOf [100])])
              (rangeDelKey [97] 5) (keyOf [100]) H1 H2 H3) as (_ & Heq & _).
  destruct (Heq ltac:(vm_compute; reflexivity)) as [_ Hok].
  apply Hok.
  - vm_compute; reflexivity.
  - vm_compute; reflexivity.
  - vm_compute; discriminate.
Defined.

(** C3 as stated fails on the sentinel: after [a,b)@5, a tombstone starting
    at c whose trailer is the range-delete sentinel starts strictly after
    the previous start, the previous end b does not exceed c, and yet the
    call errs. *)
Lemma addTombstone_sentinel_counterexample :
  let w := writerAfter [(rangeDelKey [97] 5, keyOf [98])] in
  let key := sentinelKey [99] in
  compare (Comparer := bytewiseComparer)
          (slice_bytes (UserKey (getCurKey (rangeDelBlock w))))
          (slice_bytes (UserKey key)) < 0
  /\ ~ 0 < compare (Comparer := bytewiseComparer)
                   (curValue (rangeDelBlock w)) (slice_bytes (UserKey key))
  /\ snd (sampleAddTombstone w key (keyOf [100])) = Some errRangeDeleteSentinel.
Proof.
  cbv zeta. split; [|split].
  - vm_compute; reflexivity.
  - vm_compute. intros H; discriminate H.
  - vm_compute; reflexivity.
Qed.

(** The three runs of the range-deletion contract: [a,d)@9 then [a,d)@5 is
    accepted and a repeat of [a,d)@5 is refused; [a,c)@9 then [b,d)@8 is
    refused as overlapping. *)
Example tombstone_runs :
  errorsOf (sampleAddAll (sampleNewWriter sampleOptions)
              [(rangeDelKey [97] 9, keyOf [100]); (rangeDelKey [97] 5, keyOf [100]);
               (rangeDelKey [97] 5, keyOf [100])])
  = Some [None; None;
          Some (errKeysStrictlyIncreasing (rangeDelKey [97] 5) (rangeDelKey [97] 5))]
  /\ errorsOf (sampleAddAll (sampleNewWriter sampleOptions)
                 [(rangeDelKey [97] 9, keyOf [99]); (rangeDelKey [98] 8, keyOf [100])])
     = Some [None; Some errOverlappingTombstones].
Proof. split; vm_compute; reflexivity. Qed.

(** ** Range keys *)

Section SpanFacts.

Context {decls : Declarations} {comparer : Comparer} {format : BlockFormat}
        {codec : Codec} {collab : Collaborators}.

(** The copy into the range-key buffer holds the bytes it was given and
    leaves the fragmenter and the range-key block alone. *)
Lemma tempRangeKeyCopy_frame (w w' : Writer) (k : bytes) (s : slice) :
  tempRangeKeyCopy w k = (w', s) ->
  slice_bytes s = k /\ fragmenter w' = fragmenter w
  /\ rangeKeyBlock w' = rangeKeyBlock w.
Proof.
  unfold tempRangeKeyCopy.
  destruct (Z.eqb_spec (len k) 0) as [Hk|Hk]; intros H; inversion H; subst; clear H.
  - repeat split. destruct k as [|b k]; [reflexivity|].
    unfold len in Hk. cbn [length] in Hk. lia.
  - repeat split.
Qed.

(** What [addRangeKeySpan] does with a span it refuses. *)
Lemma addRangeKeySpan_rejected (w : Writer) (span : Span) :
  0 <= compare (slice_bytes (Start span)) (slice_bytes (End span))
  \/ (exists s, fragmenter_Start (fragmenter w) = Some s
                /\ 0 < compare s (slice_bytes (Start span))) ->
  exists e, addRangeKeySpan w span = Return (w, Some e)
            /\ (0 <= compare (slice_bytes (Start span)) (slice_bytes (End span))
                -> e = errStartNotBeforeEnd)
            /\ (compare (slice_bytes (Start span)) (slice_bytes (End span)) < 0
                -> e = errSpansInOrder).
Proof.
  intros Hbad. unfold addRangeKeySpan.
  destruct (Z.leb_spec 0 (compare (slice_bytes (Start span)) (slice_bytes (End span))))
    as [Hge|Hlt].
  - exists errStartNotBeforeEnd. repeat split; intros; lia.
  - destruct Hbad as [Hge|(s & Hs & Hgt)]; [lia|].
    rewrite Hs. cbn [slice_is_nil slice_bytes negb andb].
    destruct (Z.ltb_spec 0 (compare s (slice_bytes (Start span)))) as [_|]; [|lia].
    exists errSpansInOrder. repeat split; intros; lia.
Qed.

(** C10: a call to RangeKeySet, RangeKeyUnset or RangeKeyDelete whose start
    key compares greater than or equal to its end key returns the error
    that the start key must be strictly less than the end key; one whose
    start key lies below the current start of the fragmenter (the
    fragmenter's start compares greater than it) returns the error that
    spans must be added in order.  In both cases no span reaches the
    fragmenter, and nothing is emitted to the range-key block. *)
Theorem rangeKey_span_rejected (w : Writer) (start end' suffix value : bytes)
    (r : outcome (Writer * option error)) :
  0 <= compare start end'
  \/ (exists s, fragmenter_Start (fragmenter w) = Some s /\ 0 < compare s start) ->
  In r [RangeKeySet w start end' suffix value;
        RangeKeyUnset w start end' suffix;
        RangeKeyDelete w start end'] ->
  exists w' e,
    r = Return (w', Some e)
    /\ fragmenter w' = fragmenter w
    /\ rangeKeyBlock w' = rangeKeyBlock w
    /\ (0 <= compare start end' -> e = errStartNotBeforeEnd)
    /\ (compare start end' < 0 -> e = errSpansInOrder).
Proof.
  intros Hbad Hin.
  assert (Hspan : forall w1 s1 w2 s2 w3 keys,
            tempRangeKeyCopy w start = (w1, s1) ->
            tempRangeKeyCopy w1 end' = (w2, s2) ->
            fragmenter w3 = fragmenter w2 ->
            rangeKeyBlock w3 = rangeKeyBlock w2 ->
            exists w' e,
              addRangeKeySpan w3 {| Start := s1; End := s2; Keys := keys |}
              = Return (w', Some e)
              /\ fragmenter w' = fragmenter w
              /\ rangeKeyBlock w' = rangeKeyBlock w
              /\ (0 <= compare start end' -> e = errStartNotBeforeEnd)
              /\ (compare start end' < 0 -> e = errSpansInOrder)).
  { intros w1 s1 w2 s2 w3 keys H1 H2 Hf Hb.
    apply tempRangeKeyCopy_frame in H1. destruct H1 as (Hs1 & Hf1 & Hb1).
    apply tempRangeKeyCopy_frame in H2. destruct H2 as (Hs2 & Hf2 & Hb2).
    destruct (addRangeKeySpan_rejected w3 {| Start := s1; End := s2; Keys := keys |})
      as (e & He & Hge & Hlt).
    { cbn [Start End]. rewrite Hs1, Hs2, Hf, Hf2, Hf1. exact Hbad. }
    cbn [Start End] in Hge, Hlt. rewrite Hs1, Hs2 in Hge, Hlt.
    exists w3, e. repeat split; try assumption; congruence. }
  cbn [In] in Hin. destruct Hin as [Hr|[Hr|[Hr|[]]]]; subst r.
  - unfold RangeKeySet.
    destruct (tempRangeKeyCopy w start) as [w1 s1] eqn:H1.
    destruct (tempRangeKeyCopy w1 end') as [w2 s2] eqn:H2.
    destruct (tempRangeKeyCopy w2 suffix) as [w3 s3] eqn:H3.
    destruct (tempRangeKeyCopy w3 value) as [w4 s4] eqn:H4.
    apply tempRangeKeyCopy_frame in H3. destruct H3 as (_ & Hf3 & Hb3).
    apply tempRangeKeyCopy_frame in H4. destruct H4 as (_ & Hf4 & Hb4).
    eapply Hspan; eauto; congruence.
  - unfold RangeKeyUnset.
    destruct (tempRangeKeyCopy w start) as [w1 s1] eqn:H1.
    destruct (tempRangeKeyCopy w1 end') as [w2 s2] eqn:H2.
    destruct (tempRangeKeyCopy w2 suffix) as [w3 s3] eqn:H3.
    apply tempRangeKeyCopy_frame in H3. destruct H3 as (_ & Hf3 & Hb3).
    eapply Hspan; eauto.
  - unfold RangeKeyDelete.
    destruct (tempRangeKeyCopy w start) as [w1 s1] eqn:H1.
    destruct (tempRangeKeyCopy w1 end') as [w2 s2] eqn:H2.
    eapply Hspan; eauto.
Qed.

End SpanFacts.

(** On a fresh writer the range key set [b,a) is refused with the error on
    the bounds; after [c,e) the range key delete [a,b) is refused as out of
    order.  The fragmenter keeps what it held. *)
Lemma rangeKey_span_rejected_witness :
  (exists w' e,
      sampleRangeKeySet (sampleNewWriter sampleOptions)
                        (keyOf [98]) (keyOf [97]) [] (keyOf [1])
      = Return (w', Some e)
      /\ fragmenter w' = fragmenter (sampleNewWriter sampleOptions)
      /\ e = errStartNotBeforeEnd)
  /\ (exists w' e,
         sampleRangeKeyDelete writerAfterRangeKeySet (keyOf [97]) (keyOf [98])
         = Return (w', Some e)
         /\ fragmenter w' = fragmenter writerAfterRangeKeySet
         /\ e = errSpansInOrder).
Proof.
  split.
  - assert (Hbad : 0 <= compare (Comparer := bytewiseComparer) (keyOf [98]) (keyOf [97])
                   \/ (exists s,
                          fragmenter_Start (fragmenter (sampleNewWriter sampleOptions))
                          = Some s
                          /\ 0 < compare (Comparer := bytewiseComparer) s (keyOf [98]))).
    { left. vm_compute. discriminate. }
    destruct (rangeKey_span_rejected
                (decls := sampleDeclarations) (comparer := bytewiseComparer)
                (sampleNewWriter sampleOptions) (keyOf [98]) (keyOf [97]) []
                (keyOf [1])
                (sampleRangeKeySet (sampleNewWriter sampleOptions)
                                   (keyOf [98]) (keyOf [97]) [] (keyOf [1]))
                Hbad (or_introl eq_refl))
      as (w' & e & Hr & Hf & _ & He & _).
    exists w', e. repeat split; [exact Hr | exact Hf |].
    apply He. vm_compute; discriminate.
  - assert (Hbad : 0 <= compare (Comparer := bytewiseComparer) (keyOf [97]) (keyOf [98])
                   \/ (exists s,
                          fragmenter_Start (fragmenter writerAfterRangeKeySet) = Some s
                          /\ 0 < compare (Comparer := bytewiseComparer) s (keyOf [97]))).
    { right. exists (keyOf [99]). split; vm_compute; reflexivity. }
    destruct (rangeKey_span_rejected
                (decls := sampleDeclarations) (comparer := bytewiseComparer)
                writerAfterRangeKeySet (keyOf [97]) (keyOf [98]) [] []
                (sampleRangeKeyDelete writerAfterRangeKeySet (keyOf [97]) (keyOf [98]))
                Hbad (or_intror (or_intror (or_introl eq_refl))))
      as (w' & e & Hr & Hf & _ & _ & He).
    exists w', e. repeat split; [exact Hr | exact Hf |].
    apply He. vm_compute; reflexivity.
Defined.


(** ** The size estimator *)

Lemma sizeEstimate_size_max (s : sizeEstimate) :
  let r := fst (sizeEstimate_size s) in
  let s' := snd (sizeEstimate_size s) in
  emptySize s' = emptySize s
  /\ maxEstimatedSize s <= maxEstimatedSize s'
  /\ (r = maxEstimatedSize s' \/ (maxEstimatedSize s' = 0 /\ r = emptySize s)).
Proof.
  cbv zeta. unfold sizeEstimate_size.
  match goal with
  | |- context [maxEstimatedSize s <? ?t] =>
      generalize t; intros total
  end.
  destruct (Z.ltb_spec (maxEstimatedSize s) total) as [Hlt|Hge].
  - destruct (Z.eqb_spec total 0) as [Hz|Hnz]; cbn [fst snd].
    + split; [reflexivity|]. split; [record.simp; lia|]. right.
      split; [record.simp; lia|reflexivity].
    + split; [reflexivity|]. split; [record.simp; lia|]. left. reflexivity.
  - destruct (Z.eqb_spec (maxEstimatedSize s) 0) as [Hz|Hnz]; cbn [fst snd].
    + split; [reflexivity|]. split; [lia|]. right. split; [lia|reflexivity].
    + split; [reflexivity|]. split; [lia|]. left. reflexivity.
Qed.

Lemma sizeEstimate_run_bound (calls : list sizeEstimateCall) :
  forall s, 0 <= emptySize s <= maxEstimatedSize s ->
  Forall (fun r => maxEstimatedSize s <= r) (fst (sizeEstimate_run s calls))
  /\ StronglySorted Z.le (fst (sizeEstimate_run s calls)).
Proof.
  induction calls as [|c rest IH]; intros s Hs; cbn [sizeEstimate_run].
  - split; constructor.
  - destruct c as [size|t n|d n|].
    + apply (IH (addInflight s size)). exact Hs.
    + specialize (IH (writtenWithTotal s t n)).
      assert (He : emptySize (writtenWithTotal s t n) = emptySize s
                   /\ maxEstimatedSize (writtenWithTotal s t n) = maxEstimatedSize s).
      { unfold writtenWithTotal, writtenWithDelta.
        destruct (0 <? n); split; reflexivity. }
      destruct He as [He Hm]. rewrite He, Hm in IH. exact (IH Hs).
    + specialize (IH (writtenWithDelta s d n)).
      assert (He : emptySize (writtenWithDelta s d n) = emptySize s
                   /\ maxEstimatedSize (writtenWithDelta s d n) = maxEstimatedSize s).
      { unfold writtenWithDelta. destruct (0 <? n); split; reflexivity. }
      destruct He as [He Hm]. rewrite He, Hm in IH. exact (IH Hs).
    + destruct (sizeEstimate_size_max s) as (He & Hm & Hr).
      destruct (sizeEstimate_size s) as [r s1]. cbn [fst snd] in He, Hm, Hr.
      specialize (IH s1). rewrite He in IH.
      destruct (sizeEstimate_run s1 rest) as [rs s2]. cbn [fst snd] in *.
      destruct (IH ltac:(lia)) as [Hall Hsorted].
      assert (Hr' : r = maxEstimatedSize s1) by (destruct Hr as [Hr|[Hz Hr]]; lia).
      split.
      * constructor; [lia|].
        eapply Forall_impl; [|exact Hall]. cbv beta. intros; lia.
      * constructor; [exact Hsorted|].
        eapply Forall_impl; [|exact Hall]. cbv beta. intros; lia.
Qed.

(** The values that [sizeEstimate.size] returns never decrease, whatever
    calls of addInflight, writtenWithTotal and writtenWithDelta come between
    them, for an estimator whose empty size does not exceed the largest
    estimate it has recorded (a fresh estimator that was not given an empty
    size is one). *)
Theorem sizeEstimate_size_never_decreases (s : sizeEstimate)
    (calls : list sizeEstimateCall) :
  0 <= emptySize s <= maxEstimatedSize s ->
  StronglySorted Z.le (fst (sizeEstimate_run s calls)).
Proof.
  intros Hs. exact (proj2 (sizeEstimate_run_bound calls s Hs)).
Qed.

(** A fresh estimator over three writes and two readings. *)
Lemma sizeEstimate_size_never_decreases_witness :
  0 <= emptySize sizeEstimate_zero <= maxEstimatedSize sizeEstimate_zero
  /\ StronglySorted Z.le
       (fst (sizeEstimate_run sizeEstimate_zero
               [CallAddInflight 10; CallSize; CallWrittenWithDelta 7 10;
                CallAddInflight 100; CallSize; CallWrittenWithTotal 50 100; CallSize])).
Proof.
  split; [cbn; lia|].
  apply (sizeEstimate_size_never_decreases sizeEstimate_zero). cbn; lia.
Defined.

(** An estimator that was given an empty size reports it while nothing has
    been written, and a smaller total afterwards: with an empty size of 4, a
    reading of 4 is followed by a reading of 1 once one byte is written. *)
Example sizeEstimate_size_empty_then_smaller :
  fst (sizeEstimate_run (sizeEstimate_init sizeEstimate_zero 4)
         [CallSize; CallWrittenWithDelta 1 0; CallSize]) = [4; 1].
Proof. vm_compute. reflexivity. Qed.

(** ** Sequence numbers *)

(** [updateSeqNum] widens the bounds to hold the sequence number and never
    narrows them: after a run of updates every sequence number of the run is
    within the bounds, the smallest bound is the least of the old bound and
    the run, and the largest bound the greatest. *)
Theorem updateSeqNums_bounds (seqNums : list Z) (m : WriterMetadata) :
  let m' := updateSeqNums m seqNums in
  SmallestSeqNum m' <= SmallestSeqNum m
  /\ LargestSeqNum m <= LargestSeqNum m'
  /\ (SmallestSeqNum m' = SmallestSeqNum m \/ In (SmallestSeqNum m') seqNums)
  /\ (LargestSeqNum m' = LargestSeqNum m \/ In (LargestSeqNum m') seqNums)
  /\ Forall (fun s => SmallestSeqNum m' <= s <= LargestSeqNum m') seqNums.
Proof.
  unfold updateSeqNums. revert m.
  induction seqNums as [|s rest IH]; intros m; cbn [fold_left].
  - repeat split; try lia; try (left; reflexivity); constructor.
  - specialize (IH (updateSeqNum m s)). cbv zeta in IH.
    destruct IH as (Hs & Hl & Hsin & Hlin & Hall).
    assert (Hstep : SmallestSeqNum (updateSeqNum m s) = Z.min (SmallestSeqNum m) s
                    /\ LargestSeqNum (updateSeqNum m s) = Z.max (LargestSeqNum m) s).
    { unfold updateSeqNum.
      destruct (Z.ltb_spec s (SmallestSeqNum m));
        match goal with
        | |- context [LargestSeqNum ?x <? s] =>
            destruct (Z.ltb_spec (LargestSeqNum x) s) as [Hc|Hc]
        end; try record.simp; lia. }
    destruct Hstep as [Hmin Hmax]. rewrite Hmin in *. rewrite Hmax in *.
    split; [lia|]. split; [lia|].
    split; [|split].
    + destruct Hsin as [Hsin|Hsin]; [|right; right; exact Hsin].
      rewrite Hsin. destruct (Z.min_spec (SmallestSeqNum m) s) as [[_ ->]|[_ ->]];
        [left; reflexivity | right; left; reflexivity].
    + destruct Hlin as [Hlin|Hlin]; [|right; right; exact Hlin].
      rewrite Hlin. destruct (Z.max_spec (LargestSeqNum m) s) as [[_ ->]|[_ ->]];
        [right; left; reflexivity | left; reflexivity].
    + constructor; [lia | exact Hall].
Qed.

(** ** Size classes *)

(** The binary search on hints in ascending order stops at the first
    position whose hint is not below the target. *)
Lemma BinarySearch_loop_first (x : list Z) (target : Z) :
  (forall a b, 0 <= a <= b -> b < len x ->
               nth (Z.to_nat a) x 0 <= nth (Z.to_nat b) x 0) ->
  forall (fuel : nat) (i j : Z),
    0 <= i <= j -> j <= len x ->
    j - i < Z.of_nat fuel ->
    (forall k, 0 <= k < i -> nth (Z.to_nat k) x 0 < target) ->
    (forall k, j <= k < len x -> target <= nth (Z.to_nat k) x 0) ->
    let r := BinarySearch_loop fuel x target i j in
    0 <= r <= len x
    /\ (forall k, 0 <= k < r -> nth (Z.to_nat k) x 0 < target)
    /\ (forall k, r <= k < len x -> target <= nth (Z.to_nat k) x 0).
Proof.
  intros Hsorted.
  induction fuel as [|fuel IH]; intros i j Hij Hj Hfuel Hlow Hhigh; [lia|].
  cbn [BinarySearch_loop].
  destruct (Z.ltb_spec i j) as [Hlt|Hge].
  - rewrite Z.shiftr_div_pow2 by lia. change (2 ^ 1) with 2.
    assert (Hh : i <= (i + j) / 2 < j).
    { split; [apply Z.div_le_lower_bound; lia | apply Z.div_lt_upper_bound; lia]. }
    destruct (Z.ltb_spec (nth (Z.to_nat ((i + j) / 2)) x 0) target) as [Hx|Hx].
    + apply IH; try lia.
      * intros k Hk.
        assert (Hle := Hsorted k ((i + j) / 2) ltac:(lia) ltac:(lia)). lia.
      * exact Hhigh.
    + apply IH; try lia.
      * exact Hlow.
      * intros k Hk.
        assert (Hle := Hsorted ((i + j) / 2) k ltac:(lia) ltac:(lia)). lia.
  - cbv zeta. assert (i = j) by lia. subst j.
    split; [lia|]. split; assumption.
Qed.

Lemma StronglySorted_nth (x : list Z) :
  StronglySorted Z.le x ->
  forall a b, 0 <= a <= b -> b < len x ->
              nth (Z.to_nat a) x 0 <= nth (Z.to_nat b) x 0.
Proof.
  unfold len.
  induction 1 as [|h t Hs IH Hall]; intros a b Hab Hb; cbn [length] in Hb; [lia|].
  destruct (Z.eq_dec a 0) as [->|Ha].
  - destruct (Z.eq_dec b 0) as [->|Hb0]; [lia|].
    change (Z.to_nat 0) with O. cbn [nth].
    replace (Z.to_nat b) with (S (Z.to_nat (b - 1))) by lia. cbn [nth].
    rewrite Forall_forall in Hall. apply Hall. apply nth_In. lia.
  - replace (Z.to_nat a) with (S (Z.to_nat (a - 1))) by lia.
    replace (Z.to_nat b) with (S (Z.to_nat (b - 1))) by lia. cbn [nth].
    apply IH; lia.
Qed.

(** With the size-class hints in ascending order, [blockSizeClass] returns
    the smallest hinted class that can hold the block, and reports that
    there is none exactly when every hint is below the block size. *)
Theorem blockSizeClass_smallest (size : Z) (hints : list Z) :
  StronglySorted Z.le hints ->
  let '(sizeClass, ok) := blockSizeClass size hints in
  (ok = true ->
   In sizeClass hints /\ size <= sizeClass
   /\ forall h, In h hints -> size <= h -> sizeClass <= h)
  /\ (ok = false -> sizeClass = -1 /\ forall h, In h hints -> h < size).
Proof.
  intros Hsorted.
  assert (Hnth := StronglySorted_nth hints Hsorted).
  unfold blockSizeClass, BinarySearch.
  pose proof (BinarySearch_loop_first hints size Hnth (S (length hints)) 0 (len hints)
                ltac:(pose proof (len_nonneg hints); lia) ltac:(lia)
                ltac:(unfold len; lia) ltac:(intros; lia) ltac:(intros; lia))
    as Hr.
  cbv zeta in Hr.
  set (r := BinarySearch_loop (S (length hints)) hints size 0 (len hints)) in *.
  destruct Hr as (Hrange & Hlow & Hhigh).
  destruct (Z.eqb_spec r (len hints)) as [Hend|Hin].
  - split; [discriminate|]. intros _. split; [reflexivity|].
    intros h Hh. apply (In_nth _ _ 0) in Hh. destruct Hh as (n & Hn & <-).
    specialize (Hlow (Z.of_nat n) ltac:(unfold len in *; lia)).
    rewrite Nat2Z.id in Hlow. exact Hlow.
  - split; [|discriminate]. intros _.
    split; [apply nth_In; unfold len in *; lia|].
    split; [apply Hhigh; lia|].
    intros h Hh Hsize. apply (In_nth _ _ 0) in Hh. destruct Hh as (n & Hn & <-).
    destruct (Z.ltb_spec (Z.of_nat n) r) as [Hlt|Hge].
    + specialize (Hlow (Z.of_nat n) ltac:(lia)). rewrite Nat2Z.id in Hlow. lia.
    + assert (Hle := Hnth r (Z.of_nat n) ltac:(lia) ltac:(unfold len; lia)).
      rewrite Nat2Z.id in Hle. exact Hle.
Qed.

(** With the classes 4096, 8192 and 16384, a block of 5032 bytes goes to
    the class of 8192 bytes. *)
Lemma blockSizeClass_smallest_witness :
  StronglySorted Z.le [4096; 8192; 16384]
  /\ blockSizeClass 5032 [4096; 8192; 16384] = (8192, true)
  /\ forall h, In h [4096; 8192; 16384] -> 5032 <= h -> 8192 <= h.
Proof.
  assert (Hs : StronglySorted Z.le [4096; 8192; 16384]).
  { repeat constructor; lia. }
  split; [exact Hs|]. split; [reflexivity|].
  pose proof (blockSizeClass_smallest 5032 [4096; 8192; 16384] Hs) as H.
  change (blockSizeClass 5032 [4096; 8192; 16384]) with (8192, true) in H.
  destruct H as [H _]. exact (proj2 (proj2 (H eq_refl))).
Defined.


(** ** Stepping through a call *)

Lemma Return_inj {A : Type} (a b : A) : Return a = Return b -> a = b.
Proof. intros H. injection H as H. exact H. Qed.

Lemma pair_inj {A B : Type} (a c : A) (b d : B) : (a, b) = (c, d) -> a = c /\ b = d.
Proof. intros H. injection H as H1 H2. split; assumption. Qed.

(** A call that is seen, by evaluation, to return without error returns the
    state that is read off it. *)
Lemma outcome_success {A B : Type} (m : outcome (A * option B)) (dflt : A) :
  match m with
  | Return (_, None) => true
  | _ => false
  end = true ->
  m = Return (match m with Return (a, _) => a | Panic => dflt end, None).
Proof. destruct m as [[a [e|]]|]; cbn; congruence. Qed.

Lemma outcome_returns {A : Type} (m : outcome A) (dflt : A) :
  match m with
  | Return _ => true
  | Panic => false
  end = true ->
  m = Return (match m with Return a => a | Panic => dflt end).
Proof. destruct m; cbn; congruence. Qed.

(** One step through the code of a call whose result is known: a let is
    named, a match is split on what it inspects, and a returned value is
    identified with the result. *)
Ltac step :=
  match goal with
  | H : Panic = Return _ |- _ => discriminate H
  | H : false = true |- _ => discriminate H
  | H : true = false |- _ => discriminate H
  | H : Return _ = Return _ |- _ => apply Return_inj in H
  | H : (_, _) = (_, _) |- _ => apply pair_inj in H; destruct H as [? ?]
  | H : (let x := ?v in @?b x) = ?r |- _ =>
      let x' := fresh x in
      let Hx := fresh "D" in
      remember v as x' eqn:Hx in H;
      change (b x' = r) in H; cbv beta in H
  | H : match ?x with _ => _ end = _ |- _ =>
      first [ is_var x; destruct x
            | let E := fresh "E" in destruct x eqn:E ];
      cbv beta iota in H
  | H : ?y = match ?x with _ => _ end |- _ =>
      is_var y;
      first [ is_var x; destruct x
            | let E := fresh "E" in destruct x eqn:E ];
      cbv beta iota in H
  end.

Ltac steps := repeat step.

Section IndexFacts.

Context {decls : Declarations} {comparer : Comparer} {format : BlockFormat}
        {codec : Codec} {collab : Collaborators}.

Lemma the_indexBlock_Some (w : Writer) (i : indexBlockBuf) :
  the_indexBlock w = Return i -> indexBlock w = Some i.
Proof. unfold the_indexBlock. destruct (indexBlock w); congruence. Qed.

Lemma the_dataBlockBuf_Some (w : Writer) (d : dataBlockBuf) :
  the_dataBlockBuf w = Return d -> dataBlockBuf' w = Some d.
Proof. unfold the_dataBlockBuf. destruct (dataBlockBuf' w); congruence. Qed.

Lemma the_writable_Some (w : Writer) (f : Writable) :
  the_writable w = Return f -> writable w = Some f.
Proof. unfold the_writable. destruct (writable w); congruence. Qed.

Lemma finishDataBlockProps_frame (w w' : Writer) (d d' : dataBlockBuf) (e : option error) :
  finishDataBlockProps w d = (w', (d', e)) ->
  (exists cs, w' = w<|blockPropCollectors := cs|>)
  /\ (exists p, d' = d<|dataBlockProps := p|>).
Proof.
  unfold finishDataBlockProps. intros H. unfold bind in H; steps; subst.
  - split; [exists (blockPropCollectors w') | exists (dataBlockProps d')].
    + destruct w'; reflexivity.
    + destruct d'; reflexivity.
  - split; [eexists; reflexivity | exists (dataBlockProps d')].
    destruct d'; reflexivity.
  - split; eexists; reflexivity.
Qed.

Lemma finishIndexBlockProps_frame (w w' : Writer) (r : bytes * option error) :
  finishIndexBlockProps w = (w', r) -> exists cs, w' = w<|blockPropCollectors := cs|>.
Proof.
  unfold finishIndexBlockProps. intros H. unfold bind in H; steps; subst; eexists; reflexivity.
Qed.

Lemma writeCompressedBlock_frame (w w' : Writer) (b t : bytes) (bh : BlockHandle)
    (e : option error) :
  writeCompressedBlock w b t = Return (w', (bh, e)) ->
  (exists f m, w' = w<|writable := f|><|meta := m|>)
  /\ (e = None -> bh = {| Offset := meta_Size (meta w); Length := len b |}).
Proof.
  unfold writeCompressedBlock. intros H. unfold bind in H; steps; subst.
  all: split; [destruct w; eexists _, _; cbn; reflexivity | try discriminate; reflexivity].
Qed.

Lemma addIndexEntry_spec (w w' : Writer) (sep' : InternalKey)
    (bhp : BlockHandleWithProperties) (fl : option indexBlockBuf) (n : Z)
    (props' : bytes) (e : option error) :
  addIndexEntry w sep' bhp fl n props' = Return (w', e) ->
  e = None
  /\ (Length (bhp_BlockHandle bhp) = 0 -> w' = w)
  /\ (Length (bhp_BlockHandle bhp) <> 0 ->
      exists i,
        indexBlock w = Some i
        /\ w' = (match fl with
                 | Some flushed =>
                     w<|twoLevelIndex := true|>
                      <|indexPartitions :=
                          indexPartitions w
                          ++ [{| part_nEntries := nEntries (ib_block flushed);
                                 sep := getCurKey (ib_block flushed);
                                 properties := props';
                                 block := indexBlockBuf_finish flushed |}]|>
                 | None => w
                 end)<|indexBlock :=
                         Some (indexBlockBuf_add i sep'
                                 (encodeBlockHandleWithProperties bhp) n)|>).
Proof.
  unfold addIndexEntry, finishIndexBlock. intros H.
  destruct (Z.eqb_spec (Length (bhp_BlockHandle bhp)) 0) as [Hz|Hnz].
  - apply Return_inj, pair_inj in H. destruct H as [<- <-].
    split; [reflexivity|]. split; [reflexivity|contradiction].
  - destruct fl as [flushed|]; unfold bind in H; steps; subst;
      match goal with H : the_indexBlock _ = Return _ |- _ =>
        apply the_indexBlock_Some in H; try record.simp_hyps;
        (split; [reflexivity|]); (split; [contradiction|]); intros _;
        eexists; (split; [exact H|]); reflexivity
      end.
Qed.

Lemma addIndexEntry_inv (w w' : Writer) (sep' : InternalKey)
    (bhp : BlockHandleWithProperties) (fl : option indexBlockBuf) (n : Z)
    (props' : bytes) (e : option error) :
  addIndexEntry w sep' bhp fl n props' = Return (w', e) ->
  IndexInv w -> IndexInv w'.
Proof.
  intros H Hinv. apply addIndexEntry_spec in H. destruct H as (_ & Hz & Hnz).
  destruct (Z.eq_dec (Length (bhp_BlockHandle bhp)) 0) as [Hl|Hl].
  - rewrite (Hz Hl). exact Hinv.
  - destruct (Hnz Hl) as (i & _ & ->). unfold IndexInv in *.
    destruct fl as [flushed|]; record.simp; [|exact Hinv].
    split; [|reflexivity]. intros _ Habs.
    apply app_eq_nil in Habs. destruct Habs as [_ Habs]. discriminate Habs.
Qed.

End IndexFacts.

(** What the calls met on the way have done to the writer. *)
Ltac frames :=
  repeat match goal with
  | H : finishDataBlockProps _ _ = _ |- _ =>
      apply finishDataBlockProps_frame in H; destruct H as [[? ?] [? ?]]
  | H : finishIndexBlockProps _ = _ |- _ =>
      apply finishIndexBlockProps_frame in H; destruct H as [? ?]
  | H : writeCompressedBlock _ _ _ = Return (_, (_, _)) |- _ =>
      apply writeCompressedBlock_frame in H; destruct H as [[? [? ?]] ?]
  | H : the_indexBlock _ = Return _ |- _ => apply the_indexBlock_Some in H
  | H : the_dataBlockBuf _ = Return _ |- _ => apply the_dataBlockBuf_Some in H
  | H : the_writable _ = Return _ |- _ => apply the_writable_Some in H
  end.


(** ** Compression never expands a block *)

Section CompressFacts.

Context {decls : Declarations} {codec : Codec}.

(** The block that [compressAndChecksum] returns is the input itself or its
    compressed form, and it is the compressed form only when that is shorter
    than the input by more than an eighth of the input's length: the block
    written is never longer than the block given, whatever the compressor
    returns.  The checksum type of the buffer is kept. *)
Theorem compressAndChecksum_never_expands (b : bytes) (c : Compression)
    (bb bb' : blockBuf) (body : bytes) :
  compressAndChecksum b c bb = Return (body, bb') ->
  len body <= len b
  /\ (body = b
      \/ (body = snd (compressBlock c b) /\ len body < len b - Z.quot (len b) 8))
  /\ checksumType (blockBuf_checksummer bb') = checksumType (blockBuf_checksummer bb)
  /\ skipn 5 (tmp bb') = skipn 5 (tmp bb).
Proof.
  unfold compressAndChecksum, checksummer_checksum.
  destruct (compressBlock c b) as [ty comp]. cbn [snd].
  pose proof (len_nonneg b) as Hb.
  assert (Hq : 0 <= Z.quot (len b) 8) by (apply Z.quot_pos; lia).
  destruct (Z.ltb_spec (len comp) (len b - Z.quot (len b) 8)) as [Hlt|Hge];
    destruct (checksumType (blockBuf_checksummer bb)) eqn:Hty;
    cbn [bind]; intros H; try discriminate H;
    apply Return_inj, pair_inj in H; destruct H as [<- <-];
    (split; [lia|]); (split; [tauto|]); record.simp; (split; [exact Hty|]);
    reflexivity.
Qed.

End CompressFacts.

(** A block of a hundred zero bytes under the run-length codec. *)
Lemma compressAndChecksum_never_expands_witness :
  compressAndChecksum (decls := sampleDeclarations) (codec := sampleCodec)
    sampleZeros true sampleBlockBuf
  = Return (fst sampleCompressed, snd sampleCompressed)
  /\ len (fst sampleCompressed) <= len sampleZeros.
Proof.
  assert (H : compressAndChecksum (decls := sampleDeclarations) (codec := sampleCodec)
                sampleZeros true sampleBlockBuf
              = Return (fst sampleCompressed, snd sampleCompressed))
    by (vm_compute; reflexivity).
  split; [exact H|].
  exact (proj1 (compressAndChecksum_never_expands
                  (decls := sampleDeclarations) (codec := sampleCodec)
                  sampleZeros true sampleBlockBuf (snd sampleCompressed)
                  (fst sampleCompressed) H)).
Defined.


(** ** The layout of the blocks written *)

Section LayoutFacts.

Context {decls : Declarations} {comparer : Comparer} {format : BlockFormat}
        {codec : Codec} {collab : Collaborators}.




End LayoutFacts.


Section FlushIndexFacts.

Context {decls : Declarations} {comparer : Comparer} {format : BlockFormat}
        {codec : Codec} {collab : Collaborators}.

Lemma IndexInv_same (w w' : Writer) :
  twoLevelIndex w' = twoLevelIndex w -> indexPartitions w' = indexPartitions w ->
  IndexInv w -> IndexInv w'.
Proof. unfold IndexInv. intros -> ->. exact (fun H => H). Qed.

Lemma flush_inv (w w' : Writer) (key : InternalKey) (r : option error) :
  flush w key = Return (w', r) ->
  IndexInv w -> IndexInv w'.
Proof.
  intros H Hinv.
  cbv beta delta [flush writeQueue_add writeQueue_addSync writeQueue_performWrite
    dataBlockBuf_compressAndChecksum bind] in H.
  steps.
  all: frames; subst; unfold note_dataBlockCompressed, addPrevDataBlockToIndexBlockProps in *.
  all: try (apply (IndexInv_same w); [reflexivity | reflexivity | exact Hinv]).
  all: match goal with
       | |- IndexInv (?x<|coordination -> writeQueue_err := _|><|dataBlockBuf' := _|>) =>
           apply (IndexInv_same x); [reflexivity | reflexivity |]
       end.
  all: eapply addIndexEntry_inv; [eassumption|].
  all: apply (IndexInv_same w); [reflexivity | reflexivity | exact Hinv].
Qed.

Lemma Some_inj {A : Type} (a b : A) : Some a = Some b -> a = b.
Proof. intros H. congruence. Qed.

Lemma indexBlockBuf_shouldFlush_block (i i' : indexBlockBuf) (sep' : InternalKey)
    (valueLen : Z) (o : flushDecisionOptions) (hints : list Z) (b : bool) :
  indexBlockBuf_shouldFlush i sep' valueLen o hints = Return (b, i') ->
  ib_block i' = ib_block i.
Proof.
  unfold indexBlockBuf_shouldFlush. intros H.
  destruct (sizeEstimate_size (ib_estimate i)) as [size est].
  destruct (shouldFlushWithHints _ _ _ _ _ _ _); [|discriminate].
  apply Return_inj, pair_inj in H. destruct H as [_ <-]. reflexivity.
Qed.

Lemma indexBlockBuf_add_entries (i : indexBlockBuf) (k : InternalKey) (v : bytes)
    (n m : Z) :
  exists e,
    entryKey e = k /\ entryValue e = v
    /\ entries (ib_block (indexBlockBuf_add (indexBlockBuf_addInflight i m) k v n))
       = entries (ib_block i) ++ [e].
Proof.
  unfold indexBlockBuf_add, indexBlockBuf_addInflight, blockWriter_add,
    addWithOptionalValuePrefix.
  eexists. split; [|split; [|record.simp; reflexivity]]; reflexivity.
Qed.

Lemma len_nonempty {A : Type} (l : list A) : l <> [] -> len l <> 0.
Proof. destruct l; [congruence|]. unfold len. cbn [length]. lia. Qed.

(** A flush that completes (it returns no error and the write queue holds
    none) has compressed the finished data block and has left the writer with
    a fresh data block buffer.  When the block written is not empty, it has
    added one entry for the block: its key is the separator of the last key
    of the flushed block and the key that caused the flush, and its value is
    the encoding of the handle whose offset is the file size before the
    write, whose length is the length of the block written and whose
    properties are those that finishDataBlockProps gave the block.  When the
    index block is not to be flushed, the entry is appended to the entries
    that the index block of the writer held, and the partitions and the
    two-level flag stay; when it is to be flushed, the entry is the only one
    of a fresh index block, the index block that the writer held has become
    the last partition and the two-level flag is set. *)
Theorem flush_index_entry (w w' : Writer) (key : InternalKey) (d : dataBlockBuf)
    (i : indexBlockBuf) :
  dataBlockBuf' w = Some d ->
  indexBlock w = Some i ->
  flush w key = Return (w', None) ->
  writeQueue_err (coordination w') = None ->
  let sep' := indexEntrySep (getCurKey (dataBlock d)) key in
  let flushIndex :=
    supportsTwoLevelIndex (tableFormat w)
    && match indexBlockBuf_shouldFlush i sep' encodedBHPEstimatedSize
               (indexBlockOptions w) (allocatorSizeClasses w) with
       | Return (b, _) => b
       | Panic => false
       end in
  exists body bb,
    compressAndChecksum (finish (dataBlock d)) (compression w) (dbb_blockBuf d)
    = Return (body, bb)
    /\ dataBlockBuf' w'
       = Some (newDataBlockBuf (writer_restartInterval w) (writer_checksumType w))
    /\ (body <> [] ->
        exists i' e,
          indexBlock w' = Some i'
          /\ entryKey e = sep'
          /\ entryValue e
             = encodeBlockHandleWithProperties
                 {| bhp_BlockHandle := {| Offset := meta_Size (meta w);
                                          Length := len body |};
                    Props := dataBlockProps (fst (snd (finishDataBlockProps w d))) |}
          /\ (flushIndex = false ->
              entries (ib_block i') = entries (ib_block i) ++ [e]
              /\ indexPartitions w' = indexPartitions w
              /\ twoLevelIndex w' = twoLevelIndex w)
          /\ (flushIndex = true ->
              entries (ib_block i') = [e]
              /\ twoLevelIndex w' = true
              /\ exists props',
                   indexPartitions w'
                   = indexPartitions w
                     ++ [{| part_nEntries := nEntries (ib_block i);
                            sep := getCurKey (ib_block i);
                            properties := props';
                            block := finish (ib_block i) |}])).
Proof.
  intros Hd Hi H Hq sep' flushIndex.
  cbv beta delta [flush writeQueue_add writeQueue_addSync writeQueue_performWrite
    dataBlockBuf_compressAndChecksum the_dataBlockBuf bind] in H.
  rewrite Hd in H. cbv beta iota in H.
  destruct (finishDataBlockProps w d) as [w1 [d1 e1]] eqn:Hfp.
  cbn [fst snd].
  pose proof Hfp as Hframe.
  apply finishDataBlockProps_frame in Hframe. destruct Hframe as [[cs Hw1] [p Hd1]].
  assert (Hp : dataBlockProps d1 = p) by (rewrite Hd1; reflexivity).
  clear Hfp.
  steps.
  all: frames; subst;
    unfold note_dataBlockCompressed, addPrevDataBlockToIndexBlockProps,
      dataBlockBuf_finish in *.
  all: try discriminate.
  all: record.simp.
  all: try congruence.
  all: repeat match goal with
       | H : None = None -> _ |- _ => specialize (H eq_refl)
       | H : Some ?a = Some ?b |- _ =>
           first [ is_var b; apply Some_inj in H; subst b
                 | is_var a; apply Some_inj in H; subst a ]
       | H1 : indexBlock ?w0 = Some ?a, H2 : indexBlock ?w0 = Some ?b |- _ =>
           first [ constr_eq a b; fail 1
                 | assert (a = b) by congruence; subst a; clear H1 ]
       | H : addIndexEntry _ _ _ _ _ _ = Return _ |- _ =>
           apply addIndexEntry_spec in H; destruct H as (? & ? & ?)
       end; subst.
  all: eexists _, _; (split; [eassumption|]).
  all: cbn [bhp_BlockHandle Length] in *.
  all: match goal with
       | Hz : ?l = 0 -> ?w1 = _, Hnz : ?l <> 0 -> _ |- _ =>
           destruct (Z.eq_dec l 0) as [Hl|Hl];
           [ rewrite (Hz Hl) in *; clear Hz Hnz
           | destruct (Hnz Hl) as (i0' & Hi0 & ->); clear Hz Hnz ]
       end.
  all: try (split; [record.simp; reflexivity|];
            intros Hne; apply len_nonempty in Hne; contradiction).
  all: record.simp; (split; [reflexivity|]); intros _.
  all: apply Some_inj in Hi0; subst i0'.
  all: repeat match goal with
       | E : indexBlockBuf_shouldFlush _ _ _ _ _ = Return (_, _) |- _ =>
           let Hb := fresh "Hb" in
           pose proof (indexBlockBuf_shouldFlush_block _ _ _ _ _ _ _ E) as Hb;
           revert E
       end; intros.
  all: match goal with
       | |- context [indexBlockBuf_add (indexBlockBuf_addInflight ?i1 ?m) ?k ?v ?n] =>
           destruct (indexBlockBuf_add_entries i1 k v n m) as (e & Hk & Hv & He);
           exists (indexBlockBuf_add (indexBlockBuf_addInflight i1 m) k v n), e;
           rewrite He; clear He
       end.
  all: split; [reflexivity|]; split; [exact Hk|]; split; [exact Hv|].
  all: subst flushIndex sep';
       match goal with
       | E : supportsTwoLevelIndex _ = _ |- _ => rewrite E
       end;
       try match goal with
           | E : indexBlockBuf_shouldFlush _ _ _ _ _ = _ |- _ => rewrite E
           end;
       cbn [andb].
  all: (split; intros Hfl; [try discriminate Hfl|try discriminate Hfl]).
  all: unfold indexBlockBuf_finish; rewrite ?Hb.
  all: try (split; [reflexivity|split; reflexivity]).
  all: split; [reflexivity|split; [reflexivity|eexists; reflexivity]].
Qed.

End FlushIndexFacts.

(** The flush, ahead of c@3, of the block holding b@4: the index block held
    the entry of the block of a@5, and holds after it the entry of the block
    flushed. *)
Lemma flush_index_entry_witness :
  (dataBlockBuf' writerWithTwoPoints = Some (dataBlockBufOf writerWithTwoPoints)
   /\ indexBlock writerWithTwoPoints = Some (indexBlockOf writerWithTwoPoints)
   /\ flush (decls := sampleDeclarations) (comparer := bytewiseComparer)
            (format := sampleBlockFormat) writerWithTwoPoints (setKey [99] 3)
      = Return (writerFlushedAgain, None)
   /\ writeQueue_err (coordination writerFlushedAgain) = None)
  /\ len (entries (ib_block (indexBlockOf writerWithTwoPoints))) = 1
  /\ exists i' e,
       indexBlock writerFlushedAgain = Some i'
       /\ entries (ib_block i')
          = entries (ib_block (indexBlockOf writerWithTwoPoints)) ++ [e]
       /\ entryKey e
          = indexEntrySep (comparer := bytewiseComparer)
              (getCurKey (dataBlock (dataBlockBufOf writerWithTwoPoints)))
              (setKey [99] 3).
Proof.
  pose proof (flush_index_entry (decls := sampleDeclarations)
                (comparer := bytewiseComparer) (format := sampleBlockFormat)
                writerWithTwoPoints writerFlushedAgain (setKey [99] 3)
                (dataBlockBufOf writerWithTwoPoints)
                (indexBlockOf writerWithTwoPoints)) as T.
  match type of T with
  | ?A -> ?B -> ?C -> ?D -> _ =>
      assert (H1 : A) by (vm_compute; reflexivity);
      assert (H2 : B) by (vm_compute; reflexivity);
      assert (H3 : C) by (apply outcome_success; vm_compute; reflexivity);
      assert (H4 : D) by (vm_compute; reflexivity)
  end.
  split; [split; [exact H1|split; [exact H2|split; [exact H3|exact H4]]]|].
  split; [vm_compute; reflexivity|].
  pose proof (T H1 H2 H3 H4) as R. cbv zeta in R.
  destruct R as (body & bb & Hc & _ & Hent).
  assert (Hbody : body <> []).
  { vm_compute in Hc. apply Return_inj, pair_inj in Hc. destruct Hc as [<- _].
    discriminate. }
  destruct (Hent Hbody) as (i' & e & Hi & Hk & _ & Hno & _).
  match type of Hno with
  | ?A -> _ => assert (Hf : A) by (vm_compute; reflexivity)
  end.
  destruct (Hno Hf) as (He & _).
  exists i', e. split; [exact Hi|]. split; [exact He|exact Hk].
Defined.

(** ** The index over the calls of the interface *)

Create HintDb ixdb.

Section IndexSame.

Context {decls : Declarations} {comparer : Comparer} {format : BlockFormat}
        {codec : Codec} {collab : Collaborators}.

Lemma indexState_same (P : bool -> list indexBlockAndBlockProperties -> Prop)
    (w w' : Writer) :
  twoLevelIndex w' = twoLevelIndex w -> indexPartitions w' = indexPartitions w ->
  indexState P w -> indexState P w'.
Proof. unfold indexState. intros -> ->. exact (fun H => H). Qed.

End IndexSame.

(** One step through the code of the call that [H] records, leaving alone
    what the step sets aside. *)
Ltac step_on H :=
  lazymatch type of H with
  | Panic = Return _ => discriminate H
  | Return _ = Return _ => apply Return_inj in H
  | (_, _) = (_, _) =>
      let R1 := fresh "R" in
      let R2 := fresh "R" in
      apply pair_inj in H; destruct H as [R1 R2]
  | (let x := ?v in @?b x) = ?r =>
      let x' := fresh x in
      let Hx := fresh "D" in
      remember v as x' eqn:Hx in H;
      change (b x' = r) in H; cbv beta in H
  | match ?x with _ => _ end = _ =>
      first [ is_var x; destruct x
            | let E := fresh "E" in destruct x eqn:E ];
      cbv beta iota in H
  end.

Ltac steps_on H := cbv beta delta [bind] in H; repeat step_on H.

(** Every writer that [T] mentions is one of which [P] is known. *)
Ltac ready P T :=
  match goal with
  | z : Writer |- _ =>
      lazymatch T with context [z] => idtac end;
      lazymatch goal with _ : indexState P z |- _ => fail | _ => idtac end;
      fail 1
  | _ => idtac
  end.

(** The writer that a chain of field updates starts from. *)
Ltac base_of T :=
  lazymatch T with
  | apply_update _ ?r => base_of r
  | _ => T
  end.

Ltac is_writer y :=
  lazymatch type of y with
  | Writer => idtac
  end.

Ltac unknown P y :=
  lazymatch goal with
  | _ : indexState P y |- _ => fail
  | _ => idtac
  end.

(** Of the equations at hand only [E] is kept. *)
Ltac isolate E :=
  repeat match goal with
  | H' : _ = _ |- _ =>
      lazymatch H' with
      | E => fail
      | _ => clear H'
      end
  end.

(** What is known of the writer of each step is carried to the next: over a
    chain of field updates by [indexState_same], over a call by the lemma of
    the call, over a piece of code that was set aside by stepping through
    it. *)
Ltac carry P :=
  repeat match goal with
  | D : ?y = ?T |- _ =>
      is_var y; is_writer y; unknown P y;
      let x := base_of T in
      lazymatch goal with
      | Hq : indexState P x |- _ =>
          assert (indexState P y)
            by exact (indexState_same P x y (f_equal twoLevelIndex D)
                        (f_equal indexPartitions D) Hq)
      end
  | D : ?T = ?y |- _ =>
      is_var y; is_writer y; unknown P y;
      let x := base_of T in
      lazymatch goal with
      | Hq : indexState P x |- _ =>
          assert (indexState P y)
            by exact (indexState_same P x y (f_equal twoLevelIndex (eq_sym D))
                        (f_equal indexPartitions (eq_sym D)) Hq)
      end
  | E : ?T = Return (?y, _) |- _ =>
      is_var y; is_writer y; unknown P y; ready P T;
      assert (indexState P y)
        by (first [ solve [eauto 3 with ixdb] | isolate E; progress (steps_on E); carried P ])
  | E : ?T = Return (_, ?y) |- _ =>
      is_var y; is_writer y; unknown P y; ready P T;
      assert (indexState P y)
        by (first [ solve [eauto 3 with ixdb] | isolate E; progress (steps_on E); carried P ])
  | E : ?T = Return ?y |- _ =>
      is_var y; is_writer y; unknown P y; ready P T;
      assert (indexState P y)
        by (first [ solve [eauto 3 with ixdb] | isolate E; progress (steps_on E); carried P ])
  | E : ?T = (?y, _) |- _ =>
      is_var y; is_writer y; unknown P y; ready P T;
      assert (indexState P y)
        by (first [ solve [eauto 3 with ixdb] | isolate E; progress (steps_on E); carried P ])
  | D : ?y = ?T |- _ =>
      is_var y; is_writer y; unknown P y; ready P T;
      assert (indexState P y)
        by (first [ solve [rewrite D; eauto 3 with ixdb]
                  | isolate D; symmetry in D; progress (steps_on D); carried P ])
  end
with carried P :=
  carry P;
  first [ assumption
        | match goal with
          | |- indexState P ?T =>
              let x := base_of T in
              lazymatch goal with
              | Hq : indexState P x |- _ =>
                  exact (indexState_same P x T eq_refl eq_refl Hq)
              end
          end ].

Section IndexCalls.

Context {decls : Declarations} {comparer : Comparer} {format : BlockFormat}
        {codec : Codec} {collab : Collaborators}.

Lemma flush_state (w w' : Writer) (key : InternalKey) (r : option error) :
  flush w key = Return (w', r) ->
  indexState flagMatchesPartitions w -> indexState flagMatchesPartitions w'.
Proof. exact (flush_inv w w' key r). Qed.

#[local] Hint Resolve flush_state : ixdb.

Lemma maybeFlush_state (w w' : Writer) (key : InternalKey) (n : Z) (r : option error) :
  maybeFlush w key n = Return (w', r) ->
  indexState flagMatchesPartitions w -> indexState flagMatchesPartitions w'.
Proof.
  intros H Hinv. cbv beta delta [maybeFlush bind] in H. steps_on H.
  all: carried flagMatchesPartitions.
Qed.

#[local] Hint Resolve maybeFlush_state : ixdb.

Lemma makeAddPointDecisionV2_state P (w w' : Writer) (key : InternalKey)
    (r : option error) :
  makeAddPointDecisionV2 w key = Return (w', r) ->
  indexState P w -> indexState P w'.
Proof.
  intros H Hinv. cbv beta delta [makeAddPointDecisionV2 bind] in H. steps_on H.
  all: carried P.
Qed.

Lemma makeAddPointDecisionV3_state P (w w' : Writer) (key : InternalKey) (n : Z)
    (r : bool * bool * bool * option error) :
  makeAddPointDecisionV3 w key n = Return (w', r) ->
  indexState P w -> indexState P w'.
Proof.
  intros H Hinv. cbv beta delta [makeAddPointDecisionV3 bind] in H. steps_on H.
  all: carried P.
Qed.

#[local] Hint Resolve makeAddPointDecisionV2_state makeAddPointDecisionV3_state : ixdb.

Lemma note_dataBlockCompressed_fold_state P (sizes : list Z) (w : Writer) :
  indexState P w -> indexState P (fold_left note_dataBlockCompressed sizes w).
Proof.
  revert w. induction sizes as [|n rest IH]; intros w Hw; cbn [fold_left]; [exact Hw|].
  apply IH. apply (indexState_same P w); [reflexivity | reflexivity | exact Hw].
Qed.

Lemma maybeAddToFilter_state P (w w' : Writer) (key : bytes) :
  maybeAddToFilter w key = Return w' -> indexState P w -> indexState P w'.
Proof.
  intros H Hinv. cbv beta delta [maybeAddToFilter bind] in H. steps_on H.
  all: carried P.
Qed.

#[local] Hint Resolve note_dataBlockCompressed_fold_state maybeAddToFilter_state : ixdb.

Lemma addPoint_state (w w' : Writer) (key : InternalKey) (value : bytes)
    (forceObsolete : bool) (r : option error) :
  addPoint w key value forceObsolete = Return (w', r) ->
  indexState flagMatchesPartitions w -> indexState flagMatchesPartitions w'.
Proof.
  intros H Hinv. cbv beta delta [addPoint bind set_dataBlock] in H. steps_on H.
  all: carried flagMatchesPartitions.
Qed.

#[local] Hint Resolve addPoint_state : ixdb.

Lemma addTombstone_state P (w w' : Writer) (key : InternalKey) (value : bytes)
    (r : option error) :
  addTombstone w key value = (w', r) -> indexState P w -> indexState P w'.
Proof.
  intros H Hinv. cbv beta delta [addTombstone] in H. steps_on H.
  all: carried P.
Qed.

#[local] Hint Resolve addTombstone_state : ixdb.

Lemma addRangeKey_state P (w w' : Writer) (key : InternalKey) (value : bytes)
    (r : option error) :
  addRangeKey w key value = Return (w', r) -> indexState P w -> indexState P w'.
Proof.
  intros H Hinv. cbv beta delta [addRangeKey bind] in H. steps_on H.
  all: carried P.
Qed.

#[local] Hint Resolve addRangeKey_state : ixdb.

Lemma rangeKeyEncoder_emit_state P (pairs : list (InternalKey * bytes)) :
  forall (w w' : Writer) (r : option error),
    rangeKeyEncoder_emit w pairs = Return (w', r) ->
    indexState P w -> indexState P w'.
Proof.
  induction pairs as [|[k v] rest IH]; intros w w' r H Hinv; cbn [rangeKeyEncoder_emit] in H.
  - steps_on H. carried P.
  - steps_on H.
    + carried P.
    + eapply IH; [eassumption|]. carried P.
Qed.

#[local] Hint Resolve rangeKeyEncoder_emit_state : ixdb.

Lemma encodeRangeKeySpan_state P (w w' : Writer) (span : Span) :
  encodeRangeKeySpan w span = Return w' -> indexState P w -> indexState P w'.
Proof.
  intros H Hinv. cbv beta delta [encodeRangeKeySpan bind] in H. steps_on H.
  all: carried P.
Qed.

#[local] Hint Resolve encodeRangeKeySpan_state : ixdb.

Lemma emitSpans_state P (spans : list Span) :
  forall (w w' : Writer),
    emitSpans w spans = Return w' -> indexState P w -> indexState P w'.
Proof.
  induction spans as [|s rest IH]; intros w w' H Hinv; cbn [emitSpans] in H.
  - steps_on H. carried P.
  - steps_on H. eapply IH; [eassumption|]. carried P.
Qed.

#[local] Hint Resolve emitSpans_state : ixdb.

Lemma tempRangeKeyCopy_state P (w w' : Writer) (k : bytes) (s : slice) :
  tempRangeKeyCopy w k = (w', s) -> indexState P w -> indexState P w'.
Proof.
  intros H Hinv. cbv beta delta [tempRangeKeyCopy] in H. steps_on H.
  all: carried P.
Qed.

#[local] Hint Resolve tempRangeKeyCopy_state : ixdb.

Lemma addRangeKeySpan_state P (w w' : Writer) (span : Span) (r : option error) :
  addRangeKeySpan w span = Return (w', r) -> indexState P w -> indexState P w'.
Proof.
  intros H Hinv. cbv beta delta [addRangeKeySpan bind] in H. steps_on H.
  all: carried P.
Qed.

#[local] Hint Resolve addRangeKeySpan_state : ixdb.

Lemma EstimatedSize_state P (w w' : Writer) (size : Z) :
  EstimatedSize w = Return (size, w') -> indexState P w -> indexState P w'.
Proof.
  intros H Hinv. cbv beta delta [EstimatedSize bind] in H. steps_on H.
  all: carried P.
Qed.

#[local] Hint Resolve EstimatedSize_state : ixdb.

(** Every call of the interface keeps the two-level flag in step with the
    partitions. *)
Lemma doCall_state (w w' : Writer) (c : writerCall) :
  doCall w c = Return w' ->
  indexState flagMatchesPartitions w -> indexState flagMatchesPartitions w'.
Proof.
  intros H Hinv. destruct c;
    cbv beta iota delta [doCall Set' Delete DeleteRange Merge Add AddWithForceObsolete
                         RangeKeySet RangeKeyUnset RangeKeyDelete AddRangeKey bind] in H;
    steps_on H.
  all: carried flagMatchesPartitions.
Qed.

Lemma doCalls_state (calls : list writerCall) :
  forall (w w' : Writer),
    doCalls w calls = Return w' ->
    indexState flagMatchesPartitions w -> indexState flagMatchesPartitions w'.
Proof.
  induction calls as [|c rest IH]; intros w w' H Hinv; cbn [doCalls] in H.
  - apply Return_inj in H. subst w'. exact Hinv.
  - unfold bind in H. destruct (doCall w c) as [w1|] eqn:E; [|discriminate H].
    eapply IH; [exact H|]. eapply doCall_state; eassumption.
Qed.

Lemma NewWriter_state (f : option Writable) (o : WriterOptions) :
  indexState flagMatchesPartitions (NewWriter f o).
Proof.
  assert (H : twoLevelIndex (NewWriter f o) = false /\ indexPartitions (NewWriter f o) = []).
  { unfold NewWriter. cbv zeta.
    destruct f; [|split; reflexivity].
    repeat match goal with
    | |- context [if ?c then _ else _] => destruct c
    end; split; reflexivity. }
  destruct H as [Ht Hp]. unfold indexState, flagMatchesPartitions.
  rewrite Ht, Hp. split; [discriminate | congruence].
Qed.

End IndexCalls.

#[export] Hint Resolve flush_state maybeFlush_state makeAddPointDecisionV2_state
  makeAddPointDecisionV3_state note_dataBlockCompressed_fold_state
  maybeAddToFilter_state addPoint_state addTombstone_state addRangeKey_state
  rangeKeyEncoder_emit_state encodeRangeKeySpan_state emitSpans_state
  tempRangeKeyCopy_state addRangeKeySpan_state EstimatedSize_state : ixdb.

(** ** The index at Close *)

Ltac split_pairs :=
  repeat match goal with
  | R : (_, _) = (_, _) |- _ => apply pair_inj in R; destruct R
  end.

Section CloseIndex.

Context {decls : Declarations} {comparer : Comparer} {format : BlockFormat}
        {codec : Codec} {collab : Collaborators}.

(** A finished block is never empty, and the compressor does not turn a
    block that is not empty into an empty one. *)
Hypothesis finish_nonempty : forall bw : blockWriter, finish bw <> [].
Hypothesis compress_nonempty :
  forall (c : Compression) (b : bytes), b <> [] -> snd (compressBlock c b) <> [].

Lemma compressAndChecksum_nonempty (b : bytes) (c : Compression) (bb bb' : blockBuf)
    (body : bytes) :
  compressAndChecksum b c bb = Return (body, bb') -> b <> [] -> body <> [].
Proof.
  intros H Hb. apply compressAndChecksum_never_expands in H.
  destruct H as (_ & [->|[-> _]] & _); [exact Hb | apply compress_nonempty; exact Hb].
Qed.

Lemma writeCompressedBlock_state P (w w' : Writer) (b t : bytes)
    (r : BlockHandle * option error) :
  writeCompressedBlock w b t = Return (w', r) -> indexState P w -> indexState P w'.
Proof.
  destruct r as [bh e]. intros H Hinv.
  apply writeCompressedBlock_frame in H. destruct H as [(f & m & ->) _].
  exact (indexState_same P w _ eq_refl eq_refl Hinv).
Qed.

#[local] Hint Resolve writeCompressedBlock_state : ixdb.

Lemma writeBlock_state P (w w' : Writer) (b : bytes) (c : Compression)
    (bb : blockBuf) (r : blockBuf * (BlockHandle * option error)) :
  writeBlock w b c bb = Return (w', r) -> indexState P w -> indexState P w'.
Proof.
  intros H Hinv. cbv beta delta [writeBlock bind] in H. steps_on H.
  carried P.
Qed.

#[local] Hint Resolve writeBlock_state : ixdb.

Lemma writeBlock_handle (w w' : Writer) (b : bytes) (c : Compression)
    (bb bb' : blockBuf) (bh : BlockHandle) :
  writeBlock w b c bb = Return (w', (bb', (bh, None))) ->
  b <> [] -> Length bh <> 0.
Proof.
  intros H Hb. cbv beta delta [writeBlock bind] in H. steps_on H.
  split_pairs. subst. frames.
  match goal with
  | Hh : None = None -> _ |- _ => rewrite (Hh eq_refl)
  end.
  cbn [Length]. apply len_nonempty.
  eapply compressAndChecksum_nonempty; eassumption.
Qed.

Lemma writeBlock_writer_state P (w w' : Writer) (b : bytes) (c : Compression)
    (r : BlockHandle * option error) :
  writeBlock_writer w b c = Return (w', r) -> indexState P w -> indexState P w'.
Proof.
  intros H Hinv. cbv beta delta [writeBlock_writer bind] in H. steps_on H.
  carried P.
Qed.

#[local] Hint Resolve writeBlock_writer_state : ixdb.

Lemma Writer_Write_state P (w w' : Writer) (b : bytes) (r : Z * option error) :
  Writer_Write w b = Return (w', r) -> indexState P w -> indexState P w'.
Proof.
  intros H Hinv. cbv beta delta [Writer_Write bind] in H. steps_on H.
  all: carried P.
Qed.

Lemma maybeAddBlockPropertiesToBlockHandle_state P (w w' : Writer) (bh : BlockHandle)
    (r : BlockHandleWithProperties * option error) :
  maybeAddBlockPropertiesToBlockHandle w bh = Return (w', r) ->
  indexState P w -> indexState P w'.
Proof.
  intros H Hinv. cbv beta delta [maybeAddBlockPropertiesToBlockHandle bind] in H.
  steps_on H.
  all: frames; subst; exact (indexState_same P w _ eq_refl eq_refl Hinv).
Qed.

#[local] Hint Resolve Writer_Write_state maybeAddBlockPropertiesToBlockHandle_state : ixdb.

Lemma maybeAddBlockPropertiesToBlockHandle_handle (w w' : Writer) (bh : BlockHandle)
    (bhp : BlockHandleWithProperties) :
  maybeAddBlockPropertiesToBlockHandle w bh = Return (w', (bhp, None)) ->
  bhp_BlockHandle bhp = bh.
Proof.
  intros H. cbv beta delta [maybeAddBlockPropertiesToBlockHandle bind] in H.
  steps_on H; split_pairs; subst; try discriminate; reflexivity.
Qed.

Lemma addIndexEntrySep_state (w w' : Writer) (sep' : InternalKey)
    (bhp : BlockHandleWithProperties) :
  addIndexEntrySep w sep' bhp = Return (w', None) ->
  Length (bhp_BlockHandle bhp) <> 0 ->
  indexState flagMatchesPartitions w -> indexState flagMatchesPartitions w'.
Proof.
  intros H Hl Hinv.
  cbv beta delta [addIndexEntrySep addPrevDataBlockToIndexBlockProps bind] in H.
  steps.
  all: frames; subst; try discriminate.
  all: match goal with
       | E : addIndexEntry _ _ _ _ _ _ = Return _ |- _ =>
           apply addIndexEntry_spec in E; destruct E as (_ & _ & Hnz);
           destruct (Hnz Hl) as (i0 & _ & ->)
       end.
  all: unfold indexState, flagMatchesPartitions in *; record.simp.
  all: try exact Hinv.
  all: split; [|reflexivity]; intros _ Habs;
    apply app_eq_nil in Habs; destruct Habs as [_ Habs]; discriminate Habs.
Qed.

Lemma Close_dataBlock_state (w w' : Writer) :
  Close_dataBlock w = Return (w', None) ->
  indexState flagMatchesPartitions w -> indexState flagMatchesPartitions w'.
Proof.
  intros H Hinv.
  cbv beta delta [Close_dataBlock addIndexEntrySync bind] in H.
  steps.
  all: try discriminate.
  all: carry flagMatchesPartitions.
  all: try match goal with
       | E : addIndexEntrySep ?x _ ?bhp = Return (?y, _),
         E1 : writeBlock _ _ _ _ = Return _,
         E2 : maybeAddBlockPropertiesToBlockHandle _ _ = Return _ |- _ =>
           assert (indexState flagMatchesPartitions y);
           [ eapply addIndexEntrySep_state;
             [ exact E
             | rewrite (maybeAddBlockPropertiesToBlockHandle_handle _ _ _ _ E2);
               eapply writeBlock_handle; [exact E1 | apply finish_nonempty]
             | assumption ]
           | ]
       end.
  all: carried flagMatchesPartitions.
Qed.

Lemma Close_filter_state P (w w' : Writer) (metaindex : list (metaName * bytes))
    (r : list (metaName * bytes) * option error) :
  Close_filter w metaindex = Return (w', r) -> indexState P w -> indexState P w'.
Proof.
  intros H Hinv. cbv beta delta [Close_filter bind] in H. steps_on H.
  all: carried P.
Qed.

Lemma writeIndexPartitions_state P (parts : list indexBlockAndBlockProperties) :
  forall (w w' : Writer) (r : option error),
    writeIndexPartitions w parts = Return (w', r) ->
    indexState P w -> indexState P w'.
Proof.
  induction parts as [|b rest IH]; intros w w' r H Hinv;
    cbn [writeIndexPartitions] in H.
  - steps_on H. carried P.
  - steps_on H.
    + carried P.
    + eapply IH; [eassumption|]. carried P.
Qed.

#[local] Hint Resolve writeIndexPartitions_state : ixdb.

(** A successful [writeTwoLevelIndex] has finished the index block in the
    making into one more partition. *)
Lemma writeTwoLevelIndex_partitions (w w' : Writer) (bh : BlockHandle) :
  writeTwoLevelIndex w = Return (w', (bh, None)) ->
  twoLevelIndex w' = twoLevelIndex w
  /\ exists part, indexPartitions w' = indexPartitions w ++ [part].
Proof.
  intros H.
  cbv beta delta [writeTwoLevelIndex finishIndexBlock bind] in H. steps_on H.
  all: split_pairs; try discriminate.
  match goal with
  | E1 : (let part := ?p in _) = (?y, None) |- _ =>
      cbv zeta in E1; apply pair_inj in E1; destruct E1 as [E1 _];
      assert (Hy : indexState (fun t ps => t = twoLevelIndex w
                                         /\ ps = indexPartitions w ++ [p]) y);
      [ frames; subst; unfold indexState; record.simp; split; reflexivity | ]
  end.
  match type of Hy with
  | indexState ?Q ?y => assert (Hq : indexState Q w') by carried Q
  end.
  unfold indexState in Hq. destruct Hq as [Ht Hp]. split; [exact Ht|].
  eexists. exact Hp.
Qed.

Lemma Close_index_partitions (w w' : Writer) (bh : BlockHandle) :
  Close_index w = Return (w', (bh, None)) ->
  twoLevelIndex w' = twoLevelIndex w
  /\ (twoLevelIndex w = true ->
      exists part, indexPartitions w' = indexPartitions w ++ [part])
  /\ (twoLevelIndex w = false -> indexPartitions w' = indexPartitions w).
Proof.
  intros H. cbv beta delta [Close_index bind] in H.
  destruct (twoLevelIndex w) eqn:Ht.
  - cbv zeta in H. apply writeTwoLevelIndex_partitions in H.
    record.simp_hyps. destruct H as [Ht' Hp].
    split; [rewrite Ht'; exact Ht|]. split; [intros _; exact Hp | discriminate].
  - assert (Hq : indexState (fun t ps => t = false /\ ps = indexPartitions w) w').
    { assert (Hw : indexState (fun t ps => t = false /\ ps = indexPartitions w) w)
        by (unfold indexState; split; [exact Ht | reflexivity]).
      steps_on H.
      carried (fun (t : bool) (ps : list indexBlockAndBlockProperties) =>
                 t = false /\ ps = indexPartitions w). }
    destruct Hq as [Ht' Hp]. split; [exact Ht'|]. split; [discriminate | intros _; exact Hp].
Qed.

Lemma Close_rangeDel_state P (w w' : Writer) (r : BlockHandle * option error) :
  Close_rangeDel w = Return (w', r) -> indexState P w -> indexState P w'.
Proof.
  intros H Hinv. cbv beta delta [Close_rangeDel bind] in H. steps_on H.
  all: carried P.
Qed.

Lemma Close_rangeKey_state P (w w' : Writer) (r : BlockHandle * option error) :
  Close_rangeKey w = Return (w', r) -> indexState P w -> indexState P w'.
Proof.
  intros H Hinv. cbv beta delta [Close_rangeKey bind] in H. steps_on H.
  all: carried P.
Qed.

Lemma writeValueBlocks_state P (blocks : list bytes) :
  forall (w w' : Writer) (r : option error),
    writeValueBlocks w blocks = Return (w', r) ->
    indexState P w -> indexState P w'.
Proof.
  induction blocks as [|b rest IH]; intros w w' r H Hinv; cbn [writeValueBlocks] in H.
  - steps_on H. carried P.
  - steps_on H.
    + carried P.
    + eapply IH; [eassumption|]. carried P.
Qed.

#[local] Hint Resolve writeValueBlocks_state : ixdb.

Lemma Close_valueBlocks_state P (w w' : Writer) (metaindex : list (metaName * bytes))
    (r : list (metaName * bytes) * option error) :
  Close_valueBlocks w metaindex = Return (w', r) -> indexState P w -> indexState P w'.
Proof.
  intros H Hinv. cbv beta delta [Close_valueBlocks bind] in H. steps_on H.
  all: carried P.
Qed.

Lemma Close_properties_state P (w w' : Writer) (metaindex : list (metaName * bytes))
    (r : list (metaName * bytes) * option error) :
  Close_properties w metaindex = Return (w', r) -> indexState P w -> indexState P w'.
Proof.
  intros H Hinv. cbv beta delta [Close_properties bind] in H. steps_on H.
  all: carried P.
Qed.

Lemma Close_footer_state P (w w' : Writer) (metaindex : list (metaName * bytes))
    (indexBH : BlockHandle) (r : option error) :
  Close_footer w metaindex indexBH = Return (w', r) ->
  indexState P w -> indexState P w'.
Proof.
  intros H Hinv. cbv beta delta [Close_footer bind] in H. steps_on H.
  all: carried P.
Qed.

#[local] Hint Resolve Close_filter_state Close_rangeDel_state Close_rangeKey_state
  Close_valueBlocks_state Close_properties_state Close_footer_state : ixdb.

Lemma Close_index_shape (w2 w3 : Writer) :
  indexState flagMatchesPartitions w2 ->
  twoLevelIndex w3 = twoLevelIndex w2 /\
  (twoLevelIndex w2 = true ->
   exists part, indexPartitions w3 = indexPartitions w2 ++ [part]) /\
  (twoLevelIndex w2 = false -> indexPartitions w3 = indexPartitions w2) ->
  indexState (fun t ps => (t = true <-> 2 <= len ps) /\ (t = false -> ps = []))
             w3.
Proof.
  unfold indexState, flagMatchesPartitions.
  intros [Hon Hoff] (Ht & Hyes & Hno). rewrite Ht.
  destruct (twoLevelIndex w2) eqn:Hflag.
  - destruct (Hyes eq_refl) as [part ->].
    specialize (Hon eq_refl).
    destruct (indexPartitions w2) as [|p ps]; [congruence|].
    split; [|discriminate]. split; [intros _|reflexivity].
    unfold len. cbn [length app]. rewrite length_app. cbn [length]. lia.
  - rewrite (Hno eq_refl).
    destruct (indexPartitions w2) as [|p ps].
    + split; [|reflexivity]. split; [discriminate|]. unfold len. cbn [length]. lia.
    + exfalso. assert (Habs : false = true) by (apply Hoff; discriminate).
      discriminate Habs.
Qed.

(** A table has a two-level index exactly when it has two or more index
    partitions: for every writer made by NewWriter and taken through any
    calls of its interface, a Close that succeeds leaves the two-level flag
    set if and only if the writer holds at least two partitions, and holds no
    partition when the flag is not set.  Finished blocks are taken not to be
    empty and the compressor not to make an empty block of one that is
    not. *)
Theorem Close_two_level_iff_partitions (o : WriterOptions) (f : option Writable)
    (calls : list writerCall) (w w' : Writer) :
  doCalls (NewWriter f o) calls = Return w ->
  Close w = Return (w', None) ->
  (twoLevelIndex w' = true <-> 2 <= len (indexPartitions w'))
  /\ (twoLevelIndex w' = false -> indexPartitions w' = []).
Proof.
  intros Hrun H.
  assert (Hinv : indexState flagMatchesPartitions w)
    by (eapply doCalls_state; [exact Hrun | apply NewWriter_state]).
  set (Q := fun (t : bool) (ps : list indexBlockAndBlockProperties) =>
              (t = true <-> 2 <= len ps) /\ (t = false -> ps = [])).
  change (indexState Q w').
  cbv beta delta [Close bind] in H. steps_on H.
  split_pairs. subst. cbv beta iota in *.
  match goal with
  | E : Close_body w = Return (?w0, None) |- _ =>
      assert (Hq : indexState Q w0); [|carried Q];
      cbv beta delta [Close_body writeQueue_finish bind] in E; steps_on E
  end.
  all: split_pairs; try discriminate.
  match goal with
  | E1 : Close_dataBlock w = Return (?w1, _),
    E2 : Close_filter ?w1 _ = Return (?w2, _),
    E3 : Close_index ?w2 = Return (?w3, _) |- _ =>
      apply Close_dataBlock_state in E1; [|exact Hinv];
      apply (Close_filter_state flagMatchesPartitions) in E2; [|exact E1];
      apply Close_index_partitions in E3;
      assert (Hq : indexState Q w3) by (exact (Close_index_shape w2 w3 E2 E3))
  end.
  carried Q.
Qed.

End CloseIndex.

Lemma runLength_from_nonempty (rest : bytes) :
  forall (cur : byte) (n : Z), runLength_from cur n rest <> [].
Proof.
  induction rest as [|b rest IH]; intros cur n; cbn [runLength_from]; [discriminate|].
  destruct (Byte.eqb b cur && (n <? 255)); [apply IH | discriminate].
Qed.

Lemma sample_compress_nonempty (c : @Compression sampleCodec) (b : bytes) :
  b <> [] -> snd (compressBlock (Codec := sampleCodec) c b) <> [].
Proof.
  intros Hb. cbn [compressBlock sampleCodec]. destruct c; cbn [snd]; [|exact Hb].
  destruct b as [|x rest]; [congruence|]. apply runLength_from_nonempty.
Qed.

Lemma sample_finish_nonempty (bw : blockWriter) :
  finish (BlockFormat := sampleBlockFormat) bw <> [].
Proof.
  cbn [finish sampleBlockFormat]. intros H.
  apply (f_equal (@length byte)) in H.
  rewrite !length_app, length_le_split in H. cbn [length] in H. lia.
Qed.


(** The four points under index blocks of forty bytes: Close succeeds, the
    two-level flag is set and there are two partitions. *)
Lemma Close_two_level_iff_partitions_witness :
  (doCalls (decls := sampleDeclarations) (comparer := bytewiseComparer)
           (format := sampleBlockFormat)
           (NewWriter (decls := sampleDeclarations) (codec := sampleCodec)
                      (collab := sampleCollaborators) (Some []) smallIndexOptions)
           fourPoints
   = Return writerWithFourPoints
   /\ Close (decls := sampleDeclarations) (comparer := bytewiseComparer)
            (format := sampleBlockFormat) writerWithFourPoints
      = Return (writerClosed, None))
  /\ (twoLevelIndex writerClosed = true <-> 2 <= len (indexPartitions writerClosed))
  /\ twoLevelIndex writerClosed = true
  /\ len (indexPartitions writerClosed) = 2.
Proof.
  pose proof (Close_two_level_iff_partitions
                (decls := sampleDeclarations) (comparer := bytewiseComparer)
                (format := sampleBlockFormat) (codec := sampleCodec)
                (collab := sampleCollaborators)
                sample_finish_nonempty sample_compress_nonempty
                smallIndexOptions (Some []) fourPoints
                writerWithFourPoints writerClosed) as T.
  match type of T with
  | ?A -> ?B -> _ =>
      assert (H1 : A) by (apply outcome_returns; vm_compute; reflexivity);
      assert (H2 : B) by (apply outcome_success; vm_compute; reflexivity)
  end.
  split; [split; assumption|].
  split; [exact (proj1 (T H1 H2))|split; vm_compute; reflexivity].
Defined.

(** ** A latched error, and the writer after Close *)

(** The code that a step set aside is stepped through as well. *)
Ltac step_aside :=
  match goal with
  | H : ?T = _ |- _ =>
      lazymatch T with
      | match _ with _ => _ end => idtac
      | let _ := _ in _ => idtac
      end;
      progress (steps_on H)
  end.

Ltac steps_deep H := steps_on H; repeat step_aside.

Section Latched.

Context {decls : Declarations} {comparer : Comparer} {format : BlockFormat}
        {codec : Codec} {collab : Collaborators}.

(** The calls that look at [err] first return the error that is latched and
    leave the writer alone. *)
Lemma latched_calls_refused (w : Writer) (e : error) :
  err w = Some e ->
  (forall key value, Set' w key value = Return (w, Some e))
  /\ (forall key, Delete w key = Return (w, Some e))
  /\ (forall start end', DeleteRange w start end' = Return (w, Some e))
  /\ (forall key value, Merge w key value = Return (w, Some e))
  /\ (forall key value forceObsolete,
        AddWithForceObsolete w key value forceObsolete = Return (w, Some e))
  /\ (forall key value, AddRangeKey w key value = Return (w, Some e)).
Proof.
  intros He.
  unfold Set', Delete, DeleteRange, Merge, AddWithForceObsolete, AddRangeKey.
  rewrite He. repeat split; reflexivity.
Qed.

Lemma addRangeKey_latched (w w' : Writer) (key : InternalKey) (value : bytes)
    (r : option error) :
  addRangeKey w key value = Return (w', r) -> err w <> None -> err w' <> None.
Proof.
  intros H He. cbv beta delta [addRangeKey bind] in H. steps_on H.
  all: match goal with
       | E : _ = Return (?w1, _) |- _ =>
           assert (Hw : err w1 <> None)
             by (clear - E He; steps_deep E; split_pairs; subst;
                 try record.simp; try discriminate; assumption);
           clear E
       end.
  all: repeat step_aside; split_pairs; subst; try discriminate.
  all: repeat match goal with
       | |- context [if ?c then _ else _] => destruct c
       end.
  all: try record.simp; try assumption.
Qed.

Lemma rangeKeyEncoder_emit_latched (pairs : list (InternalKey * bytes)) :
  forall (w w' : Writer) (r : option error),
    rangeKeyEncoder_emit w pairs = Return (w', r) -> err w <> None -> err w' <> None.
Proof.
  induction pairs as [|[k v] rest IH]; intros w w' r H He; cbn [rangeKeyEncoder_emit] in H.
  - apply Return_inj, pair_inj in H. destruct H as [<- _]. exact He.
  - cbv beta delta [bind] in H.
    destruct (addRangeKey w k v) as [[w1 [e|]]|] eqn:E; try discriminate.
    + apply Return_inj, pair_inj in H. destruct H as [<- _].
      exact (addRangeKey_latched _ _ _ _ _ E He).
    + exact (IH _ _ _ H (addRangeKey_latched _ _ _ _ _ E He)).
Qed.

Lemma encodeRangeKeySpan_latched (w w' : Writer) (span : Span) :
  encodeRangeKeySpan w span = Return w' -> err w <> None -> err w' <> None.
Proof.
  intros H He. cbv beta zeta delta [encodeRangeKeySpan bind] in H.
  match type of H with
  | match ?m with _ => _ end = _ => destruct m as [[w1 r]|] eqn:E; [|discriminate]
  end.
  apply rangeKeyEncoder_emit_latched in E; [|exact He].
  apply Return_inj in H. subst w'. record.simp.
  destruct (err w1); [discriminate|congruence].
Qed.

Lemma emitSpans_latched (spans : list Span) :
  forall (w w' : Writer),
    emitSpans w spans = Return w' -> err w <> None -> err w' <> None.
Proof.
  induction spans as [|s rest IH]; intros w w' H He; cbn [emitSpans] in H.
  - apply Return_inj in H. subst w'. exact He.
  - cbv beta delta [bind] in H.
    destruct (encodeRangeKeySpan w s) as [w1|] eqn:E; [|discriminate].
    exact (IH _ _ H (encodeRangeKeySpan_latched _ _ _ E He)).
Qed.

Lemma addRangeKeySpan_latched (w w' : Writer) (span : Span) (r : option error) :
  addRangeKeySpan w span = Return (w', r) -> err w <> None -> err w' <> None.
Proof.
  intros H He. cbv beta delta [addRangeKeySpan bind] in H. steps_on H.
  all: split_pairs; subst; try assumption.
  match goal with
  | E : emitSpans _ _ = Return _ |- _ => apply emitSpans_latched in E; [exact E|]
  end.
  record.simp. exact He.
Qed.

Lemma tempRangeKeyCopy_err (w : Writer) (k : bytes) :
  err (fst (tempRangeKeyCopy w k)) = err w.
Proof. unfold tempRangeKeyCopy. destruct (len k =? 0); reflexivity. Qed.

Lemma doCall_latched (w w' : Writer) (c : writerCall) :
  doCall w c = Return w' -> err w <> None -> err w' <> None.
Proof.
  intros H He.
  destruct (err w) as [e|] eqn:Hw; [clear He|congruence].
  destruct (latched_calls_refused w e Hw) as (Hset & Hdel & Hdr & Hmerge & Hadd & Hark).
  destruct c; cbn [doCall] in H; cbv beta delta [bind] in H.
  - rewrite Hset in H. apply Return_inj in H. subst w'. congruence.
  - rewrite Hdel in H. apply Return_inj in H. subst w'. congruence.
  - rewrite Hdr in H. apply Return_inj in H. subst w'. congruence.
  - rewrite Hmerge in H. apply Return_inj in H. subst w'. congruence.
  - unfold Add in H. rewrite Hadd in H.
    destruct (isStrictObsolete w); apply Return_inj in H; subst w'; congruence.
  - rewrite Hadd in H. apply Return_inj in H. subst w'. congruence.
  - match type of H with
    | match ?m with _ => _ end = _ => destruct m as [[w1 r]|] eqn:E; [|discriminate]
    end.
    apply Return_inj in H. subst w1.
    unfold RangeKeySet in E.
    repeat match type of E with
    | (let '(_, _) := tempRangeKeyCopy ?x ?k in _) = _ =>
        let Ht := fresh "Ht" in
        pose proof (tempRangeKeyCopy_err x k) as Ht;
        destruct (tempRangeKeyCopy x k); cbn [fst] in Ht
    end.
    apply addRangeKeySpan_latched in E; [exact E|congruence].
  - match type of H with
    | match ?m with _ => _ end = _ => destruct m as [[w1 r]|] eqn:E; [|discriminate]
    end.
    apply Return_inj in H. subst w1.
    unfold RangeKeyUnset in E.
    repeat match type of E with
    | (let '(_, _) := tempRangeKeyCopy ?x ?k in _) = _ =>
        let Ht := fresh "Ht" in
        pose proof (tempRangeKeyCopy_err x k) as Ht;
        destruct (tempRangeKeyCopy x k); cbn [fst] in Ht
    end.
    apply addRangeKeySpan_latched in E; [exact E|congruence].
  - match type of H with
    | match ?m with _ => _ end = _ => destruct m as [[w1 r]|] eqn:E; [|discriminate]
    end.
    apply Return_inj in H. subst w1.
    unfold RangeKeyDelete in E.
    repeat match type of E with
    | (let '(_, _) := tempRangeKeyCopy ?x ?k in _) = _ =>
        let Ht := fresh "Ht" in
        pose proof (tempRangeKeyCopy_err x k) as Ht;
        destruct (tempRangeKeyCopy x k); cbn [fst] in Ht
    end.
    apply addRangeKeySpan_latched in E; [exact E|congruence].
  - rewrite Hark in H. apply Return_inj in H. subst w'. congruence.
  - cbv beta delta [EstimatedSize bind] in H. steps_on H.
    repeat step_aside. split_pairs. subst. record.simp. congruence.
Qed.

Lemma doCalls_latched (calls : list writerCall) :
  forall (w w' : Writer),
    doCalls w calls = Return w' -> err w <> None -> err w' <> None.
Proof.
  induction calls as [|c rest IH]; intros w w' H He; cbn [doCalls] in H.
  - apply Return_inj in H. subst w'. exact He.
  - cbv beta delta [bind] in H.
    destruct (doCall w c) as [w1|] eqn:E; [|discriminate].
    exact (IH _ _ H (doCall_latched _ _ _ E He)).
Qed.

(** Close of a writer that holds an error returns: it returns an error,
    which is then the one the writer holds. *)
Lemma Close_latched (w : Writer) :
  err w <> None -> exists w' e, Close w = Return (w', Some e) /\ err w' = Some e.
Proof.
  intros He.
  destruct (err w) as [e|] eqn:Hw; [clear He|congruence].
  cbv beta delta [Close Close_body bind]. rewrite Hw.
  destruct (writeQueue_finish w) as [e'|]; cbv beta iota zeta;
    eexists _, _; (split; [reflexivity|]); reflexivity.
Qed.

Lemma Close_success_shape (w w' : Writer) :
  Close w = Return (w', None) ->
  exists w0,
    assertFormatCompatibility w0 = None
    /\ w' = w0<|writable := None|><|dataBlockBuf' := None|><|indexBlock := None|>
               <|err := Some errWriterClosed|>
               <|valueBlockWriter := None|><|writable := None|>.
Proof.
  intros H.
  cbv beta delta [Close bind] in H. steps_on H.
  split_pairs. subst. cbv beta iota in *.
  match goal with
  | E : Close_body w = Return (?w0, None) |- _ =>
      cbv beta delta [Close_body writeQueue_finish bind] in E; steps_on E
  end.
  all: split_pairs; try discriminate.
  match goal with
  | E : Close_footer _ _ _ = Return _ |- _ =>
      isolate E; cbv beta delta [Close_footer bind] in E; steps_on E
  end.
  all: split_pairs; try discriminate.
  match goal with
  | E : assertFormatCompatibility ?w0 = None |- _ => exists w0; split; [exact E|]
  end.
  subst. reflexivity.
Qed.

(** Once the writer holds an error it keeps one: whatever calls of the
    interface follow, none clears it, and the Close that ends them returns
    an error, which the writer then holds, so that the table is never
    finished. *)
Theorem latched_error_never_closes (w w1 : Writer) (calls : list writerCall) :
  err w <> None ->
  doCalls w calls = Return w1 ->
  err w1 <> None
  /\ exists w2 e, Close w1 = Return (w2, Some e) /\ err w2 = Some e.
Proof.
  intros He Hcalls.
  pose proof (doCalls_latched calls w w1 Hcalls He) as H1.
  split; [exact H1|]. exact (Close_latched w1 H1).
Qed.

(** After a Close that succeeds the writer holds the error errWriterClosed
    and none of its writable, data block buffer, index block and value block
    writer.  Set, Delete, DeleteRange, Merge, AddWithForceObsolete and
    AddRangeKey return errWriterClosed and leave the writer as it is; Add
    does so too, unless the writer is strict-obsolete, for which it returns
    its own error; EstimatedSize and UnsafeLastPointUserKey panic on the
    buffers that are gone; and whatever calls follow, another Close returns
    and returns an error. *)
Theorem Close_then_calls_refused (w w' : Writer) :
  Close w = Return (w', None) ->
  (err w' = Some errWriterClosed /\ writable w' = None /\ dataBlockBuf' w' = None
   /\ indexBlock w' = None /\ valueBlockWriter w' = None)
  /\ (forall key value, Set' w' key value = Return (w', Some errWriterClosed))
  /\ (forall key, Delete w' key = Return (w', Some errWriterClosed))
  /\ (forall start end', DeleteRange w' start end' = Return (w', Some errWriterClosed))
  /\ (forall key value, Merge w' key value = Return (w', Some errWriterClosed))
  /\ (forall key value forceObsolete,
        AddWithForceObsolete w' key value forceObsolete
        = Return (w', Some errWriterClosed))
  /\ (forall key value, AddRangeKey w' key value = Return (w', Some errWriterClosed))
  /\ (forall key value,
        Add w' key value
        = Return (w', Some (if isStrictObsolete w' then errUseAddWithForceObsolete
                            else errWriterClosed)))
  /\ EstimatedSize w' = Panic
  /\ UnsafeLastPointUserKey w' = Panic
  /\ (forall calls w1,
        doCalls w' calls = Return w1 ->
        exists w2 e, Close w1 = Return (w2, Some e)).
Proof.
  intros H. destruct (Close_success_shape w w' H) as (w0 & _ & Hw').
  assert (He : err w' = Some errWriterClosed) by (rewrite Hw'; reflexivity).
  assert (Hd : dataBlockBuf' w' = None) by (rewrite Hw'; reflexivity).
  split; [|clear Hw'].
  { split; [exact He|]. rewrite Hw'. repeat split. }
  destruct (latched_calls_refused w' errWriterClosed He)
    as (Hset & Hdel & Hdr & Hmerge & Hadd & Hark).
  repeat (split; [assumption|]).
  split; [|split; [|split]].
  - intros key value. unfold Add. rewrite Hadd. destruct (isStrictObsolete w'); reflexivity.
  - cbv beta delta [EstimatedSize bind the_dataBlockBuf].
    destruct (dataBlockEstimates_size _) as [dataSize est].
    cbv zeta. record.simp. rewrite Hd. reflexivity.
  - cbv beta delta [UnsafeLastPointUserKey bind the_dataBlockBuf].
    rewrite Hd. reflexivity.
  - intros calls w1 Hcalls.
    assert (H0 : err w' <> None) by congruence.
    destruct (Close_latched w1 (doCalls_latched calls w' w1 Hcalls H0))
      as (w2 & e & Hclose & _).
    exists w2, e. exact Hclose.
Qed.

(** A Close that succeeds has checked the table against its format: block
    property collectors are held only from TableFormatPebblev1 on, range
    keys only from TableFormatPebblev2 on, value blocks only from
    TableFormatPebblev3 on and sized deletions only from TableFormatPebblev4
    on. *)
Theorem Close_checks_format (w w' : Writer) :
  Close w = Return (w', None) ->
  (0 < len (blockPropCollectors w') -> TableFormatPebblev1 <= tableFormat w')
  /\ (0 < NumRangeKeys (props w') -> TableFormatPebblev2 <= tableFormat w')
  /\ (0 < num (props w') NumValueBlocks \/ 0 < num (props w') NumValuesInValueBlocks
      \/ 0 < num (props w') ValueBlocksSize ->
      TableFormatPebblev3 <= tableFormat w')
  /\ (0 < num (props w') NumSizedDeletions -> TableFormatPebblev4 <= tableFormat w').
Proof.
  intros H. destruct (Close_success_shape w w' H) as (w0 & Hf & Hw').
  assert (Hc : blockPropCollectors w' = blockPropCollectors w0) by (rewrite Hw'; reflexivity).
  assert (Hp : props w' = props w0) by (rewrite Hw'; reflexivity).
  assert (Ht : tableFormat w' = tableFormat w0) by (rewrite Hw'; reflexivity).
  rewrite Hc, Hp, Ht. clear Hc Hp Ht Hw' H.
  unfold assertFormatCompatibility in Hf.
  repeat match type of Hf with
  | (if ?c then _ else _) = None => destruct c eqn:?; [discriminate Hf|]
  end.
  repeat match goal with
  | E : _ && _ = false |- _ => apply andb_false_iff in E
  | E : _ || _ = false |- _ => apply orb_false_iff in E; destruct E
  end.
  repeat split; intros; repeat match goal with
  | E : _ \/ _ |- _ => destruct E
  | E : (_ <? _) = false |- _ => apply Z.ltb_ge in E
  end; lia.
Qed.

End Latched.

(** Of the writer without a writable: it holds an error at once, the calls
    leave it one, and Close returns an error. *)
Lemma latched_error_never_closes_witness :
  (err writerNoWritable <> None
   /\ doCalls (decls := sampleDeclarations) (comparer := bytewiseComparer)
              (format := sampleBlockFormat) writerNoWritable refusedCalls
      = Return writerRefusing)
  /\ err writerRefusing <> None
  /\ exists w2 e,
       Close (decls := sampleDeclarations) (comparer := bytewiseComparer)
             (format := sampleBlockFormat) writerRefusing
       = Return (w2, Some e).
Proof.
  pose proof (latched_error_never_closes
                (decls := sampleDeclarations) (comparer := bytewiseComparer)
                (format := sampleBlockFormat)
                writerNoWritable writerRefusing refusedCalls) as T.
  match type of T with
  | ?A -> ?B -> _ =>
      assert (H1 : A) by (vm_compute; discriminate);
      assert (H2 : B) by (apply outcome_returns; vm_compute; reflexivity)
  end.
  split; [split; [exact H1|exact H2]|].
  destruct (T H1 H2) as (He & w2 & e & Hclose & _).
  split; [exact He|]. exists w2, e. exact Hclose.
Defined.

(** The four points: after the Close that succeeds the writer holds
    errWriterClosed, and EstimatedSize panics. *)
Lemma Close_then_calls_refused_witness :
  Close (decls := sampleDeclarations) (comparer := bytewiseComparer)
        (format := sampleBlockFormat) writerWithFourPoints
  = Return (writerClosed, None)
  /\ err writerClosed = Some errWriterClosed
  /\ EstimatedSize (format := sampleBlockFormat) writerClosed = Panic.
Proof.
  pose proof (Close_then_calls_refused
                (decls := sampleDeclarations) (comparer := bytewiseComparer)
                (format := sampleBlockFormat)
                writerWithFourPoints writerClosed) as T.
  match type of T with
  | ?A -> _ => assert (H1 : A) by (apply outcome_success; vm_compute; reflexivity)
  end.
  split; [exact H1|].
  destruct (T H1) as ((He & _) & _ & _ & _ & _ & _ & _ & _ & Hes & _).
  split; [exact He|exact Hes].
Defined.

(** The table of the range key set [c,e) and the point a@5, in the format
    TableFormatPebblev2: Close succeeds, and the table holds a range key. *)
Lemma Close_checks_format_witness :
  Close (decls := sampleDeclarations) (comparer := bytewiseComparer)
        (format := sampleBlockFormat) writerWithSpan
  = Return (writerWithSpanClosed, None)
  /\ 0 < NumRangeKeys (props writerWithSpanClosed)
  /\ @TableFormatPebblev2 sampleDeclarations <= tableFormat writerWithSpanClosed.
Proof.
  pose proof (Close_checks_format
                (decls := sampleDeclarations) (comparer := bytewiseComparer)
                (format := sampleBlockFormat)
                writerWithSpan writerWithSpanClosed) as T.
  match type of T with
  | ?A -> _ => assert (H1 : A) by (apply outcome_success; vm_compute; reflexivity)
  end.
  split; [exact H1|].
  assert (Hn : 0 < NumRangeKeys (props writerWithSpanClosed))
    by (vm_compute; reflexivity).
  split; [exact Hn|]. exact (proj1 (proj2 (T H1)) Hn).
Defined.

(** ** The order of range keys *)

Section RangeKeyOrder.

Context {decls : Declarations} {comparer : Comparer} {format : BlockFormat}
        {codec : Codec} {collab : Collaborators}.

(** A range key added, with key-order checks enabled, after at least one
    other whose value decodes to an end key.  The key fits when its value
    decodes to an end key, its start key is strictly above the previous
    start key in the order of internal keys, and its span is aligned with
    the previous one (equal start user keys and equal end keys) or disjoint
    from it (the previous end key not above the new start user key).  The
    call returns no error exactly when the key fits and no block property
    collector returns one.  A key that does not fit is refused: the error is
    latched in the writer, which is otherwise as it was.  The error of a
    collector is returned but not latched.  A call that returns an error
    leaves the range-key block as it was; a call that returns none has
    appended the key and the value to it. *)
Theorem addRangeKey_fragmented (w w' : Writer) (key : InternalKey)
    (value prevEnd : bytes) (r : option error) :
  disableKeyOrderChecks w = false ->
  0 < nEntries (rangeKeyBlock w) ->
  DecodeEndKey (Kind (getCurKey (rangeKeyBlock w))) (curValue (rangeKeyBlock w))
  = Some prevEnd ->
  addRangeKey w key value = Return (w', r) ->
  let prevKey := getCurKey (rangeKeyBlock w) in
  let cu := compare (slice_bytes (UserKey prevKey)) (slice_bytes (UserKey key)) in
  let fits :=
    exists curEnd,
      DecodeEndKey (Kind key) value = Some curEnd
      /\ InternalCompare compare prevKey key < 0
      /\ (cu = 0 -> compare prevEnd curEnd = 0)
      /\ (cu <> 0 -> compare prevEnd (slice_bytes (UserKey key)) <= 0) in
  (r = None
   <-> fits /\ snd (collectors_Add (blockPropCollectors w) key (Some value)) = None)
  /\ (~ fits -> r <> None /\ w' = w<|err := r|>)
  /\ (fits -> err w' = err w)
  /\ (r <> None -> rangeKeyBlock w' = rangeKeyBlock w)
  /\ (r = None -> rangeKeyBlock w' = blockWriter_add (rangeKeyBlock w) key value).
Proof.
  intros Hchecks Hn Hprev H prevKey cu fits.
  cbv beta delta [addRangeKey bind] in H.
  match type of H with
  | match ?chk with _ => _ end = _ => destruct chk as [[w1 r1]|] eqn:Hc
  end; [|discriminate H].
  rewrite Hchecks in Hc. apply Z.ltb_lt in Hn. rewrite Hn in Hc.
  cbn [negb andb] in Hc. cbv zeta in Hc. rewrite Hprev in Hc.
  fold prevKey in Hc. fold cu in Hc.
  assert (Hspec : (r1 = None /\ w1 = w /\ fits)
                  \/ (exists e, r1 = Some e /\ w1 = w<|err := Some e|> /\ ~ fits)).
  { clear H. destruct (DecodeEndKey (Kind key) value) as [curEnd|] eqn:Hcur.
    - destruct (0 <=? InternalCompare compare prevKey key) eqn:Hic.
      + right. apply Return_inj, pair_inj in Hc. destruct Hc as [<- <-].
        eexists. split; [reflexivity|]. split; [reflexivity|].
        intros (ce & _ & Hlt & _). apply Z.leb_le in Hic. lia.
      + apply Z.leb_gt in Hic. destruct (cu =? 0) eqn:Hcu.
        * apply Z.eqb_eq in Hcu.
          destruct (compare prevEnd curEnd =? 0) eqn:Hal; cbn [negb] in Hc;
            apply Return_inj, pair_inj in Hc; destruct Hc as [<- <-].
          -- left. split; [reflexivity|]. split; [reflexivity|].
             exists curEnd. apply Z.eqb_eq in Hal.
             split; [reflexivity|]. split; [exact Hic|]. split; [auto|congruence].
          -- right. eexists. split; [reflexivity|]. split; [reflexivity|].
             intros (ce & Hce & _ & Ha & _). injection Hce as <-.
             apply Z.eqb_neq in Hal. auto.
        * apply Z.eqb_neq in Hcu.
          destruct (0 <? compare prevEnd (slice_bytes (UserKey key))) eqn:Hov;
            apply Return_inj, pair_inj in Hc; destruct Hc as [<- <-].
          -- right. eexists. split; [reflexivity|]. split; [reflexivity|].
             intros (ce & _ & _ & _ & Hb). apply Z.ltb_lt in Hov.
             specialize (Hb Hcu). lia.
          -- left. split; [reflexivity|]. split; [reflexivity|].
             exists curEnd. apply Z.ltb_ge in Hov.
             split; [reflexivity|]. split; [exact Hic|]. split; [congruence|auto].
    - right. apply Return_inj, pair_inj in Hc. destruct Hc as [<- <-].
      eexists. split; [reflexivity|]. split; [reflexivity|].
      intros (ce & Hce & _). discriminate Hce. }
  clear Hc.
  destruct Hspec as [(-> & -> & Hfits) | (e & -> & -> & Hnf)].
  - steps_on H.
    all: assert (Ha : blockPropCollectors a = blockPropCollectors w
                      /\ err a = err w /\ rangeKeyBlock a = rangeKeyBlock w);
         [ clear - D D0 D1 D2 E; subst w0; destruct (NumRangeKeys _ =? 0);
           subst w1 w2 w3;
           repeat match type of E with
                  | (if ?c then _ else _) = _ => destruct c
                  end;
           try discriminate E; apply Return_inj in E; subst a;
           (split; [reflexivity|split; reflexivity])
         | destruct Ha as (Hcs & Herr & Hblk);
           rewrite Hcs in E0; clear E D D0 D1 D2 ].
    all: split_pairs; subst; rewrite E0; cbn [snd].
    + split; [split; [discriminate|intros [_ Hf]; discriminate Hf]|].
      split; [intros Hnf; contradiction|].
      split; [intros _; exact Herr|].
      split; [intros _; exact Hblk|discriminate].
    + split; [split; [intros _; split; [exact Hfits|reflexivity]|reflexivity]|].
      split; [intros Hnf; contradiction|].
      split; [intros _; exact Herr|].
      split; [intros Hne; congruence|].
      intros _. record.simp. rewrite Hblk. reflexivity.
  - apply Return_inj, pair_inj in H. destruct H as [<- <-].
    split; [split; [discriminate|intros [Hf _]; contradiction]|].
    split; [intros _; split; [discriminate|reflexivity]|].
    split; [intros Hf; contradiction|].
    split; [intros _; reflexivity|discriminate].
Qed.

End RangeKeyOrder.

(** After [c,e)@5, the range key [e,g)@4 fits and is appended to the
    range-key block. *)
Lemma addRangeKey_fragmented_witness :
  (disableKeyOrderChecks writerWithRangeKey = false
   /\ 0 < nEntries (rangeKeyBlock writerWithRangeKey)
   /\ DecodeEndKey (Declarations := sampleDeclarations)
        (Kind (getCurKey (rangeKeyBlock writerWithRangeKey)))
        (curValue (rangeKeyBlock writerWithRangeKey))
      = Some (keyOf [101])
   /\ addRangeKey (decls := sampleDeclarations) (comparer := bytewiseComparer)
                  writerWithRangeKey (rangeKeySetKey [101] 4) (keyOf [103])
      = Return (writerWithTwoRangeKeys, None))
  /\ rangeKeyBlock writerWithTwoRangeKeys
     = blockWriter_add (rangeKeyBlock writerWithRangeKey) (rangeKeySetKey [101] 4)
                       (keyOf [103])
  /\ nEntries (rangeKeyBlock writerWithTwoRangeKeys) = 2.
Proof.
  pose proof (addRangeKey_fragmented (decls := sampleDeclarations)
                (comparer := bytewiseComparer)
                writerWithRangeKey writerWithTwoRangeKeys (rangeKeySetKey [101] 4)
                (keyOf [103]) (keyOf [101]) None) as T.
  match type of T with
  | ?A -> ?B -> ?C -> ?D -> _ =>
      assert (H1 : A) by (vm_compute; reflexivity);
      assert (H2 : B) by (vm_compute; reflexivity);
      assert (H3 : C) by (vm_compute; reflexivity);
      assert (H4 : D) by (apply outcome_success; vm_compute; reflexivity)
  end.
  split; [split; [exact H1|split; [exact H2|split; [exact H3|exact H4]]]|].
  pose proof (T H1 H2 H3 H4) as R. cbv zeta in R.
  destruct R as (_ & _ & _ & _ & Hadd).
  split; [exact (Hadd eq_refl)|vm_compute; reflexivity].
Defined.
